(** * GlowMin deployment scripts: a shallow embedding and its verification

    The repository holds three Node scripts (mint-token.js,
    create-liquidity.js, deploy-metadata.js).  Each is a sequential wrapper
    around SDK calls, console narration and JSON file writes.  The scripts
    are embedded as functions in a small state-and-exception monad over an
    explicit world; JavaScript Numbers are IEEE 754 binary64 values, taken
    from the Standard Library's [SpecFloat].  Texts are UTF-8: a character
    outside ASCII is the sequence of its bytes. *)

From Stdlib Require Import ZArith Lia Bool List String Ascii.
From Stdlib Require Import Floats.SpecFloat.
From stdpp Require Import base option list gmap strings pretty.

Local Open Scope string_scope.
Local Open Scope Z_scope.

(** ** JavaScript Numbers *)

Module JS.

(** A Number is a binary64 value: 53 bits of precision, [emax = 1024]. *)
Definition number : Type := spec_float.
Definition prec : Z := 53.
Definition emax : Z := 1024.

Definition mul : number -> number -> number := SFmul prec emax.
Definition add : number -> number -> number := SFadd prec emax.
Definition div : number -> number -> number := SFdiv prec emax.
Definition ltb : number -> number -> bool := SFltb.

(** The Number denoted by an integer literal, as [JSON.parse] or the
    source text yields it: the nearest binary64 value, ties to even. *)
Definition of_Z (z : Z) : number := binary_normalize prec emax z 0 false.

(** The mathematical floor of a finite Number, as an integer. *)
Definition floorZ (x : number) : Z :=
  match x with
  | S754_finite s m e => Z.shiftl (cond_Zopp s (Zpos m)) e
  | _ => 0
  end.

(** [Math.floor]: NaN, the infinities and the zeros are returned as they
    are; a finite value is mapped to the Number of its floor. *)
Definition Math_floor (x : number) : number :=
  match x with
  | S754_finite s m e =>
      if 0 <=? e then x else binary_normalize prec emax (floorZ x) 0 s
  | _ => x
  end.

(** [BigInt(x)] for a Number [x]: the integer [x] denotes, and a
    RangeError ([None]) when [x] is NaN, infinite or not an integer. *)
Definition BigInt (x : number) : option Z :=
  match x with
  | S754_zero _ => Some 0
  | S754_finite s m e =>
      if 0 <=? e then Some (cond_Zopp s (Zpos m * 2 ^ e))
      else if Zpos m mod 2 ^ (- e) =? 0
           then Some (cond_Zopp s (Zpos m / 2 ^ (- e)))
           else None
  | _ => None
  end.

(** The decimal literals of the allocation table, as binary64 values. *)
Definition lit_0_4 : number := S754_finite false 7205759403792794 (-54).
Definition lit_0_3 : number := S754_finite false 5404319552844595 (-54).
Definition lit_0_15 : number := S754_finite false 5404319552844595 (-55).
Definition lit_0_1 : number := S754_finite false 7205759403792794 (-56).
Definition lit_0_05 : number := S754_finite false 7205759403792794 (-57).

Definition NaN : number := S754_nan.

(** Truthiness of a Number: every value but the zeros and NaN. *)
Definition truthy (x : number) : bool :=
  match x with
  | S754_zero _ | S754_nan => false
  | _ => true
  end.

(** The text of the RangeError raised by [BigInt] on a Number that is
    not an integer. *)
Definition number_text (x : number) : string :=
  match x with
  | S754_nan => "NaN"
  | S754_infinity false => "Infinity"
  | S754_infinity true => "-Infinity"
  | _ => "a non-integer"
  end.

Definition RangeError_BigInt (x : number) : string :=
  "The number " +:+ number_text x
    +:+ " cannot be converted to a BigInt because it is not an integer".

(** Reading a property of [undefined] (V8's message). *)
Definition TypeError_undefined (prop : string) : string :=
  "Cannot read properties of undefined (reading '" +:+ prop +:+ "')".

(** *** Strings *)

(** [a < b] on strings compares code units lexicographically; over the
    bytes of UTF-8 the order is the same whenever one of the two texts is
    ASCII, as the right-hand side of the one comparison of the scripts
    is. *)
Definition string_lt (a b : string) : bool := String.ltb a b.

(** White space and line terminators (the StrWhiteSpaceChar of the
    language): TAB, LF, VT, FF, CR and SP in ASCII, *)
Definition is_whitespace (c : ascii) : bool :=
  match c with
  | " "%char | "009"%char | "010"%char | "011"%char | "012"%char
  | "013"%char => true
  | _ => false
  end.

(** U+00A0 in two bytes (C2 A0), *)
Definition is_whitespace2 (c1 c2 : ascii) : bool :=
  ((N_of_ascii c1 =? 194) && (N_of_ascii c2 =? 160))%N.

(** and in three bytes U+1680 (E1 9A 80), U+2000 to U+200A (E2 80 80 to
    E2 80 8A), U+2028 and U+2029 (E2 80 A8, E2 80 A9), U+202F (E2 80 AF),
    U+205F (E2 81 9F), U+3000 (E3 80 80) and U+FEFF (EF BB BF). *)
Definition is_whitespace3 (c1 c2 c3 : ascii) : bool :=
  let a := N_of_ascii c1 in
  let b := N_of_ascii c2 in
  let c := N_of_ascii c3 in
  ((a =? 225) && (b =? 154) && (c =? 128)
   || (a =? 226) && (b =? 128)
      && ((128 <=? c) && (c <=? 138) || (c =? 168) || (c =? 169) || (c =? 175))
   || (a =? 226) && (b =? 129) && (c =? 159)
   || (a =? 227) && (b =? 128) && (c =? 128)
   || (a =? 239) && (b =? 187) && (c =? 191))%N.

Fixpoint trim_start (s : string) : string :=
  match s with
  | String c r =>
      if is_whitespace c then trim_start r
      else
        match r with
        | String c1 r1 =>
            if is_whitespace2 c c1 then trim_start r1
            else
              match r1 with
              | String c2 r2 =>
                  if is_whitespace3 c c1 c2 then trim_start r2 else s
              | EmptyString => s
              end
        | EmptyString => s
        end
  | EmptyString => s
  end.

(** A text of white space only. *)
Definition blank (s : string) : bool :=
  match trim_start s with
  | EmptyString => true
  | _ => false
  end.

Fixpoint trim_end (s : string) : string :=
  match s with
  | String c r => if blank s then EmptyString else String c (trim_end r)
  | EmptyString => s
  end.

Definition trim (s : string) : string := trim_end (trim_start s).

(** The value of a digit in a radix of at most sixteen. *)
Definition digit_value (radix : Z) (c : ascii) : option Z :=
  let n := Z.of_N (N_of_ascii c) in
  let v := if (48 <=? n) && (n <=? 57) then n - 48
           else if (97 <=? n) && (n <=? 102) then n - 87
           else if (65 <=? n) && (n <=? 70) then n - 55
           else 16 in
  if v <? radix then Some v else None.

(** All of [s] read as digits, most significant first. *)
Fixpoint digits_value (radix acc : Z) (s : string) : option Z :=
  match s with
  | EmptyString => Some acc
  | String c r =>
      match digit_value radix c with
      | Some v => digits_value radix (acc * radix + v) r
      | None => None
      end
  end.

Definition nonempty_digits (radix : Z) (s : string) : option Z :=
  match s with
  | EmptyString => None
  | _ => digits_value radix 0 s
  end.

(** [BigInt(s)] for a string: surrounding white space is dropped, the
    empty text is zero, a decimal numeral may carry a sign, and the
    prefixes 0x, 0o and 0b select another radix.  [None] is the
    SyntaxError. *)
Definition StringToBigInt (s : string) : option Z :=
  match trim s with
  | EmptyString => Some 0
  | String "0" (String ("x" | "X") r) => nonempty_digits 16 r
  | String "0" (String ("o" | "O") r) => nonempty_digits 8 r
  | String "0" (String ("b" | "B") r) => nonempty_digits 2 r
  | String "-" r => Z.opp <$> nonempty_digits 10 r
  | String "+" r => nonempty_digits 10 r
  | t => nonempty_digits 10 t
  end.

Definition SyntaxError_BigInt (s : string) : string :=
  "Cannot convert " +:+ s +:+ " to a BigInt".

Definition TypeError_BigInt_undefined : string :=
  "Cannot convert undefined to a BigInt".

(** The longest prefix of [s] made of digits of the radix, as a value,
    with the number of digits read. *)
Fixpoint digits_prefix (radix acc : Z) (read : bool) (s : string) : Z * bool :=
  match s with
  | EmptyString => (acc, read)
  | String c r =>
      match digit_value radix c with
      | Some v => digits_prefix radix (acc * radix + v) true r
      | None => (acc, read)
      end
  end.

(** [parseInt(s)] without a radix: leading white space and a sign are
    read, 0x selects radix sixteen, and the longest digit prefix is the
    value; no digit at all gives NaN. *)
Definition parseInt (s : string) : number :=
  let t := trim_start s in
  let '(neg, t) := match t with
                   | String "-" r => (true, r)
                   | String "+" r => (false, r)
                   | _ => (false, t)
                   end in
  let '(radix, t) := match t with
                     | String "0" (String ("x" | "X") r) => (16, r)
                     | _ => (10, t)
                     end in
  match digits_prefix radix 0 false t with
  | (_, false) => NaN
  | (v, true) => if v =? 0 then S754_zero neg
                 else binary_normalize prec emax (cond_Zopp neg v) 0 false
  end.

(** Whether [needle] occurs in [s]. *)
Fixpoint includes (s needle : string) : bool :=
  String.prefix needle s
  || match s with
     | EmptyString => false
     | String _ r => includes r needle
     end.

(** *** The text of an integral Number *)

(** Whether the decimal [c] is read as the Number of value [v]. *)
Definition reads_back (v c : Z) : bool :=
  match BigInt (of_Z c) with
  | Some u => u =? v
  | None => false
  end.

(** The decimal of [k] significant digits for a value [v] of [n] digits:
    of the two multiples of [10^(n-k)] around [v], one that is read as
    [v]; the closer one when both are, the one with an even last digit
    when they are as close. *)
Definition candidate (v n k : Z) : option Z :=
  let p := 10 ^ (n - k) in
  let lo := v / p * p in
  let hi := lo + p in
  match reads_back v lo, reads_back v hi with
  | true, true =>
      Some (if v - lo <? hi - v then lo
            else if hi - v <? v - lo then hi
            else if Z.even (lo / p) then lo else hi)
  | true, false => Some lo
  | false, true => Some hi
  | false, false => None
  end.

(** The decimal with the fewest significant digits that is read as [v]. *)
Fixpoint shortest (v n : Z) (ks : list Z) : Z :=
  match ks with
  | [] => v
  | k :: ks =>
      match candidate v n k with
      | Some c => c
      | None => shortest v n ks
      end
  end.

Fixpoint significant (digits : string) : string :=
  match digits with
  | EmptyString => EmptyString
  | String c r =>
      match significant r with
      | EmptyString => if Ascii.eqb c "0" then EmptyString else String c EmptyString
      | r' => String c r'
      end
  end.

(** [d.ddde+n], the form of a value of at least [10^21]. *)
Definition exponent_text (c : Z) : string :=
  let digits := pretty c in
  let e := pretty (Z.of_nat (String.length digits) - 1) in
  match significant digits with
  | EmptyString => digits
  | String d EmptyString => String d "e+" +:+ e
  | String d r => String d ("." +:+ r) +:+ "e+" +:+ e
  end.

Definition magnitude_text (v : Z) : string :=
  if v <? 2 ^ 53 then pretty v
  else
    let n := Z.of_nat (String.length (pretty v)) in
    let c := shortest v n (seqZ 1 17) in
    if c <? 10 ^ 21 then pretty c else exponent_text c.

(** [x.toString()], and [x] in a template, for the Number [x] that the
    integer [z] denotes: the digits of [z] itself below [2^53], and above
    the shortest decimal that is read back as [x]. *)
Definition Number_toString (z : Z) : string :=
  match of_Z z with
  | S754_zero _ => "0"
  | S754_infinity s => if s then "-Infinity" else "Infinity"
  | S754_nan => "NaN"
  | S754_finite s _ _ as x =>
      (if s then "-" else EmptyString)
        +:+ magnitude_text (Z.abs (default 0 (BigInt x)))
  end.

(** *** Paths *)

(** The module [path] on a POSIX system.  The segments of a path are the
    texts between its separators. *)
Fixpoint split_path (s : string) : list string :=
  match s with
  | EmptyString => [EmptyString]
  | String c r =>
      if Ascii.eqb c "/" then EmptyString :: split_path r
      else
        match split_path r with
        | seg :: segs => String c seg :: segs
        | [] => [String c EmptyString]
        end
  end.

(** One segment of [normalize], the segments kept so far last first: an
    empty segment and [.] are dropped, [..] removes the segment before it,
    and stays in a relative path that has none. *)
Definition normalize_step (allowAboveRoot : bool) (res : list string) (seg : string)
  : list string :=
  if String.eqb seg EmptyString || String.eqb seg "." then res
  else if String.eqb seg ".." then
    match res with
    | last :: res' =>
        if String.eqb last ".." then (if allowAboveRoot then seg :: res else res)
        else res'
    | [] => if allowAboveRoot then [seg] else []
    end
  else seg :: res.

Definition starts_with_slash (s : string) : bool :=
  match s with
  | String c _ => Ascii.eqb c "/"
  | EmptyString => false
  end.

Fixpoint ends_with_slash (s : string) : bool :=
  match s with
  | EmptyString => false
  | String c EmptyString => Ascii.eqb c "/"
  | String _ r => ends_with_slash r
  end.

Definition path_normalize (p : string) : string :=
  match p with
  | EmptyString => "."
  | _ =>
      let isAbsolute := starts_with_slash p in
      let trailingSeparator := ends_with_slash p in
      match rev (fold_left (normalize_step (negb isAbsolute)) (split_path p) []) with
      | [] => if isAbsolute then "/" else if trailingSeparator then "./" else "."
      | segs =>
          (if isAbsolute then "/" else EmptyString)
            +:+ String.concat "/" segs
            +:+ (if trailingSeparator then "/" else EmptyString)
      end
  end.

(** [path.join(a, b)]. *)
Definition path_join (a b : string) : string :=
  match a, b with
  | EmptyString, _ => path_normalize b
  | _, EmptyString => path_normalize a
  | _, _ => path_normalize (a +:+ "/" +:+ b)
  end.

Fixpoint drop_slashes (s : string) : string :=
  match s with
  | String c r => if Ascii.eqb c "/" then drop_slashes r else s
  | EmptyString => s
  end.

Fixpoint drop_segment (s : string) : string :=
  match s with
  | String c r => if Ascii.eqb c "/" then s else drop_segment r
  | EmptyString => s
  end.

(** [path.dirname(p)]: [p] up to the separator before its last segment,
    found from the end and not at the first character. *)
Definition path_dirname (p : string) : string :=
  match p with
  | EmptyString => "."
  | String c t =>
      match drop_segment (drop_slashes (String.rev t)) with
      | EmptyString => if Ascii.eqb c "/" then "/" else "."
      | String _ EmptyString =>
          if Ascii.eqb c "/" then "//" else String c EmptyString
      | String _ rest => String c (String.rev rest)
      end
  end.

(** Whether [p] is the directory [d] or one above it, for absolute
    paths as [join] returns them. *)
Definition path_within (p d : string) : bool :=
  String.eqb p d || String.prefix (p +:+ "/") d
  || String.eqb p "/" && String.prefix p d.

End JS.

(** ** The world the scripts run in *)

Definition pubkey : Type := string.

(** A loaded key pair; only its public key is read by the scripts. *)
Record Keypair := { publicKey : pubkey }.

(** deployment-config.json and token-metadata.json are not part of the
    sources: the records list the fields the scripts read from them. *)
Record Config := {
  token_name : string;
  token_symbol : string;
  token_decimals : JS.number;
  token_total_supply : JS.number;
  token_mint_authority_public_key : string;
  cfg_network : gmap string string;        (* network name to RPC url *)
  raydium_program_id : string;
  raydium_sol_amount : JS.number;
  raydium_glowmin_amount : Z;              (* the integer of the JSON text *)
  fees_transaction_fee : JS.number;
  liquidity_lock_period : JS.number }.

Record Metadata := {
  md_name : string;
  md_symbol : string;
  md_description : string;
  md_social_website : string;
  md_creators : string;
  md_collection_name : string }.

(** One entry of the allocation plan, and the entry pushed to [results]
    once its step has run: the plan entry with either a token account and
    a signature, or an error message. *)
Record Distribution := {
  d_name : string;
  d_amount : Z;
  d_recipient : pubkey;
  d_purpose : string }.

Record DistributionResult := {
  distribution : Distribution;
  tokenAccount : option string;
  signature : option string;
  error : option string }.

(** The objects the scripts serialise under deployments/. *)
Inductive record_data :=
| MintingRecord (timestamp : Z) (network mintAddress : string)
    (totalSupply : JS.number) (distributions : list DistributionResult)
| MetadataRecord (timestamp : Z)
    (network metadataAccount mint updateAuthority metadataUri : string)
| PoolRecord (timestamp : Z) (network poolAddress : string)
    (solAmount : JS.number) (glowminAmount : Z)
    (liquidityTransaction lockTransaction : string) (lockEndTime : JS.number)
    (rayiumProgram : string).

(** The capabilities a script calls: SDK constructors, RPC requests,
    token-program and metadata-program instructions, and the two file
    system writes. *)
Inductive call :=
| Connection_new (url : string)
| PublicKey_new (text : string)
| Transaction_new
| createMint (payer mintAuthority freezeAuthority : pubkey) (decimals : JS.number)
| getOrCreateAssociatedTokenAccount (payer mint : option pubkey) (owner : pubkey)
| mintTo (payer mint : option pubkey) (destination : pubkey)
    (authority : option pubkey) (amount : Z)
| setAuthority (payer account : option pubkey) (currentAuthority : option pubkey)
| createMetadataAccountV3 (payer : option pubkey) (mint : pubkey)
    (name symbol uri : string)
| getVersion
| getSlot
| getParsedAccountInfo (address : pubkey)
| getBalance (address : pubkey)
| getAssociatedTokenAddress (mint owner : pubkey)
| getTokenAccountBalance (account : pubkey)
| mkdirSync (dir : string)
| writeFileSync (path : string) (data : record_data).

(** What a call that returns yields. *)
Definition resp (c : call) : Type :=
  match c with
  | Connection_new _ | Transaction_new | setAuthority _ _ _
  | mkdirSync _ | writeFileSync _ _ => unit
  | PublicKey_new _ | createMint _ _ _ _
  | getOrCreateAssociatedTokenAccount _ _ _
  | getAssociatedTokenAddress _ _ => pubkey
  | mintTo _ _ _ _ _ | createMetadataAccountV3 _ _ _ _ _ | getVersion
  | getTokenAccountBalance _ => string
  | getSlot | getBalance _ => JS.number
  | getParsedAccountInfo _ => bool
  end.

(** The calls that change the chain, and those that write to disk. *)
Definition network_mutation (c : call) : bool :=
  match c with
  | createMint _ _ _ _ | getOrCreateAssociatedTokenAccount _ _ _
  | mintTo _ _ _ _ _ | setAuthority _ _ _
  | createMetadataAccountV3 _ _ _ _ _ => true
  | _ => false
  end.

Definition file_write (c : call) : bool :=
  match c with
  | mkdirSync _ | writeFileSync _ _ => true
  | _ => false
  end.

(** A console line: the pieces of its template, in order. *)
Inductive frag :=
| Str (s : string)
| Num (x : JS.number)
| Fixed1 (x : JS.number)
| Big (z : Z)
| Iso (ms : JS.number)
| Obj (message : string).

Definition line : Type := list frag.

Inductive event :=
| Call (c : call)
| Log (l : line)
| LogError (l : line)
| Sleep (ms : Z).

Inductive result (A : Type) :=
| Ok (a : A)
| Err (message : string).
Arguments Ok {A} a.
Arguments Err {A} message.

Inductive keyfile :=
| Absent
| Malformed (message : string)
| Valid (kp : Keypair).

(** The environment of a run: the two JSON inputs as read and parsed,
    the key pair directory (its files named from the directory of the
    script), the answer to every call given the events so far, the
    successive readings of the clock in milliseconds, and [__dirname], the
    absolute path of the directory of the script. *)
Record Env := {
  env_config : result Config;
  env_metadata : result Metadata;
  env_keyfile : string -> keyfile;
  env_rpc : list event -> forall c : call, result (resp c);
  env_clock : nat -> Z;
  env_dirname : string }.

(** The state a run changes: the events so far, the record files by
    their path, for every path whether a directory exists there (the
    scripts ask about the directory of a record only, which is
    deployments/ for a network name without separator), and the clock
    reads. *)
Record World := {
  trace : list event;
  files : gmap string record_data;
  deployments_dir : string -> bool;
  ticks : nat }.

Definition initial_world : World :=
  {| trace := []; files := ∅; deployments_dir := fun _ => false; ticks := 0 |}.

(** ** The monad of the scripts *)

(** A computation returns, throws an Error (its message) or ends the
    process with [process.exit]. *)
Inductive outcome (A : Type) :=
| Ret (a : A)
| Throw (message : string)
| Exit (code : Z).
Arguments Ret {A} a.
Arguments Throw {A} message.
Arguments Exit {A} code.

Definition M (A : Type) : Type := Env -> World -> outcome A * World.

#[global] Instance M_ret : MRet M := fun A a _ w => (Ret a, w).

#[global] Instance M_bind : MBind M := fun A B k m env w =>
  match m env w with
  | (Ret a, w') => k a env w'
  | (Throw e, w') => (Throw e, w')
  | (Exit c, w') => (Exit c, w')
  end.

Definition throw {A} (message : string) : M A := fun _ w => (Throw message, w).

Definition exit {A} (code : Z) : M A := fun _ w => (Exit code, w).

(** [try { m } catch (error) { h error.message }]; [process.exit] is not
    caught. *)
Definition try_catch {A} (m : M A) (h : string -> M A) : M A := fun env w =>
  match m env w with
  | (Throw e, w') => h e env w'
  | r => r
  end.

Definition emit (e : event) : M unit := fun _ w =>
  (Ret tt, {| trace := (trace w ++ [e])%list; files := files w;
              deployments_dir := deployments_dir w; ticks := ticks w |}).

Definition log (l : line) : M unit := emit (Log l).
Definition log_error (l : line) : M unit := emit (LogError l).
Definition sleep (ms : Z) : M unit := emit (Sleep ms).

Definition when (b : bool) (m : M unit) : M unit := if b then m else mret tt.

(** Submit a call: it is recorded, and the environment answers. *)
Definition do_call (c : call) : M (resp c) := fun env w =>
  let w' := {| trace := (trace w ++ [Call c])%list; files := files w;
               deployments_dir := deployments_dir w; ticks := ticks w |} in
  match env_rpc env (trace w) c with
  | Ok v => (Ret v, w')
  | Err e => (Throw e, w')
  end.

(** [Date.now()], and the instant of [new Date()]. *)
Definition Date_now : M Z := fun env w =>
  (Ret (env_clock env (ticks w)),
   {| trace := trace w; files := files w;
      deployments_dir := deployments_dir w; ticks := S (ticks w) |}).

Definition __dirname : M string := fun env w => (Ret (env_dirname env), w).

(** [fs.existsSync(p)]: a directory or a file is there. *)
Definition fs_existsSync (p : string) : M bool := fun _ w =>
  (Ret (deployments_dir w p
        || match files w !! p with Some _ => true | None => false end), w).

Definition modify (f : World -> World) : M unit := fun _ w => (Ret tt, f w).

(** [fs.mkdirSync(dir, { recursive: true })]: [dir] exists afterwards,
    and so does every directory above it. *)
Definition fs_mkdirSync (dir : string) : M unit :=
  do_call (mkdirSync dir);;
  modify (fun w => {| trace := trace w; files := files w;
                      deployments_dir :=
                        fun p => JS.path_within p dir || deployments_dir w p;
                      ticks := ticks w |}).

(** [fs.writeFileSync] creates the file or replaces its content. *)
Definition fs_writeFileSync (path : string) (data : record_data) : M unit :=
  do_call (writeFileSync path data);;
  modify (fun w => {| trace := trace w; files := <[path := data]> (files w);
                      deployments_dir := deployments_dir w; ticks := ticks w |}).

Definition readConfig : M Config := fun env w =>
  match env_config env with Ok c => (Ret c, w) | Err e => (Throw e, w) end.

Definition readMetadata : M Metadata := fun env w =>
  match env_metadata env with Ok c => (Ret c, w) | Err e => (Throw e, w) end.

(** [if (fs.existsSync(p)) k = Keypair.fromSecretKey(new
    Uint8Array(JSON.parse(fs.readFileSync(p))))]: an absent file leaves the
    key unset, an unreadable one throws. *)
Definition load_keyfile (p : string) : M (option Keypair) := fun env w =>
  match env_keyfile env p with
  | Absent => (Ret None, w)
  | Malformed e => (Throw e, w)
  | Valid kp => (Ret (Some kp), w)
  end.

(** Code that only computes or throws is written over [result], and
    enters a script through [lift]. *)
#[global] Instance result_ret : MRet result := fun A a => Ok a.

#[global] Instance result_bind : MBind result := fun A B k m =>
  match m with
  | Ok a => k a
  | Err e => Err e
  end.

Definition lift {A} (r : result A) : M A := fun _ w =>
  match r with
  | Ok a => (Ret a, w)
  | Err e => (Throw e, w)
  end.

(** [k.publicKey] for a key pair that may be undefined. *)
Definition get_publicKey (k : option Keypair) : result pubkey :=
  match k with
  | Some kp => Ok (publicKey kp)
  | None => Err (JS.TypeError_undefined "publicKey")
  end.

Definition publicKey_of (k : option Keypair) : M pubkey := lift (get_publicKey k).

Definition nl : string := String "010" EmptyString.

Definition CONFIG_PATH : string := "../metadata/deployment-config.json".
Definition KEYPAIR_DIR : string := "../keypairs".
Definition DEPLOYMENTS_DIR : string := "../deployments".

(** The exit status of a script whose [main()] promise is [m]: 0 when it
    resolves, the code of [process.exit], and 1 through the [catch] of the
    last lines when it rejects. *)
Definition run_script (m : M unit) (env : Env) (w : World) : Z * World :=
  match (try_catch m (fun e =>
           log_error [Str "❌ Script execution failed:"; Str " "; Str e];; exit 1)) env w with
  | (Ret _, w') => (0, w')
  | (Exit c, w') => (c, w')
  | (Throw _, w') => (1, w')
  end.

(** [Object.keys(keypairs).forEach(key => console.log(...))], the keys in
    the order the script assigns them. *)
Fixpoint log_keypairs (keys : list string) (keypairs : gmap string Keypair) : M unit :=
  match keys with
  | [] => mret tt
  | key :: rest =>
      match keypairs !! key with
      | Some kp => log [Str "   "; Str key; Str ": "; Str (publicKey kp)]
      | None => mret tt
      end;;
      log_keypairs rest keypairs
  end.

(** [new Date(t).toISOString()] throws a RangeError unless [t] is a finite
    time value of magnitude at most 8.64e15. *)
Definition valid_time (t : JS.number) : bool :=
  match t with
  | S754_zero _ => true
  | S754_finite _ _ _ =>
      negb (SFltb (JS.of_Z 8640000000000000) (SFabs t))
  | _ => false
  end.

Definition toISOString (t : JS.number) : result frag :=
  if valid_time t then Ok (Iso t) else Err "Invalid time value".

(** The [minting-], [metadata-] and [pool-] file names:
    [`../deployments/<kind>-${network}-${Date.now()}.json`], *)
Definition record_file (kind network : string) (now : Z) : string :=
  kind +:+ "-" +:+ network +:+ "-" +:+ JS.Number_toString now +:+ ".json".

Definition record_name (kind network : string) (now : Z) : string :=
  DEPLOYMENTS_DIR +:+ "/" +:+ record_file kind network now.

(** and the path [path.join(__dirname, ...)] makes of it. *)
Definition record_path (dirname kind network : string) (now : Z) : string :=
  JS.path_join dirname (record_name kind network now).

(** [JSON.stringify(data, null, 2)] throws a TypeError on a BigInt, and
    every entry of the results of a distribution holds one, its amount;
    the other records hold strings and Numbers only.  The text of a
    record stands for the record. *)
Definition JSON_stringify (data : record_data) : result record_data :=
  match data with
  | MintingRecord _ _ _ _ (_ :: _) => Err "Do not know how to serialize a BigInt"
  | _ => Ok data
  end.

(** The tail shared by the three save functions: create the directory of
    the path when it is missing, serialise the record, write it, report
    the path. *)
Definition write_record (what infoPath : string) (data : record_data) : M unit :=
  let deploymentsDir := JS.path_dirname infoPath in
  present ← fs_existsSync deploymentsDir;
  when (negb present) (fs_mkdirSync deploymentsDir);;
  text ← lift (JSON_stringify data);
  fs_writeFileSync infoPath text;;
  log [Str what; Str infoPath].

(** [createConnection], the same text in the three scripts. *)
Definition createConnection (network : string) (verbose : bool) (config : Config)
  : M string :=
  match cfg_network config !! network with
  | None =>
      log_error [Str "❌ Network '"; Str network; Str "' not found in configuration"];;
      exit 1
  | Some url =>
      do_call (Connection_new url);;
      when verbose
        (log [Str "✅ Connected to "; Str network; Str " network"];;
         log [Str "   RPC URL: "; Str url]);;
      mret url
  end.

(** ** mint-token.js *)

Module MintToken.

Record TokenMinter := {
  network : string;
  verbose : bool;
  config : Config;
  connection : string;
  keypairs : gmap string Keypair;
  mintAddress : option pubkey }.

Definition loadConfig (network : string) (verbose : bool) : M Config :=
  try_catch
    (config ← readConfig;
     when verbose
       (log [Str "✅ Configuration loaded successfully"];;
        log [Str "   Network: "; Str network];;
        log [Str "   Token: "; Str (token_name config); Str " (";
             Str (token_symbol config); Str ")"];;
        log [Str "   Decimals: "; Num (token_decimals config)];;
        log [Str "   Total Supply: "; Num (token_total_supply config)]);;
     mret config)
    (fun e => log_error [Str "❌ Failed to load configuration:"; Str " "; Str e];;
              exit 1).

Definition loadKeypairs (verbose : bool) : M (gmap string Keypair) :=
  try_catch
    (mintAuthority ← load_keyfile (KEYPAIR_DIR +:+ "/mint-authority.json");
     let keypairs : gmap string Keypair :=
       match mintAuthority with
       | Some kp => <["mintAuthority" := kp]> ∅
       | None => ∅
       end in
     freezeAuthority ← load_keyfile (KEYPAIR_DIR +:+ "/freeze-authority.json");
     let keypairs :=
       match freezeAuthority with
       | Some kp => <["freezeAuthority" := kp]> keypairs
       | None => keypairs
       end in
     when verbose
       (log [Str "✅ Keypairs loaded successfully"];;
        log_keypairs ["mintAuthority"; "freezeAuthority"] keypairs);;
     mret keypairs)
    (fun e => log_error [Str "❌ Failed to load keypairs:"; Str " "; Str e];;
              exit 1).

(** [new TokenMinter(network, verbose)]; an undefined [network] takes the
    default ['devnet']. *)
Definition new (network : option string) (verbose : bool) : M TokenMinter :=
  let network := default "devnet" network in
  config ← loadConfig network verbose;
  connection ← createConnection network verbose config;
  keypairs ← loadKeypairs verbose;
  mret {| network := network; verbose := verbose; config := config;
          connection := connection; keypairs := keypairs; mintAddress := None |}.

(** Returns the mint together with the object, whose [mintAddress] it
    has set. *)
Definition createTokenMint (this : TokenMinter) : M (TokenMinter * pubkey) :=
  try_catch
    (log [Str "🪙 Creating token mint..."];;
     mintAuthority ← publicKey_of (keypairs this !! "mintAuthority");
     freezeAuthority ← publicKey_of (keypairs this !! "freezeAuthority");
     mint ← do_call (createMint mintAuthority mintAuthority freezeAuthority
                       (token_decimals (config this)));
     log [Str "✅ Token mint created successfully!"];;
     log [Str "   Mint Address: "; Str mint];;
     log [Str "   Decimals: "; Num (token_decimals (config this))];;
     log [Str "   Mint Authority: "; Str mintAuthority];;
     log [Str "   Freeze Authority: "; Str freezeAuthority];;
     mret ({| network := network this; verbose := verbose this;
              config := config this; connection := connection this;
              keypairs := keypairs this; mintAddress := Some mint |}, mint))
    (fun e => log_error [Str "❌ Failed to create token mint:"; Str " "; Str e];;
              throw e).

Definition createTokenAccount (this : TokenMinter) (owner : pubkey) : M pubkey :=
  try_catch
    (tokenAccount ← do_call (getOrCreateAssociatedTokenAccount
                               (publicKey <$> keypairs this !! "mintAuthority")
                               (mintAddress this) owner);
     when (verbose this)
       (log [Str "✅ Token account created/found for "; Str owner];;
        log [Str "   Token Account: "; Str tokenAccount]);;
     mret tokenAccount)
    (fun e => log_error [Str "❌ Failed to create token account for "; Str owner;
                         Str ":"; Str " "; Str e];;
              throw e).

Definition mintTokens (this : TokenMinter) (to : pubkey) (amount : Z)
  : M (pubkey * string) :=
  try_catch
    (tokenAccount ← createTokenAccount this to;
     signature ← do_call (mintTo (publicKey <$> keypairs this !! "mintAuthority")
                            (mintAddress this) tokenAccount
                            (publicKey <$> keypairs this !! "mintAuthority") amount);
     when (verbose this)
       (log [Str "✅ Minted "; Big amount; Str " tokens to "; Str to];;
        log [Str "   Transaction: "; Str signature]);;
     mret (tokenAccount, signature))
    (fun e => log_error [Str "❌ Failed to mint tokens to "; Str to; Str ":";
                         Str " "; Str e];;
              throw e).

(** [BigInt(Math.floor(totalSupply * fraction))]. *)
Definition allocation (totalSupply fraction : JS.number) : result Z :=
  let x := JS.Math_floor (JS.mul totalSupply fraction) in
  match JS.BigInt x with
  | Some z => Ok z
  | None => Err (JS.RangeError_BigInt x)
  end.

Definition calculateDistributions (this : TokenMinter) : result (list Distribution) :=
  let totalSupply := token_total_supply (config this) in
  a1 ← allocation totalSupply JS.lit_0_4;
  r1 ← get_publicKey (keypairs this !! "mintAuthority");
  a2 ← allocation totalSupply JS.lit_0_3;
  r2 ← get_publicKey (keypairs this !! "mintAuthority");
  a3 ← allocation totalSupply JS.lit_0_15;
  r3 ← get_publicKey (keypairs this !! "mintAuthority");
  a4 ← allocation totalSupply JS.lit_0_1;
  r4 ← get_publicKey (keypairs this !! "mintAuthority");
  a5 ← allocation totalSupply JS.lit_0_05;
  r5 ← get_publicKey (keypairs this !! "mintAuthority");
  mret [ {| d_name := "Liquidity Pool"; d_amount := a1; d_recipient := r1;
            d_purpose := "Initial liquidity provision" |};
         {| d_name := "Community"; d_amount := a2; d_recipient := r2;
            d_purpose := "Community rewards and airdrops" |};
         {| d_name := "Team"; d_amount := a3; d_recipient := r3;
            d_purpose := "Team allocation with vesting" |};
         {| d_name := "Marketing"; d_amount := a4; d_recipient := r4;
            d_purpose := "Marketing campaigns and partnerships" |};
         {| d_name := "Reserve"; d_amount := a5; d_recipient := r5;
            d_purpose := "Future development and emergency fund" |} ].

(** [distributions.forEach((dist, index) => ...)]. *)
Fixpoint showDistributions (this : TokenMinter) (index : Z)
  (distributions : list Distribution) : M unit :=
  match distributions with
  | [] => mret tt
  | dist :: rest =>
      log [Str "   "; Big (index + 1); Str ". "; Str (d_name dist)];;
      log [Str "      Amount: "; Big (d_amount dist); Str " tokens"];;
      log [Str "      Percentage: ";
           Fixed1 (JS.mul (JS.div (JS.of_Z (d_amount dist))
                             (token_total_supply (config this)))
                     (JS.of_Z 100));
           Str "%"];;
      log [Str "      Purpose: "; Str (d_purpose dist)];;
      log [Str EmptyString];;
      showDistributions this (index + 1) rest
  end.

Definition showDistributionPlan (this : TokenMinter)
  (distributions : list Distribution) : M unit :=
  log [Str "📋 Token Distribution Plan:"];;
  log [Str "   Total Supply: "; Num (token_total_supply (config this))];;
  log [Str "   Mint Address: ";
       Str (match mintAddress this with
            | Some m => if String.eqb m EmptyString then "Will be created" else m
            | None => "Will be created"
            end)];;
  log [Str nl; Str "   Distributions:"];;
  showDistributions this 0 distributions.

Definition revokeMintAuthority (this : TokenMinter) : M unit :=
  try_catch
    (log [Str "🔒 Revoking mint authority..."];;
     do_call (setAuthority (publicKey <$> keypairs this !! "mintAuthority")
                (mintAddress this)
                (publicKey <$> keypairs this !! "mintAuthority"));;
     log [Str "✅ Mint authority revoked successfully!"];;
     log [Str "   Token is now non-mintable"])
    (fun e => log_error [Str "❌ Failed to revoke mint authority:"; Str " "; Str e];;
              throw e).

Definition saveDistributionResults (this : TokenMinter)
  (results : list DistributionResult) : M unit :=
  timestamp ← Date_now;
  mint ← match mintAddress this with
         | Some m => mret m
         | None => throw "Cannot read properties of null (reading 'toString')"
         end;
  let distributionInfo :=
    MintingRecord timestamp (network this) mint
      (token_total_supply (config this)) results in
  now ← Date_now;
  dirname ← __dirname;
  let infoPath := record_path dirname "minting" (network this) now in
  write_record "📄 Distribution results saved to: " infoPath distributionInfo.

(** The body of [for (const distribution of distributions)], with the
    [results] array threaded through. *)
Fixpoint distribute_loop (this : TokenMinter) (distributions : list Distribution)
  (results : list DistributionResult) : M (list DistributionResult) :=
  match distributions with
  | [] => mret results
  | distribution :: rest =>
      results ←
        try_catch
          (log [Str "📦 Distributing "; Str (d_name distribution); Str "..."];;
           log [Str "   Amount: "; Big (d_amount distribution); Str " tokens"];;
           log [Str "   Recipient: "; Str (d_recipient distribution)];;
           result ← mintTokens this (d_recipient distribution) (d_amount distribution);
           let results :=
             (results ++ [ {| distribution := distribution;
                              tokenAccount := Some (fst result);
                              signature := Some (snd result);
                              error := None |} ])%list in
           log [Str "✅ "; Str (d_name distribution); Str " distribution completed"];;
           sleep 1000;;
           mret results)
          (fun e =>
             log_error [Str "❌ Failed to distribute "; Str (d_name distribution);
                        Str ":"; Str " "; Str e];;
             mret (results ++ [ {| distribution := distribution;
                                   tokenAccount := None; signature := None;
                                   error := Some e |} ])%list);
      distribute_loop this rest results
  end.

(** Returns [None] for the [undefined] of a dry run. *)
Definition distributeTokens (this : TokenMinter) (dryRun : bool)
  : M (option (list DistributionResult)) :=
  log [Str nl; Str "🎯 Starting token distribution..."; Str nl];;
  distributions ← lift (calculateDistributions this);
  if dryRun then
    log [Str "🔍 DRY RUN MODE - No actual minting will occur"; Str nl];;
    showDistributionPlan this distributions;;
    mret None
  else
    results ← distribute_loop this distributions [];
    saveDistributionResults this results;;
    mret (Some results).

(** Truthiness of [amount]: [null] and [0n] are falsy. *)
Definition given (amount : option Z) : bool :=
  match amount with
  | Some a => negb (a =? 0)
  | None => false
  end.

Definition executeMinting (this : TokenMinter) (amount : option Z) (dryRun : bool)
  : M unit :=
  log [Str nl; Str "🚀 Starting GlowMin token minting..."; Str nl];;
  try_catch
    ('(this, _) ← createTokenMint this;
     (if given amount then
        log [Str "💰 Minting "; Big (default 0 amount); Str " tokens..."];;
        to ← publicKey_of (keypairs this !! "mintAuthority");
        result ← mintTokens this to (default 0 amount);
        log [Str "✅ Minting completed!"];;
        log [Str "   Token Account: "; Str (fst result)];;
        log [Str "   Transaction: "; Str (snd result)]
      else
        distributeTokens this dryRun;; mret tt);;
     when (negb dryRun && negb (given amount)) (revokeMintAuthority this);;
     log [Str nl; Str "🎉 GlowMin token minting completed successfully!"];;
     log [Str nl; Str "Next steps:"];;
     log [Str "1. Verify token on Solana Explorer"];;
     log [Str "2. Deploy metadata if not already done"];;
     log [Str "3. Create liquidity pool"];;
     log [Str "4. Update deployment-config.json with mint address"])
    (fun e =>
       log_error [Str "❌ Token minting failed:"; Str " "; Str e];;
       when (verbose this) (log_error [Str "Full error details:"; Str " "; Obj e]);;
       exit 1).

Record Options := {
  opt_network : option string;
  opt_amount : option Z;
  opt_dryRun : bool;
  opt_verbose : bool }.

Definition usage : string :=
  "
Usage: node mint-token.js [options]

Options:
  --network <network>    Target network (devnet, testnet, mainnet-beta)
  --amount <amount>      Amount to mint (in smallest units)
  --dry-run             Show what would be minted without executing
  --verbose             Enable verbose logging
  --help                Show this help message

Examples:
  node mint-token.js --network devnet
  node mint-token.js --network mainnet-beta --amount 1000000000000
  node mint-token.js --dry-run
        ".

(** [BigInt(args[++i])]. *)
Definition BigInt_arg (arg : option string) : M Z :=
  match arg with
  | None => throw JS.TypeError_BigInt_undefined
  | Some s =>
      match JS.StringToBigInt s with
      | Some z => mret z
      | None => throw (JS.SyntaxError_BigInt s)
      end
  end.

(** The [for] loop of [parseArgs] from index [i] on, over the arguments
    not yet read; a flag with a value also consumes [args[++i]], which is
    undefined past the end. *)
Fixpoint parse_loop (options : Options) (args : list string) : M Options :=
  match args with
  | [] => mret options
  | arg :: rest =>
      if String.eqb arg "--network" then
        let options value :=
          {| opt_network := value; opt_amount := opt_amount options;
             opt_dryRun := opt_dryRun options;
             opt_verbose := opt_verbose options |} in
        match rest with
        | [] => mret (options None)
        | value :: rest => parse_loop (options (Some value)) rest
        end
      else if String.eqb arg "--amount" then
        let options amount :=
          {| opt_network := opt_network options; opt_amount := Some amount;
             opt_dryRun := opt_dryRun options;
             opt_verbose := opt_verbose options |} in
        match rest with
        | [] => amount ← BigInt_arg None; mret (options amount)
        | value :: rest =>
            amount ← BigInt_arg (Some value); parse_loop (options amount) rest
        end
      else if String.eqb arg "--dry-run" then
        parse_loop {| opt_network := opt_network options;
                      opt_amount := opt_amount options;
                      opt_dryRun := true; opt_verbose := opt_verbose options |} rest
      else if String.eqb arg "--verbose" then
        parse_loop {| opt_network := opt_network options;
                      opt_amount := opt_amount options;
                      opt_dryRun := opt_dryRun options; opt_verbose := true |} rest
      else if String.eqb arg "--help" then
        log [Str usage];; exit 0
      else
        parse_loop options rest
  end.

Definition parseArgs (args : list string) : M Options :=
  parse_loop {| opt_network := Some "devnet"; opt_amount := None;
                opt_dryRun := false; opt_verbose := false |} args.

Definition main (args : list string) : M unit :=
  options ← parseArgs args;
  log [Str "🌟 GlowMin Token Minting Script"];;
  log [Str "=============================="; Str nl];;
  minter ← new (opt_network options) (opt_verbose options);
  executeMinting minter (opt_amount options) (opt_dryRun options).

(** [node mint-token.js args]. *)
Definition script (args : list string) : Env -> World -> Z * World :=
  run_script (main args).

End MintToken.

(** ** create-liquidity.js *)

Module CreateLiquidity.

Record LiquidityCreator := {
  network : string;
  verbose : bool;
  config : Config;
  connection : string;
  keypairs : gmap string Keypair;
  mintAddress : option pubkey;
  poolAddress : option pubkey }.

Definition loadConfig (network : string) (verbose : bool) : M Config :=
  try_catch
    (config ← readConfig;
     when verbose
       (log [Str "✅ Configuration loaded successfully"];;
        log [Str "   Network: "; Str network];;
        log [Str "   Raydium Program: "; Str (raydium_program_id config)];;
        log [Str "   Initial SOL: "; Num (raydium_sol_amount config)];;
        log [Str "   Initial GLOWMIN: "; Big (raydium_glowmin_amount config)]);;
     mret config)
    (fun e => log_error [Str "❌ Failed to load configuration:"; Str " "; Str e];;
              exit 1).

Definition loadKeypairs (verbose : bool) : M (gmap string Keypair) :=
  try_catch
    (main ← load_keyfile (KEYPAIR_DIR +:+ "/main-keypair.json");
     let keypairs : gmap string Keypair :=
       match main with
       | Some kp => <["main" := kp]> ∅
       | None => ∅
       end in
     liquidityAuthority ← load_keyfile (KEYPAIR_DIR +:+ "/liquidity-authority.json");
     let keypairs :=
       match liquidityAuthority with
       | Some kp => <["liquidityAuthority" := kp]> keypairs
       | None => keypairs
       end in
     when verbose
       (log [Str "✅ Keypairs loaded successfully"];;
        log_keypairs ["main"; "liquidityAuthority"] keypairs);;
     mret keypairs)
    (fun e => log_error [Str "❌ Failed to load keypairs:"; Str " "; Str e];;
              exit 1).

Definition new (network : option string) (verbose : bool) : M LiquidityCreator :=
  let network := default "devnet" network in
  config ← loadConfig network verbose;
  connection ← createConnection network verbose config;
  keypairs ← loadKeypairs verbose;
  mret {| network := network; verbose := verbose; config := config;
          connection := connection; keypairs := keypairs;
          mintAddress := None; poolAddress := None |}.

(** [sol_amount + transaction_fee * 10]. *)
Definition requiredBalance (config : Config) : JS.number :=
  JS.add (raydium_sol_amount config)
         (JS.mul (fees_transaction_fee config) (JS.of_Z 10)).

Definition checkMint (this : LiquidityCreator) : M unit :=
  try_catch
    (address ← do_call (PublicKey_new (token_mint_authority_public_key (config this)));
     mintInfo ← do_call (getParsedAccountInfo address);
     (if negb mintInfo then throw "GLOWMIN mint not found" else mret tt);;
     log [Str "✅ GLOWMIN mint found"])
    (fun _ =>
       log_error [Str "❌ GLOWMIN mint not found. Please run mint-token.js first."];;
       exit 1).

Definition checkSolBalance (this : LiquidityCreator) : M unit :=
  try_catch
    (main ← publicKey_of (keypairs this !! "main");
     balance ← do_call (getBalance main);
     let requiredBalance := requiredBalance (config this) in
     (if JS.ltb balance requiredBalance then
        log_error [Str "❌ Insufficient SOL balance. Required: "; Num requiredBalance;
                   Str " lamports, Available: "; Num balance; Str " lamports"];;
        exit 1
      else mret tt);;
     log [Str "✅ Sufficient SOL balance available"];;
     log [Str "   Balance: "; Num balance; Str " lamports (";
          Num (JS.div balance (JS.of_Z 1000000000)); Str " SOL)"])
    (fun e => log_error [Str "❌ Failed to check SOL balance:"; Str " "; Str e];;
              exit 1).

Definition checkTokenBalance (this : LiquidityCreator) : M unit :=
  try_catch
    (mint ← do_call (PublicKey_new (token_mint_authority_public_key (config this)));
     main ← publicKey_of (keypairs this !! "main");
     tokenAccount ← do_call (getAssociatedTokenAddress mint main);
     amount ← do_call (getTokenAccountBalance tokenAccount);
     let requiredTokens := raydium_glowmin_amount (config this) in
     (if JS.string_lt amount (JS.Number_toString requiredTokens) then
        log_error [Str "❌ Insufficient GLOWMIN balance. Required: "; Big requiredTokens;
                   Str ", Available: "; Str amount];;
        exit 1
      else mret tt);;
     log [Str "✅ Sufficient GLOWMIN balance available"];;
     log [Str "   Balance: "; Str amount; Str " tokens"])
    (fun e => log_error [Str "❌ Failed to check GLOWMIN balance:"; Str " "; Str e];;
              exit 1).

(** The three [try] blocks of [checkPrerequisites], in order. *)
Definition checkPrerequisites (this : LiquidityCreator) : M unit :=
  log [Str "🔍 Checking prerequisites..."];;
  checkMint this;;
  checkSolBalance this;;
  checkTokenBalance this;;
  log [Str "✅ All prerequisites met"; Str nl].

(** [solAmount || this.config.raydium.initial_liquidity.sol_amount]. *)
Definition actualSolAmount (this : LiquidityCreator) (solAmount : option JS.number)
  : JS.number :=
  match solAmount with
  | Some x => if JS.truthy x then x else raydium_sol_amount (config this)
  | None => raydium_sol_amount (config this)
  end.

Definition createPool (this : LiquidityCreator) (solAmount : option JS.number)
  : M (LiquidityCreator * pubkey) :=
  log [Str "🏊 Creating liquidity pool..."];;
  let actualSolAmount := actualSolAmount this solAmount in
  let glowminAmount := raydium_glowmin_amount (config this) in
  try_catch
    (log [Str "📝 Pool creation parameters:"];;
     log [Str "   SOL Amount: "; Num actualSolAmount; Str " lamports (";
          Num (JS.div actualSolAmount (JS.of_Z 1000000000)); Str " SOL)"];;
     log [Str "   GLOWMIN Amount: "; Big glowminAmount; Str " tokens"];;
     log [Str "   Pool Type: GLOWMIN/SOL"];;
     log [Str "   Fee Rate: 0.25%"];;
     poolAddress ← do_call (PublicKey_new "POOL_ADDRESS_PLACEHOLDER");
     log [Str "✅ Pool created successfully!"];;
     log [Str "   Pool Address: "; Str poolAddress];;
     now ← Date_now;
     log [Str "   Pool ID: GLOWMIN-SOL-"; Big now];;
     mret ({| network := network this; verbose := verbose this;
              config := config this; connection := connection this;
              keypairs := keypairs this; mintAddress := mintAddress this;
              poolAddress := Some poolAddress |}, poolAddress))
    (fun e => log_error [Str "❌ Failed to create pool:"; Str " "; Str e];;
              throw e).

(** Returns the signature of the liquidity transaction. *)
Definition addInitialLiquidity (this : LiquidityCreator)
  (solAmount : option JS.number) : M string :=
  log [Str "💧 Adding initial liquidity..."];;
  let actualSolAmount := actualSolAmount this solAmount in
  let glowminAmount := raydium_glowmin_amount (config this) in
  try_catch
    (log [Str "📝 Liquidity provision parameters:"];;
     log [Str "   SOL Amount: "; Num actualSolAmount; Str " lamports (";
          Num (JS.div actualSolAmount (JS.of_Z 1000000000)); Str " SOL)"];;
     log [Str "   GLOWMIN Amount: "; Big glowminAmount; Str " tokens"];;
     log [Str "   Slippage Tolerance: 0.5%"];;
     do_call Transaction_new;;
     let signature := "TRANSACTION_SIGNATURE_PLACEHOLDER" in
     log [Str "✅ Initial liquidity added successfully!"];;
     log [Str "   Transaction: "; Str signature];;
     log [Str "   LP Tokens Created: ";
          Num (JS.div (JS.add actualSolAmount (JS.of_Z glowminAmount))
                      (JS.of_Z 1000000000));
          Str " tokens"];;
     mret signature)
    (fun e => log_error [Str "❌ Failed to add initial liquidity:"; Str " "; Str e];;
              throw e).

(** Returns the lock signature and the end of the lock, in seconds. *)
Definition lockLiquidity (this : LiquidityCreator) : M (string * JS.number) :=
  log [Str "🔒 Locking liquidity..."];;
  try_catch
    (let lockPeriod := liquidity_lock_period (config this) in
     now ← Date_now;
     let lockEndTime :=
       JS.add (JS.Math_floor (JS.div (JS.of_Z now) (JS.of_Z 1000))) lockPeriod in
     log [Str "📝 Liquidity lock parameters:"];;
     log [Str "   Lock Period: "; Num lockPeriod; Str " seconds (";
          Num (JS.div lockPeriod (JS.of_Z 86400)); Str " days)"];;
     iso ← lift (toISOString (JS.mul lockEndTime (JS.of_Z 1000)));
     log [Str "   Lock End Time: "; iso];;
     let lockSignature := "LOCK_TRANSACTION_SIGNATURE_PLACEHOLDER" in
     log [Str "✅ Liquidity locked successfully!"];;
     log [Str "   Lock Transaction: "; Str lockSignature];;
     log [Str "   Lock Duration: "; Num (JS.div lockPeriod (JS.of_Z 86400));
          Str " days"];;
     mret (lockSignature, lockEndTime))
    (fun e => log_error [Str "❌ Failed to lock liquidity:"; Str " "; Str e];;
              throw e).

Definition showCreationPlan (this : LiquidityCreator) (solAmount : option JS.number)
  : M unit :=
  let actualSolAmount := actualSolAmount this solAmount in
  let glowminAmount := raydium_glowmin_amount (config this) in
  log [Str "📋 Liquidity Pool Creation Plan:"];;
  log [Str "   Network: "; Str (network this)];;
  log [Str "   Pool Type: GLOWMIN/SOL"];;
  log [Str "   SOL Amount: "; Num actualSolAmount; Str " lamports (";
       Num (JS.div actualSolAmount (JS.of_Z 1000000000)); Str " SOL)"];;
  log [Str "   GLOWMIN Amount: "; Big glowminAmount; Str " tokens"];;
  log [Str "   Fee Rate: 0.25%"];;
  log [Str "   Lock Period: ";
       Num (JS.div (liquidity_lock_period (config this)) (JS.of_Z 86400));
       Str " days"];;
  log [Str "   Raydium Program: "; Str (raydium_program_id (config this))].

Definition savePoolInfo (this : LiquidityCreator) (poolAddress : pubkey)
  (liquidityResult : string) (lockResult : string * JS.number) : M unit :=
  timestamp ← Date_now;
  let poolInfo :=
    PoolRecord timestamp (network this) poolAddress
      (raydium_sol_amount (config this)) (raydium_glowmin_amount (config this))
      liquidityResult (fst lockResult) (snd lockResult)
      (raydium_program_id (config this)) in
  now ← Date_now;
  dirname ← __dirname;
  let infoPath := record_path dirname "pool" (network this) now in
  write_record "📄 Pool info saved to: " infoPath poolInfo.

Definition executePoolCreation (this : LiquidityCreator)
  (solAmount : option JS.number) (dryRun : bool) : M unit :=
  log [Str nl; Str "🚀 Starting GlowMin liquidity pool creation..."; Str nl];;
  try_catch
    (checkPrerequisites this;;
     if dryRun then
       log [Str "🔍 DRY RUN MODE - No actual pool creation will occur"; Str nl];;
       showCreationPlan this solAmount
     else
       '(this, poolAddress) ← createPool this solAmount;
       liquidityResult ← addInitialLiquidity this solAmount;
       lockResult ← lockLiquidity this;
       savePoolInfo this poolAddress liquidityResult lockResult;;
       log [Str nl; Str "🎉 GlowMin liquidity pool creation completed successfully!"];;
       log [Str nl; Str "Next steps:"];;
       log [Str "1. Verify pool on Raydium"];;
       log [Str "2. Update deployment-config.json with pool address"];;
       log [Str "3. Update website with pool link"];;
       log [Str "4. Announce pool launch to community"])
    (fun e =>
       log_error [Str "❌ Pool creation failed:"; Str " "; Str e];;
       when (verbose this) (log_error [Str "Full error details:"; Str " "; Obj e]);;
       exit 1).

Record Options := {
  opt_network : option string;
  opt_solAmount : option JS.number;
  opt_dryRun : bool;
  opt_verbose : bool }.

Definition usage : string :=
  "
Usage: node create-liquidity.js [options]

Options:
  --network <network>      Target network (devnet, testnet, mainnet-beta)
  --sol-amount <amount>    SOL amount for initial liquidity (in lamports)
  --dry-run               Show what would be created without executing
  --verbose               Enable verbose logging
  --help                  Show this help message

Examples:
  node create-liquidity.js --network devnet
  node create-liquidity.js --network mainnet-beta --sol-amount 2000000000
  node create-liquidity.js --dry-run
        ".

(** [parseInt(args[++i])]; an undefined argument reads as the text
    ["undefined"], which has no digit. *)
Definition parseInt_arg (arg : option string) : JS.number :=
  JS.parseInt (default "undefined" arg).

Fixpoint parse_loop (options : Options) (args : list string) : M Options :=
  match args with
  | [] => mret options
  | arg :: rest =>
      if String.eqb arg "--network" then
        let options value :=
          {| opt_network := value; opt_solAmount := opt_solAmount options;
             opt_dryRun := opt_dryRun options;
             opt_verbose := opt_verbose options |} in
        match rest with
        | [] => mret (options None)
        | value :: rest => parse_loop (options (Some value)) rest
        end
      else if String.eqb arg "--sol-amount" then
        let options value :=
          {| opt_network := opt_network options;
             opt_solAmount := Some (parseInt_arg value);
             opt_dryRun := opt_dryRun options;
             opt_verbose := opt_verbose options |} in
        match rest with
        | [] => mret (options None)
        | value :: rest => parse_loop (options (Some value)) rest
        end
      else if String.eqb arg "--dry-run" then
        parse_loop {| opt_network := opt_network options;
                      opt_solAmount := opt_solAmount options;
                      opt_dryRun := true; opt_verbose := opt_verbose options |} rest
      else if String.eqb arg "--verbose" then
        parse_loop {| opt_network := opt_network options;
                      opt_solAmount := opt_solAmount options;
                      opt_dryRun := opt_dryRun options; opt_verbose := true |} rest
      else if String.eqb arg "--help" then
        log [Str usage];; exit 0
      else
        parse_loop options rest
  end.

Definition parseArgs (args : list string) : M Options :=
  parse_loop {| opt_network := Some "devnet"; opt_solAmount := None;
                opt_dryRun := false; opt_verbose := false |} args.

Definition main (args : list string) : M unit :=
  options ← parseArgs args;
  log [Str "🌟 GlowMin Liquidity Pool Creation Script"];;
  log [Str "========================================="; Str nl];;
  creator ← new (opt_network options) (opt_verbose options);
  executePoolCreation creator (opt_solAmount options) (opt_dryRun options).

(** [node create-liquidity.js args]. *)
Definition script (args : list string) : Env -> World -> Z * World :=
  run_script (main args).

End CreateLiquidity.

(** ** deploy-metadata.js *)

Module DeployMetadata.

Definition METADATA_PATH : string := "../metadata/token-metadata.json".

Record MetadataDeployer := {
  network : string;
  verbose : bool;
  config : Config;
  metadata : Metadata;
  connection : string;
  keypairs : gmap string Keypair }.

Definition loadConfig (network : string) (verbose : bool) : M Config :=
  try_catch
    (config ← readConfig;
     when verbose
       (log [Str "✅ Configuration loaded successfully"];;
        log [Str "   Network: "; Str network];;
        log [Str "   Token: "; Str (token_name config); Str " (";
             Str (token_symbol config); Str ")"]);;
     mret config)
    (fun e => log_error [Str "❌ Failed to load configuration:"; Str " "; Str e];;
              exit 1).

Definition loadMetadata (verbose : bool) : M Metadata :=
  try_catch
    (metadata ← readMetadata;
     when verbose
       (log [Str "✅ Metadata loaded successfully"];;
        log [Str "   Name: "; Str (md_name metadata)];;
        log [Str "   Symbol: "; Str (md_symbol metadata)];;
        log [Str "   Description: ";
             Str (String.substring 0 50 (md_description metadata)); Str "..."]);;
     mret metadata)
    (fun e => log_error [Str "❌ Failed to load metadata:"; Str " "; Str e];;
              exit 1).

Definition loadKeypairs (verbose : bool) : M (gmap string Keypair) :=
  try_catch
    (mintAuthority ← load_keyfile (KEYPAIR_DIR +:+ "/mint-authority.json");
     let keypairs : gmap string Keypair :=
       match mintAuthority with
       | Some kp => <["mintAuthority" := kp]> ∅
       | None => ∅
       end in
     metadataAuthority ← load_keyfile (KEYPAIR_DIR +:+ "/metadata-authority.json");
     let keypairs :=
       match metadataAuthority with
       | Some kp => <["metadataAuthority" := kp]> keypairs
       | None => keypairs
       end in
     when verbose
       (log [Str "✅ Keypairs loaded successfully"];;
        log_keypairs ["mintAuthority"; "metadataAuthority"] keypairs);;
     mret keypairs)
    (fun e => log_error [Str "❌ Failed to load keypairs:"; Str " "; Str e];;
              exit 1).

Definition new (network : option string) (verbose : bool) : M MetadataDeployer :=
  let network := default "devnet" network in
  config ← loadConfig network verbose;
  metadata ← loadMetadata verbose;
  connection ← createConnection network verbose config;
  keypairs ← loadKeypairs verbose;
  mret {| network := network; verbose := verbose; config := config;
          metadata := metadata; connection := connection; keypairs := keypairs |}.

Definition checkNetworkHealth (this : MetadataDeployer) : M bool :=
  try_catch
    (version ← do_call getVersion;
     slot ← do_call getSlot;
     when (verbose this)
       (log [Str "✅ Network health check passed"];;
        log [Str "   Solana Version: "; Str version];;
        log [Str "   Current Slot: "; Num slot]);;
     mret true)
    (fun e => log_error [Str "❌ Network health check failed:"; Str " "; Str e];;
              mret false).

Definition metadataUri (this : MetadataDeployer) : string :=
  md_social_website (metadata this) +:+ "/metadata/token-metadata.json".

(** [k?.publicKey.toString() || 'Not loaded']. *)
Definition loaded (k : option Keypair) : string :=
  match k with
  | Some kp => if String.eqb (publicKey kp) EmptyString then "Not loaded" else publicKey kp
  | None => "Not loaded"
  end.

Definition showDeploymentPlan (this : MetadataDeployer) : M unit :=
  log [Str "📋 Deployment Plan:"];;
  log [Str "   Network: "; Str (network this)];;
  log [Str "   Token Name: "; Str (md_name (metadata this))];;
  log [Str "   Token Symbol: "; Str (md_symbol (metadata this))];;
  log [Str "   Mint Authority: "; Str (loaded (keypairs this !! "mintAuthority"))];;
  log [Str "   Metadata Authority: ";
       Str (loaded (keypairs this !! "metadataAuthority"))];;
  log [Str "   Metadata URI: "; Str (md_social_website (metadata this));
       Str "/metadata/token-metadata.json"];;
  log [Str "   Collection: "; Str (md_collection_name (metadata this))].

Definition saveDeploymentInfo (this : MetadataDeployer) (metadataAccount : string)
  : M unit :=
  timestamp ← Date_now;
  mint ← publicKey_of (keypairs this !! "mintAuthority");
  updateAuthority ← publicKey_of (keypairs this !! "metadataAuthority");
  let deploymentInfo :=
    MetadataRecord timestamp (network this) metadataAccount mint updateAuthority
      (metadataUri this) in
  now ← Date_now;
  dirname ← __dirname;
  let infoPath := record_path dirname "metadata" (network this) now in
  write_record "📄 Deployment info saved to: " infoPath deploymentInfo.

Definition deployMetadata (this : MetadataDeployer) (dryRun : bool) : M unit :=
  log [Str nl; Str "🚀 Starting GlowMin metadata deployment..."; Str nl];;
  isHealthy ← checkNetworkHealth this;
  (if negb isHealthy then
     log_error [Str "❌ Network health check failed. Aborting deployment."];;
     exit 1
   else mret tt);;
  if dryRun then
    log [Str "🔍 DRY RUN MODE - No actual deployment will occur"; Str nl];;
    showDeploymentPlan this
  else
    try_catch
      (log [Str "📝 Creating metadata account..."];;
       mint ← publicKey_of (keypairs this !! "mintAuthority");
       metadataAccount ←
         do_call (createMetadataAccountV3
                    (publicKey <$> keypairs this !! "metadataAuthority") mint
                    (md_name (metadata this)) (md_symbol (metadata this))
                    (metadataUri this));
       log [Str "✅ Metadata account created successfully!"];;
       log [Str "   Metadata Account: "; Str metadataAccount];;
       log [Str "   Mint: "; Str mint];;
       updateAuthority ← publicKey_of (keypairs this !! "metadataAuthority");
       log [Str "   Update Authority: "; Str updateAuthority];;
       saveDeploymentInfo this metadataAccount;;
       log [Str nl; Str "🎉 GlowMin metadata deployment completed successfully!"];;
       log [Str nl; Str "Next steps:"];;
       log [Str "1. Verify metadata on Solana Explorer"];;
       log [Str "2. Update deployment-config.json with metadata account address"];;
       log [Str "3. Proceed with token minting if not already done"])
      (fun e =>
         log_error [Str "❌ Metadata deployment failed:"; Str " "; Str e];;
         when (verbose this) (log_error [Str "Full error details:"; Str " "; Obj e]);;
         exit 1).

Record Options := {
  opt_network : option string;
  opt_dryRun : bool;
  opt_verbose : bool }.

Definition usage : string :=
  "
Usage: node deploy-metadata.js [options]

Options:
  --network <network>    Target network (devnet, testnet, mainnet-beta)
  --dry-run             Show what would be deployed without executing
  --verbose             Enable verbose logging
  --help                Show this help message

Examples:
  node deploy-metadata.js --network devnet
  node deploy-metadata.js --network mainnet-beta --verbose
  node deploy-metadata.js --dry-run
        ".

Fixpoint parse_loop (options : Options) (args : list string) : M Options :=
  match args with
  | [] => mret options
  | arg :: rest =>
      if String.eqb arg "--network" then
        let options value :=
          {| opt_network := value; opt_dryRun := opt_dryRun options;
             opt_verbose := opt_verbose options |} in
        match rest with
        | [] => mret (options None)
        | value :: rest => parse_loop (options (Some value)) rest
        end
      else if String.eqb arg "--dry-run" then
        parse_loop {| opt_network := opt_network options; opt_dryRun := true;
                      opt_verbose := opt_verbose options |} rest
      else if String.eqb arg "--verbose" then
        parse_loop {| opt_network := opt_network options;
                      opt_dryRun := opt_dryRun options; opt_verbose := true |} rest
      else if String.eqb arg "--help" then
        log [Str usage];; exit 0
      else
        parse_loop options rest
  end.

Definition parseArgs (args : list string) : M Options :=
  parse_loop {| opt_network := Some "devnet"; opt_dryRun := false;
                opt_verbose := false |} args.

Definition main (args : list string) : M unit :=
  options ← parseArgs args;
  log [Str "🌟 GlowMin Metadata Deployment Script"];;
  log [Str "====================================="; Str nl];;
  deployer ← new (opt_network options) (opt_verbose options);
  deployMetadata deployer (opt_dryRun options).

(** [node deploy-metadata.js args]. *)
Definition script (args : list string) : Env -> World -> Z * World :=
  run_script (main args).

End DeployMetadata.

(** ** deploy-all.sh *)

Module DeployAll.

(** The variables the argument loop sets. *)
Record Settings := {
  NETWORK : string;
  VERBOSE : bool;
  DRY_RUN : bool;
  SOL_AMOUNT : string }.

Definition defaults : Settings :=
  {| NETWORK := "devnet"; VERBOSE := false; DRY_RUN := false;
     SOL_AMOUNT := EmptyString |}.

(** What the loop prints before it ends the script. *)
Inductive printed :=
| Help
| Unknown_option (arg : string).

Inductive parsed :=
| Go (s : Settings)
| Stop (status : Z) (out : list printed).

(** [while [[ $# -gt 0 ]]; do case $1 in ... esac; done] over the
    positional parameters.  With one parameter left, [shift 2] fails and
    shifts nothing; under [set -e] the script ends there with the status
    1 of [shift]. *)
Fixpoint parse_arguments (s : Settings) (args : list string) : parsed :=
  match args with
  | [] => Go s
  | arg :: rest =>
      if String.eqb arg "--network" then
        match rest with
        | [] => Stop 1 []
        | value :: rest =>
            parse_arguments {| NETWORK := value; VERBOSE := VERBOSE s;
                               DRY_RUN := DRY_RUN s; SOL_AMOUNT := SOL_AMOUNT s |} rest
        end
      else if String.eqb arg "--sol-amount" then
        match rest with
        | [] => Stop 1 []
        | value :: rest =>
            parse_arguments {| NETWORK := NETWORK s; VERBOSE := VERBOSE s;
                               DRY_RUN := DRY_RUN s; SOL_AMOUNT := value |} rest
        end
      else if String.eqb arg "--dry-run" then
        parse_arguments {| NETWORK := NETWORK s; VERBOSE := VERBOSE s;
                           DRY_RUN := true; SOL_AMOUNT := SOL_AMOUNT s |} rest
      else if String.eqb arg "--verbose" then
        parse_arguments {| NETWORK := NETWORK s; VERBOSE := true;
                           DRY_RUN := DRY_RUN s; SOL_AMOUNT := SOL_AMOUNT s |} rest
      else if String.eqb arg "--help" then Stop 0 [Help]
      else Stop 1 [Unknown_option arg; Help]
  end.

(** The words of an unquoted [$flag] that is empty or one word. *)
Definition flag (set : bool) (word : string) : list string :=
  if set then [word] else [].

(** The arguments of [node deploy-metadata.js] in [deploy_metadata], and
    of [node mint-token.js] in [mint_tokens]:
    [--network "$NETWORK" $dry_run_flag $verbose_flag]. *)
Definition node_arguments (s : Settings) : list string :=
  "--network" :: NETWORK s
    :: (flag (DRY_RUN s) "--dry-run" ++ flag (VERBOSE s) "--verbose")%list.

End DeployAll.

(** ** Invariant of the rounding shift *)

(** Invariant of the right shift: after [n] steps from [m], the record
    holds the quotient, and its two flags locate the remainder with
    respect to half of [2 ^ n]. *)
Definition shr_inv (m n : Z) (mrs : shr_record) : Prop :=
  exists rem,
    m = shr_m mrs * 2 ^ n + rem /\ 0 <= rem < 2 ^ n /\ 0 <= shr_m mrs /\
    shr_r mrs = (2 ^ n <=? 2 * rem) /\
    shr_s mrs = negb ((rem =? 0) || (2 * rem =? 2 ^ n)).

(** ** Observations on a run *)

Definition calls_of (events : list event) : list call :=
  omap (fun e => match e with Call c => Some c | _ => None end) events.

Definition errors_of (events : list event) : list line :=
  omap (fun e => match e with LogError l => Some l | _ => None end) events.

(** The amounts of the [mintTo] instructions submitted, in order. *)
Definition minted (events : list event) : list Z :=
  omap (fun c => match c with mintTo _ _ _ _ amount => Some amount | _ => None end)
       (calls_of events).

(** Whether a console line mentions [name] in one of its texts. *)
Definition mentions (name : string) (l : line) : bool :=
  existsb (fun f => match f with
                    | Str s | Obj s => JS.includes s name
                    | _ => false
                    end) l.

(** The three steps of pool creation, recognised by the line each prints
    when it starts and by the line its [catch] prints. *)
Inductive pool_step := CreatePool | AddLiquidity | LockLiquidity.

Definition pool_step_started (e : event) : option pool_step :=
  match e with
  | Log [Str s] =>
      if String.eqb s "🏊 Creating liquidity pool..." then Some CreatePool
      else if String.eqb s "💧 Adding initial liquidity..." then Some AddLiquidity
      else if String.eqb s "🔒 Locking liquidity..." then Some LockLiquidity
      else None
  | _ => None
  end.

Definition pool_step_failed (e : event) : option pool_step :=
  match e with
  | LogError (Str s :: _) =>
      if String.eqb s "❌ Failed to create pool:" then Some CreatePool
      else if String.eqb s "❌ Failed to add initial liquidity:" then Some AddLiquidity
      else if String.eqb s "❌ Failed to lock liquidity:" then Some LockLiquidity
      else None
  | _ => None
  end.

(** The steps started are [create], [add], [lock] in that order up to
    some point, and a failed step is the last one started and ends the
    process with status 1. *)
Definition stop_on_first_error (code : Z) (events : list event) : bool :=
  let started := omap pool_step_started events in
  let failed := omap pool_step_failed events in
  match started, failed with
  | [], []
  | [CreatePool], []
  | [CreatePool; AddLiquidity], []
  | [CreatePool; AddLiquidity; LockLiquidity], [] => true
  | [CreatePool], [CreatePool]
  | [CreatePool; AddLiquidity], [AddLiquidity]
  | [CreatePool; AddLiquidity; LockLiquidity], [LockLiquidity] => code =? 1
  | _, _ => false
  end.

(** The key pair a file of the directory yields, if any. *)
Definition loaded_key (k : keyfile) : option Keypair :=
  match k with
  | Valid kp => Some kp
  | _ => None
  end.

Definition readable (k : keyfile) : Prop :=
  match k with
  | Malformed _ => False
  | _ => True
  end.

(** A world in which nothing has been printed or called yet. *)
Definition fresh_world (fs : gmap string record_data) (dir : string -> bool) (tk : nat)
  : World :=
  {| trace := []; files := fs; deployments_dir := dir; ticks := tk |}.

(** Whether a text is free of the character [-]. *)
Fixpoint dashless (s : string) : bool :=
  match s with
  | EmptyString => true
  | String c r => negb (Ascii.eqb c "-") && dashless r
  end.

(** Whether a text is free of the separator [/], as the names of the
    networks of the configuration are. *)
Fixpoint slashless (s : string) : bool :=
  match s with
  | EmptyString => true
  | String c r => negb (Ascii.eqb c "/") && slashless r
  end.

(** A file name: a single segment, and one that [normalize] keeps. *)
Definition file_name (f : string) : Prop :=
  slashless f = true /\ f <> EmptyString /\ f <> "." /\ f <> "..".

(** The directory of the records of the scripts installed in [dirname]. *)
Definition deployments_directory (dirname : string) : string :=
  JS.path_join dirname DEPLOYMENTS_DIR.

(** The flags each [parseArgs] has a [case] for. *)
Definition mint_token_flags : list string :=
  ["--network"; "--amount"; "--dry-run"; "--verbose"; "--help"].

Definition create_liquidity_flags : list string :=
  ["--network"; "--sol-amount"; "--dry-run"; "--verbose"; "--help"].

Definition deploy_metadata_flags : list string :=
  ["--network"; "--dry-run"; "--verbose"; "--help"].

(** The flags of each script that read the argument after them. *)
Definition mint_token_value_flags : list string := ["--network"; "--amount"].

Definition create_liquidity_value_flags : list string := ["--network"; "--sol-amount"].

Definition deploy_metadata_value_flags : list string := ["--network"].

(** Whether the argument after [read] is read at a flag position: it is
    not taken as the value of a flag of [values] that ends [read];
    [pending] tells whether the first of [read] is such a value. *)
Fixpoint flag_position (values : list string) (pending : bool) (read : list string)
  : bool :=
  match read with
  | [] => negb pending
  | arg :: rest =>
      if pending then flag_position values false rest
      else flag_position values (existsb (String.eqb arg) values) rest
  end.

(** [floor(T * percent / 100)] over the integers. *)
Definition exact_share (T percent : Z) : Z := T * percent / 100.

Definition sum (l : list Z) : Z := foldr Z.add 0 l.

(** An entry of [results] is settled: it carries a token account and a
    signature and no error, or an error and nothing else. *)
Definition settled (r : DistributionResult) : Prop :=
  (error r = None /\ is_Some (tokenAccount r) /\ is_Some (signature r))
  \/ (is_Some (error r) /\ tokenAccount r = None /\ signature r = None).

(** What a step leaves untouched: the files, the directory, the clock. *)
Definition same_store (w w' : World) : Prop :=
  files w' = files w /\ deployments_dir w' = deployments_dir w /\ ticks w' = ticks w.

(** ** Sample environments *)

Module Sample.

Definition config : Config := {|
  token_name := "GlowMin";
  token_symbol := "GLOWMIN";
  token_decimals := JS.of_Z 9;
  token_total_supply := JS.of_Z 100000000;
  token_mint_authority_public_key := "MintAuthority11111";
  cfg_network := <["devnet" := "https://api.devnet.solana.com"]> ∅;
  raydium_program_id := "RaydiumProgram11111";
  raydium_sol_amount := JS.of_Z 1000000000;
  raydium_glowmin_amount := 20;
  fees_transaction_fee := JS.of_Z 5000;
  liquidity_lock_period := JS.of_Z 63072000 |}.

Definition with_supply (T : Z) : Config := {|
  token_name := token_name config;
  token_symbol := token_symbol config;
  token_decimals := token_decimals config;
  token_total_supply := JS.of_Z T;
  token_mint_authority_public_key := token_mint_authority_public_key config;
  cfg_network := cfg_network config;
  raydium_program_id := raydium_program_id config;
  raydium_sol_amount := raydium_sol_amount config;
  raydium_glowmin_amount := raydium_glowmin_amount config;
  fees_transaction_fee := fees_transaction_fee config;
  liquidity_lock_period := liquidity_lock_period config |}.

Definition metadata : Metadata := {|
  md_name := "GlowMin";
  md_symbol := "GLOWMIN";
  md_description := "GlowMin is a vibrant Solana-based meme token";
  md_social_website := "https://glowmin.alfanestlabs.xyz";
  md_creators := "creators";
  md_collection_name := "GlowMin Collection" |}.

(** A key pair directory holding every file the three scripts look for. *)
Definition keys (path : string) : keyfile :=
  if String.eqb path "../keypairs/mint-authority.json"
  then Valid {| publicKey := "MintAuthority11111" |}
  else if String.eqb path "../keypairs/freeze-authority.json"
  then Valid {| publicKey := "FreezeAuthority1111" |}
  else if String.eqb path "../keypairs/metadata-authority.json"
  then Valid {| publicKey := "MetadataAuthority11" |}
  else if String.eqb path "../keypairs/main-keypair.json"
  then Valid {| publicKey := "MainKeypair11111111" |}
  else if String.eqb path "../keypairs/liquidity-authority.json"
  then Valid {| publicKey := "LiquidityAuthority1" |}
  else Absent.

(** The same directory without mint-authority.json. *)
Definition keys_without_mint_authority (path : string) : keyfile :=
  if String.eqb path "../keypairs/mint-authority.json" then Absent else keys path.

(** The same directory without metadata-authority.json. *)
Definition keys_without_metadata_authority (path : string) : keyfile :=
  if String.eqb path "../keypairs/metadata-authority.json" then Absent else keys path.

(** A network on which every call succeeds; the main wallet holds
    5 SOL and a token balance of ["50"]. *)
Definition rpc (h : list event) (c : call) : result (resp c) :=
  match c with
  | Connection_new _ => Ok tt
  | PublicKey_new text => Ok text
  | Transaction_new => Ok tt
  | createMint _ _ _ _ => Ok "Mint1111111111111"
  | getOrCreateAssociatedTokenAccount _ _ _ => Ok "TokenAccount111111"
  | mintTo _ _ _ _ _ => Ok "Signature111111111"
  | setAuthority _ _ _ => Ok tt
  | createMetadataAccountV3 _ _ _ _ _ => Ok "MetadataAccount1111"
  | getVersion => Ok "1.18.0"
  | getSlot => Ok (JS.of_Z 250000000)
  | getParsedAccountInfo _ => Ok true
  | getBalance _ => Ok (JS.of_Z 5000000000)
  | getAssociatedTokenAddress _ _ => Ok "AssociatedAccount11"
  | getTokenAccountBalance _ => Ok "50"
  | mkdirSync _ => Ok tt
  | writeFileSync _ _ => Ok tt
  end.

(** The same network, on which minting [amount] units fails. *)
Definition rpc_failing_mint (amount : Z) (h : list event) (c : call)
  : result (resp c) :=
  match c with
  | mintTo _ _ _ _ a => if a =? amount then Err "Transaction simulation failed"
                        else rpc h c
  | c => rpc h c
  end.

(** The same network, on which building the liquidity transaction
    fails. *)
Definition rpc_failing_liquidity (h : list event) (c : call) : result (resp c) :=
  match c with
  | Transaction_new => Err "Transaction could not be built"
  | c => rpc h c
  end.

(** The same network, on which the main wallet holds [amount] tokens. *)
Definition rpc_token_balance (amount : string) (h : list event) (c : call)
  : result (resp c) :=
  match c with
  | getTokenAccountBalance _ => Ok amount
  | c => rpc h c
  end.

Definition clock (n : nat) : Z := 1700000000000 + Z.of_nat n.

(** Where the scripts are installed. *)
Definition dirname : string := "/opt/glowmin/cli-scripts".

Definition env : Env := {|
  env_config := Ok config;
  env_metadata := Ok metadata;
  env_keyfile := keys;
  env_rpc := rpc;
  env_clock := clock;
  env_dirname := dirname |}.

Definition env_with_rpc (rpc : list event -> forall c : call, result (resp c)) : Env := {|
  env_config := Ok config;
  env_metadata := Ok metadata;
  env_keyfile := keys;
  env_rpc := rpc;
  env_clock := clock;
  env_dirname := dirname |}.

Definition env_with_supply (T : Z) : Env := {|
  env_config := Ok (with_supply T);
  env_metadata := Ok metadata;
  env_keyfile := keys;
  env_rpc := rpc;
  env_clock := clock;
  env_dirname := dirname |}.

Definition env_without_mint_authority : Env := {|
  env_config := Ok config;
  env_metadata := Ok metadata;
  env_keyfile := keys_without_mint_authority;
  env_rpc := rpc;
  env_clock := clock;
  env_dirname := dirname |}.

Definition env_without_metadata_authority : Env := {|
  env_config := Ok config;
  env_metadata := Ok metadata;
  env_keyfile := keys_without_metadata_authority;
  env_rpc := rpc;
  env_clock := clock;
  env_dirname := dirname |}.


(** A minter as [new TokenMinter('devnet')] builds it in [env], once
    its mint exists. *)
Definition minter (T : Z) : MintToken.TokenMinter := {|
  MintToken.network := "devnet";
  MintToken.verbose := false;
  MintToken.config := with_supply T;
  MintToken.connection := "https://api.devnet.solana.com";
  MintToken.keypairs :=
    <["freezeAuthority" := {| publicKey := "FreezeAuthority1111" |}]>
      (<["mintAuthority" := {| publicKey := "MintAuthority11111" |}]> ∅);
  MintToken.mintAddress := Some "Mint1111111111111" |}.

(** The same minter when mint-authority.json was missing at start-up. *)
Definition minter_without_mint_authority : MintToken.TokenMinter := {|
  MintToken.network := "devnet";
  MintToken.verbose := false;
  MintToken.config := config;
  MintToken.connection := "https://api.devnet.solana.com";
  MintToken.keypairs :=
    <["freezeAuthority" := {| publicKey := "FreezeAuthority1111" |}]> ∅;
  MintToken.mintAddress := None |}.

(** A deployer as [new MetadataDeployer('devnet')] builds it in [env]. *)
Definition deployer : DeployMetadata.MetadataDeployer := {|
  DeployMetadata.network := "devnet";
  DeployMetadata.verbose := false;
  DeployMetadata.config := config;
  DeployMetadata.metadata := metadata;
  DeployMetadata.connection := "https://api.devnet.solana.com";
  DeployMetadata.keypairs :=
    <["metadataAuthority" := {| publicKey := "MetadataAuthority11" |}]>
      (<["mintAuthority" := {| publicKey := "MintAuthority11111" |}]> ∅) |}.

Definition deployer_without_mint_authority : DeployMetadata.MetadataDeployer := {|
  DeployMetadata.network := "devnet";
  DeployMetadata.verbose := false;
  DeployMetadata.config := config;
  DeployMetadata.metadata := metadata;
  DeployMetadata.connection := "https://api.devnet.solana.com";
  DeployMetadata.keypairs :=
    <["metadataAuthority" := {| publicKey := "MetadataAuthority11" |}]> ∅ |}.

(** The same minter when freeze-authority.json was missing at start-up. *)
Definition minter_without_freeze_authority : MintToken.TokenMinter := {|
  MintToken.network := "devnet";
  MintToken.verbose := false;
  MintToken.config := config;
  MintToken.connection := "https://api.devnet.solana.com";
  MintToken.keypairs :=
    <["mintAuthority" := {| publicKey := "MintAuthority11111" |}]> ∅;
  MintToken.mintAddress := None |}.

Definition deployer_without_metadata_authority : DeployMetadata.MetadataDeployer := {|
  DeployMetadata.network := "devnet";
  DeployMetadata.verbose := false;
  DeployMetadata.config := config;
  DeployMetadata.metadata := metadata;
  DeployMetadata.connection := "https://api.devnet.solana.com";
  DeployMetadata.keypairs :=
    <["mintAuthority" := {| publicKey := "MintAuthority11111" |}]> ∅ |}.

End Sample.

(** ** Judgements on a script *)

(** Events that change nothing outside the process: console lines, pauses
    and calls that neither change the chain nor write to disk. *)
Definition read_only (e : event) : bool :=
  match e with
  | Call c => negb (network_mutation c) && negb (file_write c)
  | _ => true
  end.

Definition is_write (e : event) : bool :=
  match e with
  | Call c => file_write c
  | _ => false
  end.

(** [confined P m]: in every environment and from every world, [m] only
    appends events that satisfy [P], and it leaves the files and the
    deployments directory as they are unless it appended a file write. *)
Definition confined {A} (P : event -> bool) (m : M A) : Prop :=
  forall env w,
  exists events,
    trace (m env w).2 = (trace w ++ events)%list
    /\ forallb P events = true
    /\ (existsb is_write events = false ->
        files (m env w).2 = files w
        /\ deployments_dir (m env w).2 = deployments_dir w).

(** [returns Q m]: a value that [m] returns satisfies [Q]. *)
Definition returns {A} (Q : A -> Prop) (m : M A) : Prop :=
  forall env w a w', m env w = (Ret a, w') -> Q a.

(** What a dry run of the mint script may produce: the events of
    [read_only], and the creation of the mint. *)
Definition mint_creation (c : call) : bool :=
  match c with
  | createMint _ _ _ _ => true
  | _ => false
  end.

Definition dry_mint_event (e : event) : bool :=
  match e with
  | Call c => negb (file_write c) && (negb (network_mutation c) || mint_creation c)
  | _ => true
  end.

(** [mints l m]: in every environment and from every world, the amounts
    of the [mintTo] instructions that [m] submits are, in order, some of
    the amounts of [l]. *)
Definition mints {A} (l : list Z) (m : M A) : Prop :=
  forall env w,
  exists events,
    trace (m env w).2 = (trace w ++ events)%list
    /\ minted events `sublist_of` l.

Definition no_mint (e : event) : bool :=
  match e with
  | Call (mintTo _ _ _ _ _) => false
  | _ => true
  end.

(** Events that neither revoke the mint authority nor write a file. *)
Definition keeps_authority (e : event) : bool :=
  match e with
  | Call (setAuthority _ _ _) => false
  | Call c => negb (file_write c)
  | _ => true
  end.

(** The amounts of the plan of [this], none when the plan throws. *)
Definition plan_amounts (this : MintToken.TokenMinter) : list Z :=
  match MintToken.calculateDistributions this with
  | Ok ds => map d_amount ds
  | Err _ => []
  end.

Definition is_revocation (c : call) : bool :=
  match c with
  | setAuthority _ _ _ => true
  | _ => false
  end.

(** The [setAuthority] instructions submitted, in order. *)
Definition revocations (events : list event) : list call :=
  filter (fun c => is_revocation c = true) (calls_of events).

Definition no_revocation (e : event) : bool :=
  match e with
  | Call c => negb (is_revocation c)
  | _ => true
  end.

(** ** Options and settings *)

(** The world after one more event. *)
Definition after (w : World) (e : event) : World :=
  {| trace := (trace w ++ [e])%list; files := files w;
     deployments_dir := deployments_dir w; ticks := ticks w |}.

(** The flags that read the argument after them. *)
Definition value_flags : list string := ["--network"; "--amount"; "--sol-amount"].

(** The SOL amount the steps use for an option: a falsy Number counts as
    no option. *)
Definition effective (solAmount : option JS.number) : option JS.number :=
  match solAmount with
  | Some x => if JS.truthy x then Some x else None
  | None => None
  end.



Definition finite (x : JS.number) : bool :=
  match x with
  | S754_zero _ | S754_finite _ _ _ => true
  | _ => false
  end.

(** The settings of deploy-all.sh and the options of create-liquidity.js
    name the same choice. *)
Definition agree (s : DeployAll.Settings) (o : CreateLiquidity.Options) : Prop :=
  CreateLiquidity.opt_network o = Some (DeployAll.NETWORK s)
  /\ effective (CreateLiquidity.opt_solAmount o)
     = effective (Some (JS.parseInt (DeployAll.SOL_AMOUNT s)))
  /\ CreateLiquidity.opt_dryRun o = DeployAll.DRY_RUN s
  /\ CreateLiquidity.opt_verbose o = DeployAll.VERBOSE s.

(** ** Decimal numerals *)

Definition is_digit (c : ascii) : bool :=
  let n := Z.of_N (N_of_ascii c) in (48 <=? n) && (n <=? 57).

(** Whether a text is made of decimal digits only. *)
Fixpoint digits_only (s : string) : bool :=
  match s with
  | EmptyString => true
  | String c r => is_digit c && digits_only r
  end.

(** Whether a text is made of ASCII characters other than white space. *)
Fixpoint spaceless (s : string) : bool :=
  match s with
  | EmptyString => true
  | String c r =>
      negb (JS.is_whitespace c) && (N_of_ascii c <? 128)%N && spaceless r
  end.

(** ** More of the sample environment *)

(** A creator as [new LiquidityCreator('devnet')] builds it in the sample
    environment. *)
Definition creator : CreateLiquidity.LiquidityCreator := {|
  CreateLiquidity.network := "devnet";
  CreateLiquidity.verbose := false;
  CreateLiquidity.config := Sample.config;
  CreateLiquidity.connection := "https://api.devnet.solana.com";
  CreateLiquidity.keypairs :=
    <["liquidityAuthority" := {| publicKey := "LiquidityAuthority1" |}]>
      (<["main" := {| publicKey := "MainKeypair11111111" |}]> ∅);
  CreateLiquidity.mintAddress := None;
  CreateLiquidity.poolAddress := None |}.

(** The minter of the sample environment when the configuration gives
    [supply] as the total supply. *)
Definition minter_of_supply (supply : JS.number) : MintToken.TokenMinter := {|
  MintToken.network := "devnet";
  MintToken.verbose := false;
  MintToken.config := {|
    token_name := token_name Sample.config;
    token_symbol := token_symbol Sample.config;
    token_decimals := token_decimals Sample.config;
    token_total_supply := supply;
    token_mint_authority_public_key := token_mint_authority_public_key Sample.config;
    cfg_network := cfg_network Sample.config;
    raydium_program_id := raydium_program_id Sample.config;
    raydium_sol_amount := raydium_sol_amount Sample.config;
    raydium_glowmin_amount := raydium_glowmin_amount Sample.config;
    fees_transaction_fee := fees_transaction_fee Sample.config;
    liquidity_lock_period := liquidity_lock_period Sample.config |};
  MintToken.connection := "https://api.devnet.solana.com";
  MintToken.keypairs := MintToken.keypairs (Sample.minter 0);
  MintToken.mintAddress := None |}.

(** The kinds of record the three scripts write. *)
Definition record_kinds : list string := ["minting"; "metadata"; "pool"].


(** * Verification *)

(** ** Rounding of binary64 products *)

Lemma digits2_pos_bounds (p : positive) :
  2 ^ (Zpos (digits2_pos p) - 1) <= Zpos p < 2 ^ Zpos (digits2_pos p).
Proof.
  induction p as [p IH|p IH|]; cbn [digits2_pos].
  - rewrite Pos2Z.inj_succ.
    replace (Z.succ (Z.pos (digits2_pos p)) - 1) with (Z.succ (Z.pos (digits2_pos p) - 1)) by lia.
    rewrite !Z.pow_succ_r by lia. lia.
  - rewrite Pos2Z.inj_succ.
    replace (Z.succ (Z.pos (digits2_pos p)) - 1) with (Z.succ (Z.pos (digits2_pos p) - 1)) by lia.
    rewrite !Z.pow_succ_r by lia. lia.
  - cbn. lia.
Qed.

Lemma digits2_pos_unique (p : positive) (d : Z) :
  2 ^ (d - 1) <= Zpos p < 2 ^ d -> Zpos (digits2_pos p) = d.
Proof.
  intros [Hlo Hhi].
  pose proof (digits2_pos_bounds p) as [Blo Bhi].
  assert (0 < d).
  { destruct (Z.ltb_spec 0 d); [done|]. 
    assert (2 ^ d <= 2 ^ 0) by (destruct (Z.ltb_spec d 0); [rewrite Z.pow_neg_r by lia; cbn; lia| apply Z.pow_le_mono_r; lia]).
    cbn in *. lia. }
  destruct (Z.lt_trichotomy (Zpos (digits2_pos p)) d) as [Hlt|[Heq|Hgt]]; [|done|].
  - assert (2 ^ Zpos (digits2_pos p) <= 2 ^ (d - 1)) by (apply Z.pow_le_mono_r; lia). lia.
  - assert (2 ^ d <= 2 ^ (Zpos (digits2_pos p) - 1)) by (apply Z.pow_le_mono_r; lia). lia.
Qed.

Lemma iter_pos_nat {A} (f : A -> A) (p : positive) (x : A) :
  SpecFloat.iter_pos f p x = Nat.iter (Pos.to_nat p) f x.
Proof.
  revert x. induction p as [p IH|p IH|]; intros x; cbn [SpecFloat.iter_pos].
  - rewrite !IH, Pos2Nat.inj_xI. 
    replace (2 * Pos.to_nat p)%nat with (Pos.to_nat p + Pos.to_nat p)%nat by lia.
    rewrite Nat.iter_succ_r, Nat.iter_add. done.
  - rewrite !IH, Pos2Nat.inj_xO.
    replace (2 * Pos.to_nat p)%nat with (Pos.to_nat p + Pos.to_nat p)%nat by lia.
    rewrite Nat.iter_add. done.
  - done.
Qed.

Lemma shr_inv_0 (m : Z) : 0 <= m -> shr_inv m 0 (Build_shr_record m false false).
Proof. intros Hm. exists 0. cbn. lia. Qed.

Lemma shr_inv_step (m n : Z) (mrs : shr_record) :
  0 <= n -> shr_inv m n mrs -> shr_inv m (n + 1) (shr_1 mrs).
Proof.
  intros Hn (rem & Hm & Hrem & Hq & Hr & Hs).
  destruct mrs as [q r s]; cbn [shr_m shr_r shr_s] in *.
  assert (Hp : 2 ^ (n + 1) = 2 * 2 ^ n) by (rewrite Z.pow_add_r by lia; lia).
  assert (0 < 2 ^ n) by (apply Z.pow_pos_nonneg; lia).
  assert (Hors : (r || s)%bool = negb (rem =? 0)).
  { subst r s. destruct (Z.eqb_spec rem 0), (Z.eqb_spec (2 * rem) (2 ^ n)), (Z.leb_spec (2 ^ n) (2 * rem)); cbn; try done; lia. }
  destruct q as [|[q|q|]|q]; try lia; cbn [shr_1 shr_m shr_r shr_s];
    [exists rem|exists (2 ^ n + rem)|exists rem|exists (2 ^ n + rem)];
    cbn [shr_m shr_r shr_s]; rewrite Hp, ?Hors;
    (repeat split; try lia);
    repeat match goal with
      | |- context [Z.eqb ?a ?b] => destruct (Z.eqb_spec a b)
      | |- context [Z.leb ?a ?b] => destruct (Z.leb_spec a b)
      end; cbn; try done; lia.
Qed.

Lemma shr_inv_iter (m : Z) (n : nat) :
  0 <= m -> shr_inv m (Z.of_nat n) (Nat.iter n shr_1 (Build_shr_record m false false)).
Proof.
  intros Hm. induction n as [|n IH].
  - by apply shr_inv_0.
  - rewrite Nat2Z.inj_succ, <- Z.add_1_r. cbn [Nat.iter nat_rect].
    apply shr_inv_step; [lia|done].
Qed.

Lemma shr_inv_shr (m e : Z) (k : positive) :
  0 <= m ->
  exists mrs, shr (Build_shr_record m false false) e (Zpos k) = (mrs, e + Zpos k)
              /\ shr_inv m (Zpos k) mrs.
Proof.
  intros Hm. eexists. split; [done|].
  rewrite iter_pos_nat. rewrite <- (positive_nat_Z k). by apply shr_inv_iter.
Qed.

(** Rounding the shifted record to nearest even lands within half a unit
    of the last place of the exact value. *)
Lemma round_nearest_even_near (m n : Z) (mrs : shr_record) :
  0 <= n -> shr_inv m n mrs ->
  let m1 := round_nearest_even (shr_m mrs) (loc_of_shr_record mrs) in
  2 * m1 * 2 ^ n - 2 ^ n <= 2 * m <= 2 * m1 * 2 ^ n + 2 ^ n
  /\ shr_m mrs <= m1 <= shr_m mrs + 1.
Proof.
  intros Hn (rem & Hm & Hrem & Hq & Hr & Hs) m1. subst m1.
  destruct mrs as [q r s]; cbn [shr_m shr_r shr_s] in *.
  assert (0 < 2 ^ n) by (apply Z.pow_pos_nonneg; lia).
  destruct r, s; cbn [loc_of_shr_record round_nearest_even];
    destruct (Z.leb_spec (2 ^ n) (2 * rem)); try done;
    destruct (Z.eqb_spec rem 0); destruct (Z.eqb_spec (2 * rem) (2 ^ n)); cbn in Hs; try done;
    try destruct (Z.even q); nia.
Qed.

Lemma fexp_normal (d : Z) : -1074 <= d - 53 -> fexp 53 1024 d = d - 53.
Proof. unfold fexp, emin. lia. Qed.

(** A mantissa of exactly 53 bits in the normal exponent range is kept. *)
Lemma binary_round_aux_keep (s : bool) (m : positive) (e : Z) :
  Zpos (digits2_pos m) = 53 -> -1074 <= e <= 971 ->
  binary_round_aux 53 1024 s (Zpos m) e loc_Exact = S754_finite s m e.
Proof.
  intros Hd He.
  assert (Hsh : shr_fexp 53 1024 (Zpos m) e loc_Exact
                = (Build_shr_record (Zpos m) false false, e)).
  { unfold shr_fexp. cbn [Zdigits2 shr_record_of_loc]. rewrite Hd, fexp_normal by lia.
    replace (53 + e - 53 - e) with 0 by lia. done. }
  unfold binary_round_aux. rewrite Hsh.
  cbn [shr_m loc_of_shr_record round_nearest_even]. rewrite Hsh. cbn [shr_m].
  destruct (Z.leb_spec e (1024 - 53)); [done|lia].
Qed.

(** A longer mantissa is shifted right and rounded to nearest even; the
    result is described by the rounded 53-bit quotient [m1]. *)
Lemma binary_round_aux_shift (s : bool) (m : positive) (e : Z) :
  let k := Zpos (digits2_pos m) - 53 in
  0 < k -> -1074 <= e + k <= 970 ->
  exists (m1 m2 : positive) (e2 : Z),
    binary_round_aux 53 1024 s (Zpos m) e loc_Exact = S754_finite s m2 e2
    /\ ((m2 = m1 /\ e2 = e + k /\ Zpos m1 < 2 ^ 53)
        \/ (Zpos m1 = 2 ^ 53 /\ Zpos m2 = 2 ^ 52 /\ e2 = e + k + 1))
    /\ 2 * Zpos m1 * 2 ^ k - 2 ^ k <= 2 * Zpos m <= 2 * Zpos m1 * 2 ^ k + 2 ^ k.
Proof.
  intros k Hk He.
  pose proof (digits2_pos_bounds m) as [Dlo Dhi].
  destruct k as [|kp|kp] eqn:Ek; try lia. 
  assert (Hd : Zpos (digits2_pos m) = Zpos kp + 53) by lia.
  destruct (shr_inv_shr (Zpos m) e kp ltac:(lia)) as (mrs & Hshr & Hinv).
  pose proof (round_nearest_even_near (Zpos m) (Zpos kp) mrs ltac:(lia) Hinv) as [Hnear Hq].
  cbv zeta in Hnear, Hq.
  assert (Hsh : shr_fexp 53 1024 (Zpos m) e loc_Exact = (mrs, e + Zpos kp)).
  { unfold shr_fexp. cbn [Zdigits2 shr_record_of_loc]. rewrite fexp_normal by lia.
    replace (Zpos (digits2_pos m) + e - 53 - e) with (Zpos kp) by lia. done. }
  unfold binary_round_aux. rewrite Hsh.
  set (m1 := round_nearest_even (shr_m mrs) (loc_of_shr_record mrs)) in *.
  destruct Hinv as (rem & Hm & Hrem & Hq0 & _ & _).
  assert (Hpk : 0 < 2 ^ Zpos kp) by (apply Z.pow_pos_nonneg; lia).
  assert (Hp1 : 2 ^ (Zpos kp + 53) = 2 ^ Zpos kp * 2 ^ 53) by (rewrite Z.pow_add_r; lia).
  assert (Hp2 : 2 ^ (Zpos kp + 53 - 1) = 2 ^ Zpos kp * 2 ^ 52).
  { replace (Zpos kp + 53 - 1) with (Zpos kp + 52) by lia. rewrite Z.pow_add_r; lia. }
  rewrite Hd, ?Hp1, ?Hp2 in Dlo, Dhi.
  assert (Hqr : 2 ^ 52 <= shr_m mrs < 2 ^ 53) by nia.
  assert (Hm1 : 2 ^ 52 <= m1 <= 2 ^ 53) by lia.
  destruct m1 as [|p1|p1] eqn:Em1; try lia.
  destruct (Z.eq_dec (Zpos p1) (2 ^ 53)) as [Heq|Hne].
  - (* the rounding carried into a 54th bit *)
    assert (p1 = 9007199254740992%positive) as -> by (cbn in Heq; lia).
    exists 9007199254740992%positive, 4503599627370496%positive, (e + Zpos kp + 1).
    split; [|split; [right; done|done]].
    unfold shr_fexp. cbn [Zdigits2 shr_record_of_loc]. 
    replace (Zpos (digits2_pos 9007199254740992)) with 54 by done.
    rewrite fexp_normal by lia.
    replace (54 + (e + Zpos kp) - 53 - (e + Zpos kp)) with 1 by lia.
    cbn [shr SpecFloat.iter_pos shr_1 shr_m].
    destruct (Z.leb_spec (e + Zpos kp + 1) (1024 - 53)); [done|lia].
  - exists p1, p1, (e + Zpos kp).
    split; [|split; [left; split; [done|split; [done|lia]]|done]].
    assert (Hd1 : Zpos (digits2_pos p1) = 53) by (apply digits2_pos_unique; lia).
    unfold shr_fexp. cbn [Zdigits2 shr_record_of_loc]. rewrite Hd1, fexp_normal by lia.
    replace (53 + (e + Zpos kp) - 53 - (e + Zpos kp)) with 0 by lia.
    cbn [shr shr_m].
    destruct (Z.leb_spec (e + Zpos kp) (1024 - 53)); [done|lia].
Qed.

Lemma Pos_iter_xO (p : positive) (j : positive) :
  Zpos (Pos.iter xO p j) = Zpos p * 2 ^ Zpos j.
Proof.
  induction j as [|j IHj] using Pos.peano_ind.
  - cbn. lia.
  - rewrite Pos.iter_succ, Pos2Z.inj_succ, Z.pow_succ_r by lia.
    rewrite Pos2Z.inj_xO, IHj. lia.
Qed.

(** Normalising an integer of at most 53 bits is exact. *)
Lemma binary_round_exact (s : bool) (p : positive) :
  Zpos p < 2 ^ 53 ->
  exists (p' : positive) (j : Z),
    binary_round 53 1024 s p 0 = S754_finite s p' (- j)
    /\ 0 <= j <= 52 /\ Zpos p' = Zpos p * 2 ^ j /\ Zpos (digits2_pos p') = 53.
Proof.
  intros Hp.
  pose proof (digits2_pos_bounds p) as [Dlo Dhi].
  assert (Hd : 1 <= Zpos (digits2_pos p) <= 53).
  { split; [lia|]. destruct (Z.leb_spec (Zpos (digits2_pos p)) 53); [done|].
    assert (2 ^ 53 <= 2 ^ (Zpos (digits2_pos p) - 1)) by (apply Z.pow_le_mono_r; lia). lia. }
  unfold binary_round. rewrite Z.add_0_r, fexp_normal by lia.
  unfold shl_align.
  destruct (Zpos (digits2_pos p) - 53 - 0) as [|jp|jp] eqn:Ej; try lia.
  - exists p, 0. rewrite binary_round_aux_keep by lia.
    split; [done|]. split; [lia|]. split; [lia|lia].
  - set (p' := Pos.iter xO p jp).
    assert (Hp' : Zpos p' = Zpos p * 2 ^ Zpos jp) by apply Pos_iter_xO.
    assert (Hd' : Zpos (digits2_pos p') = 53).
    { apply digits2_pos_unique. rewrite Hp'.
      assert (Hj : Zpos jp = 53 - Zpos (digits2_pos p)) by lia.
      assert (E1 : 2 ^ 53 = 2 ^ Zpos (digits2_pos p) * 2 ^ Zpos jp).
      { rewrite <- Z.pow_add_r by lia. f_equal. lia. }
      assert (E2 : 2 ^ (53 - 1) = 2 ^ (Zpos (digits2_pos p) - 1) * 2 ^ Zpos jp).
      { rewrite <- Z.pow_add_r by lia. f_equal. lia. }
      rewrite E1, E2.
      assert (0 < 2 ^ Zpos jp) by (apply Z.pow_pos_nonneg; lia).
      nia. }
    exists p', (Zpos jp).
    replace (Zpos (digits2_pos p) - 53) with (- Zpos jp) by lia.
    rewrite binary_round_aux_keep by lia.
    split; [done|]. split; [lia|]. done.
Qed.

Lemma of_Z_pos (T : Z) :
  0 < T < 2 ^ 53 ->
  exists (p' : positive) (j : Z),
    JS.of_Z T = S754_finite false p' (- j)
    /\ 0 <= j <= 52 /\ Zpos p' = T * 2 ^ j /\ Zpos (digits2_pos p') = 53.
Proof.
  intros HT. destruct T as [|p|p]; try lia.
  unfold JS.of_Z, binary_normalize. apply binary_round_exact. lia.
Qed.

Lemma BigInt_binary_round (s : bool) (p : positive) :
  Zpos p < 2 ^ 53 ->
  JS.BigInt (binary_round 53 1024 s p 0) = Some (cond_Zopp s (Zpos p)).
Proof.
  intros Hp.
  destruct (binary_round_exact s p Hp) as (p' & j & E & Hj & Hp' & _).
  rewrite E. unfold JS.BigInt.
  assert (0 < 2 ^ j) by (apply Z.pow_pos_nonneg; lia).
  destruct (Z.leb_spec 0 (- j)).
  - replace j with 0 in * by lia. do 2 f_equal. replace (- 0) with 0 by lia. lia.
  - rewrite Z.opp_involutive, Hp', Z.mod_mul, Z.eqb_refl, Z.div_mul by lia. done.
Qed.

Lemma BigInt_binary_normalize (z : Z) (sz : bool) :
  Z.abs z < 2 ^ 53 -> JS.BigInt (binary_normalize 53 1024 z 0 sz) = Some z.
Proof.
  intros Hz. destruct z as [|p|p]; [done| |]; unfold binary_normalize;
    rewrite BigInt_binary_round by lia; done.
Qed.

(** [BigInt(Math.floor(x))] is the mathematical floor of a finite [x]
    whose mantissa fits 53 bits. *)
Lemma BigInt_Math_floor (s : bool) (m : positive) (e : Z) :
  Zpos m < 2 ^ 53 ->
  JS.BigInt (JS.Math_floor (S754_finite s m e)) = Some (JS.floorZ (S754_finite s m e)).
Proof.
  intros Hm. unfold JS.Math_floor.
  destruct (Z.leb_spec 0 e) as [He|He].
  - unfold JS.BigInt, JS.floorZ. destruct (Z.leb_spec 0 e); [|lia].
    rewrite Z.shiftl_mul_pow2 by lia. destruct s; cbn [cond_Zopp]; f_equal; lia.
  - apply BigInt_binary_normalize.
    unfold JS.floorZ. rewrite Z.shiftl_div_pow2 by lia.
    assert (1 < 2 ^ (- e)) by (apply Z.pow_gt_1; lia).
    destruct s; cbn [cond_Zopp].
    + pose proof (Z.div_le_lower_bound (Z.neg m) (2 ^ (- e)) (- 2 ^ 53 + 1) ltac:(lia)).
      pose proof (Z.div_lt_upper_bound (Z.neg m) (2 ^ (- e)) 0 ltac:(lia)). nia.
    + pose proof (Z.div_pos (Zpos m) (2 ^ (- e)) ltac:(lia) ltac:(lia)).
      pose proof (Z.div_lt_upper_bound (Zpos m) (2 ^ (- e)) (2 ^ 53) ltac:(lia)). nia.
Qed.

(** The floor of a binary64 product [T * c], for an integer [T] and a
    constant [c = M * 2 ^ (- sc)], is [K] as soon as the exact product,
    widened by the rounding error of one multiplication, stays inside
    [[K, K + 1)]. *)
Lemma mul_floor (T : Z) (M : positive) (sc K : Z) :
  0 < T < 2 ^ 53 -> Zpos (digits2_pos M) = 53 -> 53 <= sc <= 1000 ->
  2 ^ 54 * K * 2 ^ sc < T * Zpos M * (2 ^ 54 + 1) ->
  T * Zpos M * (2 ^ 53 + 1) < 2 ^ 53 * (K + 1) * 2 ^ sc ->
  JS.BigInt (JS.Math_floor (JS.mul (JS.of_Z T) (S754_finite false M (- sc)))) = Some K.
Proof.
  intros HT HM Hsc HL HU.
  destruct (of_Z_pos T HT) as (p' & j & -> & Hj & Hp' & Hdp').
  unfold JS.mul, JS.prec, JS.emax, SFmul. cbn [xorb].
  set (m := (p' * M)%positive).
  assert (Em : Zpos m = T * 2 ^ j * Zpos M) by (subst m; rewrite Pos2Z.inj_mul; lia).
  pose proof (digits2_pos_bounds p') as Bp. rewrite Hdp' in Bp.
  pose proof (digits2_pos_bounds M) as BM. rewrite HM in BM.
  pose proof (digits2_pos_bounds m) as Bm.
  assert (Hm : 2 ^ 104 <= Zpos m < 2 ^ 106).
  { subst m. rewrite Pos2Z.inj_mul. change (53 - 1) with 52 in *.
    change (2 ^ 104) with (2 ^ 52 * 2 ^ 52). change (2 ^ 106) with (2 ^ 53 * 2 ^ 53). nia. }
  assert (Hd : Zpos (digits2_pos m) = 105 \/ Zpos (digits2_pos m) = 106).
  { destruct (Z.leb_spec (Zpos (digits2_pos m)) 104).
    - assert (2 ^ Zpos (digits2_pos m) <= 2 ^ 104) by (apply Z.pow_le_mono_r; lia). lia.
    - destruct (Z.leb_spec 107 (Zpos (digits2_pos m))); [|lia].
      assert (2 ^ 106 <= 2 ^ (Zpos (digits2_pos m) - 1)) by (apply Z.pow_le_mono_r; lia). lia. }
  set (k := Zpos (digits2_pos m) - 53) in *.
  destruct (binary_round_aux_shift false m (- j + - sc) ltac:(lia) ltac:(lia))
    as (m1 & m2 & e2 & E & Hcase & Hnear).
  fold k in Hnear, Hcase. rewrite E.
  assert (Hm2 : Zpos m2 < 2 ^ 53) by (destruct Hcase as [(-> & _ & ?)|(_ & -> & _)]; [done|lia]).
  rewrite BigInt_Math_floor by done. f_equal. unfold JS.floorZ. cbn [cond_Zopp].
  assert (Hsh : Z.shiftl (Zpos m2) e2 = Z.shiftl (Zpos m1) (- j + - sc + k)).
  { destruct Hcase as [(-> & -> & _)|(-> & -> & ->)]; [done|].
    rewrite (Z.add_comm _ 1), <- Z.shiftl_shiftl by lia. done. }
  rewrite Hsh, Z.shiftl_div_pow2 by lia.
  set (P := 2 ^ (- (- j + - sc + k))).
  assert (HP : 0 < P) by (apply Z.pow_pos_nonneg; lia).
  assert (HA : 0 < 2 ^ j) by (apply Z.pow_pos_nonneg; lia).
  assert (HAB : 2 ^ j * 2 ^ sc = P * 2 ^ k).
  { subst P. rewrite <- !Z.pow_add_r by lia. f_equal. lia. }
  assert (HL' : 2 ^ 54 * K * (P * 2 ^ k) < Zpos m * (2 ^ 54 + 1)).
  { rewrite <- HAB, Em. nia. }
  assert (HU' : Zpos m * (2 ^ 53 + 1) < 2 ^ 53 * (K + 1) * (P * 2 ^ k)).
  { rewrite <- HAB, Em. nia. }
  assert (Hk : 2 ^ k * 2 ^ 52 <= Zpos m < 2 ^ k * 2 ^ 53).
  { replace (Zpos (digits2_pos m)) with (k + 53) in Bm by lia.
    replace (k + 53 - 1) with (k + 52) in Bm by lia.
    rewrite !Z.pow_add_r in Bm by lia. lia. }
  assert (Hk2 : 2 ^ k = 2 ^ 52 \/ 2 ^ k = 2 ^ 53) by (destruct Hd; [left|right]; f_equal; lia).
  assert (HL2 : 2 ^ 54 * (K * P) * 2 ^ k < Zpos m * (2 ^ 54 + 1)).
  { replace (2 ^ 54 * (K * P) * 2 ^ k) with (2 ^ 54 * K * (P * 2 ^ k)) by ring. done. }
  assert (HU2 : Zpos m * (2 ^ 53 + 1) < 2 ^ 53 * ((K + 1) * P) * 2 ^ k).
  { replace (2 ^ 53 * ((K + 1) * P) * 2 ^ k) with (2 ^ 53 * (K + 1) * (P * 2 ^ k)) by ring. done. }
  assert (Hlo : K * P <= Zpos m1).
  { revert HL2. generalize (K * P). intros X HL2.
    destruct Hk2 as [Ek|Ek]; rewrite Ek in *; lia. }
  assert (Hhi : Zpos m1 < (K + 1) * P).
  { revert HU2. generalize ((K + 1) * P). intros Y HU2.
    destruct Hk2 as [Ek|Ek]; rewrite Ek in *; lia. }
  symmetry. apply Z.div_unique with (r := Zpos m1 - K * P); lia.
Qed.

(** ** The allocation plan *)

Lemma allocation_floor (T : Z) (M : positive) (sc K : Z) :
  0 < T < 2 ^ 53 -> Zpos (digits2_pos M) = 53 -> 53 <= sc <= 1000 ->
  2 ^ 54 * K * 2 ^ sc < T * Zpos M * (2 ^ 54 + 1) ->
  T * Zpos M * (2 ^ 53 + 1) < 2 ^ 53 * (K + 1) * 2 ^ sc ->
  MintToken.allocation (JS.of_Z T) (S754_finite false M (- sc)) = Ok K.
Proof.
  intros. unfold MintToken.allocation. cbv zeta.
  rewrite (mul_floor T M sc K) by done. done.
Qed.

(** Below [2 ^ 51] every allocation of the table is the exact share. *)
Lemma allocation_exact (T : Z) :
  0 <= T < 2 ^ 51 ->
  MintToken.allocation (JS.of_Z T) JS.lit_0_4 = Ok (exact_share T 40)
  /\ MintToken.allocation (JS.of_Z T) JS.lit_0_3 = Ok (exact_share T 30)
  /\ MintToken.allocation (JS.of_Z T) JS.lit_0_15 = Ok (exact_share T 15)
  /\ MintToken.allocation (JS.of_Z T) JS.lit_0_1 = Ok (exact_share T 10)
  /\ MintToken.allocation (JS.of_Z T) JS.lit_0_05 = Ok (exact_share T 5).
Proof.
  intros HT. destruct (Z.eq_dec T 0) as [->|Hne].
  { repeat split; vm_compute; reflexivity. }
  assert (Hdiv : forall p, exists q r, T * p / 100 = q /\ T * p = 100 * q + r /\ 0 <= r < 100).
  { intros p. exists (T * p / 100), ((T * p) mod 100).
    split; [reflexivity|]. split; [apply Z.div_mod; lia|apply Z.mod_pos_bound; lia]. }
  unfold exact_share.
  destruct (Hdiv 40) as (q1 & r1 & -> & ? & ?), (Hdiv 30) as (q2 & r2 & -> & ? & ?),
    (Hdiv 15) as (q3 & r3 & -> & ? & ?), (Hdiv 10) as (q4 & r4 & -> & ? & ?),
    (Hdiv 5) as (q5 & r5 & -> & ? & ?).
  repeat split.
  - apply (allocation_floor T 7205759403792794 54); [lia|reflexivity|lia|lia|lia].
  - apply (allocation_floor T 5404319552844595 54); [lia|reflexivity|lia|lia|lia].
  - apply (allocation_floor T 5404319552844595 55); [lia|reflexivity|lia|lia|lia].
  - apply (allocation_floor T 7205759403792794 56); [lia|reflexivity|lia|lia|lia].
  - apply (allocation_floor T 7205759403792794 57); [lia|reflexivity|lia|lia|lia].
Qed.

Lemma calculateDistributions_exact (this : MintToken.TokenMinter) (kp : Keypair) (T : Z) :
  0 <= T < 2 ^ 51 ->
  token_total_supply (MintToken.config this) = JS.of_Z T ->
  MintToken.keypairs this !! "mintAuthority" = Some kp ->
  MintToken.calculateDistributions this
  = Ok [ {| d_name := "Liquidity Pool"; d_amount := exact_share T 40;
            d_recipient := publicKey kp;
            d_purpose := "Initial liquidity provision" |};
         {| d_name := "Community"; d_amount := exact_share T 30;
            d_recipient := publicKey kp;
            d_purpose := "Community rewards and airdrops" |};
         {| d_name := "Team"; d_amount := exact_share T 15;
            d_recipient := publicKey kp;
            d_purpose := "Team allocation with vesting" |};
         {| d_name := "Marketing"; d_amount := exact_share T 10;
            d_recipient := publicKey kp;
            d_purpose := "Marketing campaigns and partnerships" |};
         {| d_name := "Reserve"; d_amount := exact_share T 5;
            d_recipient := publicKey kp;
            d_purpose := "Future development and emergency fund" |} ].
Proof.
  intros HT Hsup Hkp.
  destruct (allocation_exact T HT) as (E1 & E2 & E3 & E4 & E5).
  unfold MintToken.calculateDistributions. cbv zeta.
  rewrite Hsup, Hkp, E1, E2, E3, E4, E5. reflexivity.
Qed.

(** Five floors of shares that add up to the whole lose at most four
    units. *)
Lemma exact_share_sum (T : Z) :
  T - 4 <= exact_share T 40 + (exact_share T 30 + (exact_share T 15
            + (exact_share T 10 + (exact_share T 5 + 0)))) <= T.
Proof.
  unfold exact_share.
  pose proof (Z.div_mod (T * 40) 100 ltac:(lia)).
  pose proof (Z.mod_pos_bound (T * 40) 100 ltac:(lia)).
  pose proof (Z.div_mod (T * 30) 100 ltac:(lia)).
  pose proof (Z.mod_pos_bound (T * 30) 100 ltac:(lia)).
  pose proof (Z.div_mod (T * 15) 100 ltac:(lia)).
  pose proof (Z.mod_pos_bound (T * 15) 100 ltac:(lia)).
  pose proof (Z.div_mod (T * 10) 100 ltac:(lia)).
  pose proof (Z.mod_pos_bound (T * 10) 100 ltac:(lia)).
  pose proof (Z.div_mod (T * 5) 100 ltac:(lia)).
  pose proof (Z.mod_pos_bound (T * 5) 100 ltac:(lia)).
  lia.
Qed.




(** ** Running the scripts *)

(** Unfold the scripts and the monad down to the answers of the
    environment. *)
Ltac unfold_scripts :=
  cbv beta iota zeta delta
    [MintToken.script MintToken.main MintToken.parseArgs MintToken.parse_loop
     MintToken.BigInt_arg
     MintToken.new MintToken.loadConfig MintToken.loadKeypairs
     MintToken.executeMinting MintToken.createTokenMint MintToken.createTokenAccount
     MintToken.mintTokens MintToken.distributeTokens
     MintToken.distribute_loop MintToken.saveDistributionResults
     MintToken.revokeMintAuthority MintToken.showDistributionPlan
     MintToken.showDistributions MintToken.given
     MintToken.network MintToken.verbose MintToken.config MintToken.connection
     MintToken.keypairs MintToken.mintAddress
     MintToken.opt_network MintToken.opt_amount MintToken.opt_dryRun
     MintToken.opt_verbose
     CreateLiquidity.script CreateLiquidity.main CreateLiquidity.parseArgs
     CreateLiquidity.parse_loop CreateLiquidity.new CreateLiquidity.loadConfig
     CreateLiquidity.loadKeypairs CreateLiquidity.checkMint
     CreateLiquidity.checkSolBalance CreateLiquidity.checkTokenBalance
     CreateLiquidity.checkPrerequisites CreateLiquidity.createPool
     CreateLiquidity.addInitialLiquidity CreateLiquidity.lockLiquidity
     CreateLiquidity.showCreationPlan CreateLiquidity.savePoolInfo
     CreateLiquidity.executePoolCreation
     CreateLiquidity.network CreateLiquidity.verbose CreateLiquidity.config
     CreateLiquidity.connection CreateLiquidity.keypairs CreateLiquidity.mintAddress
     CreateLiquidity.poolAddress
     CreateLiquidity.opt_network CreateLiquidity.opt_solAmount
     CreateLiquidity.opt_dryRun CreateLiquidity.opt_verbose
     DeployMetadata.script DeployMetadata.main DeployMetadata.parseArgs
     DeployMetadata.parse_loop DeployMetadata.new DeployMetadata.loadConfig
     DeployMetadata.loadMetadata DeployMetadata.loadKeypairs
     DeployMetadata.checkNetworkHealth DeployMetadata.showDeploymentPlan
     DeployMetadata.saveDeploymentInfo DeployMetadata.deployMetadata
     DeployMetadata.network DeployMetadata.verbose DeployMetadata.config
     DeployMetadata.metadata DeployMetadata.connection DeployMetadata.keypairs
     DeployMetadata.opt_network DeployMetadata.opt_dryRun DeployMetadata.opt_verbose
     run_script createConnection write_record KEYPAIR_DIR String.append
     mbind M_bind mret M_ret result_bind result_ret lift get_publicKey
     try_catch throw exit emit log log_error sleep when do_call
     Date_now __dirname fs_existsSync fs_mkdirSync fs_writeFileSync modify
     JSON_stringify
     readConfig readMetadata load_keyfile publicKey_of log_keypairs
     trace files deployments_dir ticks initial_world
     d_name d_amount d_recipient d_purpose
     default from_option id fst snd negb andb orb fmap option_fmap option_map].

(** Case analysis on the next thing the run waits for. *)
Ltac next_answer :=
  match goal with
  | |- context [env_rpc ?e ?h ?c] => destruct (env_rpc e h c) eqn:?
  | |- context [env_config ?e] => destruct (env_config e) eqn:?
  | |- context [env_metadata ?e] => destruct (env_metadata e) eqn:?
  | |- context [env_keyfile ?e ?p] => destruct (env_keyfile e p) eqn:?
  | |- context [@lookup _ _ (gmap string Keypair) _ ?k ?m] =>
      destruct (@lookup _ _ (gmap string Keypair) _ k m) eqn:?
  | |- context [@lookup _ _ (gmap string string) _ ?k ?m] =>
      destruct (@lookup _ _ (gmap string string) _ k m) eqn:?
  | |- context [JS.ltb ?a ?b] => destruct (JS.ltb a b) eqn:?
  | |- context [JS.string_lt ?a ?b] => destruct (JS.string_lt a b) eqn:?
  | |- context [toISOString ?t] => destruct (toISOString t) eqn:?
  | |- context [MintToken.calculateDistributions ?t] =>
      destruct (MintToken.calculateDistributions t) eqn:?
  | d : string -> bool |- _ =>
      match goal with |- context [d ?p] => destruct (d p) eqn:? end
  | |- context [@lookup _ _ (gmap string record_data) _ ?k ?m] =>
      destruct (@lookup _ _ (gmap string record_data) _ k m) eqn:?
  | |- context [if ?b then _ else _] => is_var b; destruct b eqn:?
  | |- context [match ?b with true => _ | false => _ end] => is_var b; destruct b eqn:?
  end.

Ltac run_all := repeat (unfold_scripts; try next_answer).

(** *** mintTokens and the distribution loop *)

Lemma mintTokens_outcome (this : MintToken.TokenMinter) (to : pubkey) (amount : Z)
    (env : Env) (w : World) :
  exists w', same_store w w'
    /\ ((exists r, MintToken.mintTokens this to amount env w = (Ret r, w'))
        \/ (exists e, MintToken.mintTokens this to amount env w = (Throw e, w'))).
Proof.
  destruct this as [n v c cn k m]. destruct v; run_all;
    (eexists; split; [|first [left; eexists; reflexivity | right; eexists; reflexivity]]);
    done.
Qed.

Lemma distribute_loop_total (this : MintToken.TokenMinter) (ds : list Distribution) :
  forall (acc : list DistributionResult) (env : Env) (w : World),
  exists results w',
    MintToken.distribute_loop this ds acc env w = (Ret (acc ++ results)%list, w')
    /\ map distribution results = ds
    /\ Forall settled results
    /\ same_store w w'.
Proof.
  induction ds as [|d ds IH]; intros acc env w.
  - exists [], w. rewrite app_nil_r. done.
  - cbn [MintToken.distribute_loop].
    unfold mbind at 1. unfold M_bind at 1.
    set (body := try_catch _ _).
    assert (Hbody : exists r w1, body env w = (Ret (acc ++ [r])%list, w1)
                      /\ distribution r = d /\ settled r /\ same_store w w1).
    { subst body. unfold try_catch at 1.
      unfold mbind at 1. unfold M_bind at 1. unfold log at 1, emit at 1.
      unfold mbind at 1. unfold M_bind at 1. unfold log at 1, emit at 1.
      unfold mbind at 1. unfold M_bind at 1. unfold log at 1, emit at 1.
      unfold mbind at 1. unfold M_bind at 1.
      match goal with |- context [MintToken.mintTokens ?t ?a ?b ?en ?w0] =>
        destruct (mintTokens_outcome t a b en w0) as (w1 & Hs & [[r ->] | [msg ->]]) end.
      - unfold_scripts. eexists _, _. split; [reflexivity|].
        split; [done|]. split; [left; cbn; eauto|]. 
        destruct Hs as (? & ? & ?). cbn in *. done.
      - unfold_scripts. eexists _, _. split; [reflexivity|].
        split; [done|]. split; [right; cbn; eauto|].
        destruct Hs as (? & ? & ?). cbn in *. done. }
    destruct Hbody as (r & w1 & -> & Hd & Hr & Hs).
    destruct (IH (acc ++ [r])%list env w1) as (rs & w2 & -> & Hm & Hf & Hs2).
    exists (r :: rs), w2. rewrite <- app_assoc. split; [done|].
    split; [cbn; congruence|]. split; [by constructor|].
    destruct Hs as (? & ? & ?), Hs2 as (? & ? & ?). repeat split; congruence.
Qed.

Ltac lookups :=
  repeat first [rewrite lookup_insert_eq | rewrite lookup_insert_ne by done
               | rewrite lookup_empty].

(** ** Pool creation *)

Lemma executePoolCreation_stops (env : Env) (this : CreateLiquidity.LiquidityCreator)
    (solAmount : option JS.number) (fs : gmap string record_data)
    (dir : string -> bool) (tk : nat) :
  let r := run_script (CreateLiquidity.executePoolCreation this solAmount false) env
             (fresh_world fs dir tk) in
  stop_on_first_error r.1 (trace r.2) = true.
Proof.
  destruct this as [n v c cn k m p]. unfold fresh_world.
  run_all; reflexivity.
Qed.

Ltac elems :=
  repeat match goal with
    | H : _ ∈ _ :: _ |- _ => inversion H; subst; clear H
    | H : _ ∈ [] |- _ => inversion H
    end.

(** The steps of a run, in order. *)
Lemma pool_steps_in_order (env : Env) (this : CreateLiquidity.LiquidityCreator)
    (solAmount : option JS.number) (fs : gmap string record_data)
    (dir : string -> bool) (tk : nat) :
  let r := run_script (CreateLiquidity.executePoolCreation this solAmount false) env
             (fresh_world fs dir tk) in
  let started := omap pool_step_started (trace r.2) in
  let failed := omap pool_step_failed (trace r.2) in
  (started `prefix_of` [CreatePool; AddLiquidity; LockLiquidity])
  /\ (forall s, s ∈ failed -> last started = Some s /\ r.1 = 1)
  /\ (AddLiquidity ∈ failed -> (LockLiquidity ∉ started) /\ r.1 <> 0).
Proof.
  intros r started failed.
  pose proof (executePoolCreation_stops env this solAmount fs dir tk) as H.
  cbv zeta in H. fold r in H. unfold stop_on_first_error in H.
  fold started failed in H.
  destruct started as [|[] [|[] [|[] [|? ?]]]]; try discriminate;
    destruct failed as [|[] [|? ?]]; try discriminate;
    (split; [by eexists|]); (split; [intros s Hs; elems; (split; [done|lia])|]);
    intros Hs; elems; (split; [intros Hn; elems|lia]).
Qed.

(** What follows the prerequisites, by the answers to the call of the
    create step and to the call of the add step. *)
Lemma pool_steps_after_prerequisites (env : Env)
    (this : CreateLiquidity.LiquidityCreator) (solAmount : option JS.number)
    (w w0 : World) (created : result pubkey) (added : result unit) :
  CreateLiquidity.checkPrerequisites this env
    (after w (Log [Str nl; Str "🚀 Starting GlowMin liquidity pool creation..."; Str nl]))
  = (Ret tt, w0) ->
  (forall h, env_rpc env h (PublicKey_new "POOL_ADDRESS_PLACEHOLDER") = created) ->
  (forall h, env_rpc env h Transaction_new = added) ->
  let r := run_script (CreateLiquidity.executePoolCreation this solAmount false) env w in
  exists events,
    trace r.2 = (trace w0 ++ events)%list
    /\ let started := omap pool_step_started events in
       let failed := omap pool_step_failed events in
       match created, added with
       | Err _, _ =>
           started = [CreatePool] /\ failed = [CreatePool]
           /\ calls_of events = [PublicKey_new "POOL_ADDRESS_PLACEHOLDER"]
           /\ r.1 = 1 /\ files r.2 = files w0 /\ ticks r.2 = ticks w0
       | Ok _, Err _ =>
           started = [CreatePool; AddLiquidity] /\ failed = [AddLiquidity]
           /\ calls_of events
              = [PublicKey_new "POOL_ADDRESS_PLACEHOLDER"; Transaction_new]
           /\ r.1 = 1 /\ files r.2 = files w0 /\ ticks r.2 = S (ticks w0)
       | Ok pool, Ok _ =>
           started = [CreatePool; AddLiquidity; LockLiquidity]
           /\ take 2 (calls_of events)
              = [PublicKey_new "POOL_ADDRESS_PLACEHOLDER"; Transaction_new]
           /\ (failed = []
               /\ (r.1 = 0 ->
                   files r.2
                   = <[record_path (env_dirname env) "pool"
                         (CreateLiquidity.network this)
                         (env_clock env (S (S (S (ticks w0))))) :=
                         PoolRecord (env_clock env (S (S (ticks w0))))
                           (CreateLiquidity.network this) pool
                           (raydium_sol_amount (CreateLiquidity.config this))
                           (raydium_glowmin_amount (CreateLiquidity.config this))
                           "TRANSACTION_SIGNATURE_PLACEHOLDER"
                           "LOCK_TRANSACTION_SIGNATURE_PLACEHOLDER"
                           (JS.add
                              (JS.Math_floor
                                 (JS.div (JS.of_Z (env_clock env (S (ticks w0))))
                                    (JS.of_Z 1000)))
                              (liquidity_lock_period (CreateLiquidity.config this)))
                           (raydium_program_id (CreateLiquidity.config this))]>
                       (files w0))
               \/ failed = [LockLiquidity] /\ r.1 = 1 /\ files r.2 = files w0)
       end.
Proof.
  intros Hpre Hc Ha. destruct this as [n v c cn k m p], w as [tr fs dir tk].
  destruct w0 as [tr0 fs0 dir0 tk0].
  unfold after in Hpre. cbn [trace files deployments_dir ticks] in Hpre.
  unfold run_script, CreateLiquidity.executePoolCreation.
  cbv beta iota zeta delta [mbind M_bind try_catch log emit trace files
                            deployments_dir ticks].
  rewrite Hpre.
  unfold_scripts. rewrite Hc. destruct created as [pool|e1].
  - unfold_scripts. rewrite Ha. destruct added as [[]|e2].
    + run_all; rewrite <- ?app_assoc; cbn [app];
        (eexists; split; [reflexivity|]); cbv zeta;
        (split; [reflexivity|]); (split; [reflexivity|]);
        first [ left; split; [reflexivity|];
                intros H; first [discriminate H | reflexivity]
              | right; repeat split; reflexivity ].
    + destruct v; unfold_scripts; rewrite <- ?app_assoc; cbn [app];
        (eexists; split; [reflexivity|]); cbv zeta; repeat split; reflexivity.
  - destruct v; unfold_scripts; rewrite <- ?app_assoc; cbn [app];
      (eexists; split; [reflexivity|]); cbv zeta; repeat split; reflexivity.
Qed.

(** C4. Pool creation runs its steps in the order create pool, add
    liquidity, lock liquidity, and stops at the first one that fails.  In
    every run the steps started are a prefix of that order, and a failed
    step is the last step started and ends the process with status 1.
    Once the prerequisites have passed the create step is run, with its
    call; when that call fails nothing else is run.  When it returns the
    add step is run, with its call; when the add call fails, the lock step
    is never run (its line is not printed and the clock is not read
    again), no record is written and the process ends with status 1; when
    the add call returns, the lock step is run, and the record of a run
    that ends with status 0 holds the end of the lock that the step has
    computed. *)
Theorem C4_pool_creation_stops_on_first_error (env : Env)
    (this : CreateLiquidity.LiquidityCreator) (solAmount : option JS.number)
    (fs : gmap string record_data) (dir : string -> bool) (tk : nat) (w0 : World)
    (created : result pubkey) (added : result unit) :
  CreateLiquidity.checkPrerequisites this env
    (after (fresh_world fs dir tk)
       (Log [Str nl; Str "🚀 Starting GlowMin liquidity pool creation..."; Str nl]))
  = (Ret tt, w0) ->
  (forall h, env_rpc env h (PublicKey_new "POOL_ADDRESS_PLACEHOLDER") = created) ->
  (forall h, env_rpc env h Transaction_new = added) ->
  let r := run_script (CreateLiquidity.executePoolCreation this solAmount false) env
             (fresh_world fs dir tk) in
  (let started := omap pool_step_started (trace r.2) in
   let failed := omap pool_step_failed (trace r.2) in
   (started `prefix_of` [CreatePool; AddLiquidity; LockLiquidity])
   /\ (forall s, s ∈ failed -> last started = Some s /\ r.1 = 1)
   /\ (AddLiquidity ∈ failed -> (LockLiquidity ∉ started) /\ r.1 <> 0))
  /\ exists events,
       trace r.2 = (trace w0 ++ events)%list
       /\ let started := omap pool_step_started events in
          let failed := omap pool_step_failed events in
          match created, added with
          | Err _, _ =>
              started = [CreatePool] /\ failed = [CreatePool]
              /\ calls_of events = [PublicKey_new "POOL_ADDRESS_PLACEHOLDER"]
              /\ r.1 = 1 /\ files r.2 = files w0 /\ ticks r.2 = ticks w0
          | Ok _, Err _ =>
              started = [CreatePool; AddLiquidity] /\ failed = [AddLiquidity]
              /\ calls_of events
                 = [PublicKey_new "POOL_ADDRESS_PLACEHOLDER"; Transaction_new]
              /\ r.1 = 1 /\ files r.2 = files w0 /\ ticks r.2 = S (ticks w0)
          | Ok pool, Ok _ =>
              started = [CreatePool; AddLiquidity; LockLiquidity]
              /\ take 2 (calls_of events)
                 = [PublicKey_new "POOL_ADDRESS_PLACEHOLDER"; Transaction_new]
              /\ (failed = []
                  /\ (r.1 = 0 ->
                      files r.2
                      = <[record_path (env_dirname env) "pool"
                            (CreateLiquidity.network this)
                            (env_clock env (S (S (S (ticks w0))))) :=
                            PoolRecord (env_clock env (S (S (ticks w0))))
                              (CreateLiquidity.network this) pool
                              (raydium_sol_amount (CreateLiquidity.config this))
                              (raydium_glowmin_amount (CreateLiquidity.config this))
                              "TRANSACTION_SIGNATURE_PLACEHOLDER"
                              "LOCK_TRANSACTION_SIGNATURE_PLACEHOLDER"
                              (JS.add
                                 (JS.Math_floor
                                    (JS.div (JS.of_Z (env_clock env (S (ticks w0))))
                                       (JS.of_Z 1000)))
                                 (liquidity_lock_period (CreateLiquidity.config this)))
                              (raydium_program_id (CreateLiquidity.config this))]>
                          (files w0))
                  \/ failed = [LockLiquidity] /\ r.1 = 1 /\ files r.2 = files w0)
          end.
Proof.
  intros Hpre Hc Ha r. split; [apply pool_steps_in_order|].
  by apply pool_steps_after_prerequisites.
Qed.

Lemma C4_witness :
  let env := Sample.env_with_rpc Sample.rpc_failing_liquidity in
  let w := fresh_world ∅ (fun _ => false) 0 in
  let w0 := (CreateLiquidity.checkPrerequisites creator env
               (after w (Log [Str nl; Str "🚀 Starting GlowMin liquidity pool creation...";
                              Str nl]))).2 in
  let r := run_script (CreateLiquidity.executePoolCreation creator None false) env w in
  exists events,
    trace r.2 = (trace w0 ++ events)%list
    /\ omap pool_step_started events = [CreatePool; AddLiquidity]
    /\ omap pool_step_failed events = [AddLiquidity]
    /\ calls_of events = [PublicKey_new "POOL_ADDRESS_PLACEHOLDER"; Transaction_new]
    /\ r.1 = 1 /\ files r.2 = files w0 /\ ticks r.2 = S (ticks w0).
Proof.
  exact (proj2 (C4_pool_creation_stops_on_first_error
                  (Sample.env_with_rpc Sample.rpc_failing_liquidity) creator None
                  ∅ (fun _ => false) 0%nat _
                  (Ok "POOL_ADDRESS_PLACEHOLDER") (Err "Transaction could not be built")
                  ltac:(vm_compute; reflexivity)
                  ltac:(intros; reflexivity) ltac:(intros; reflexivity))).
Defined.

(** ** File names and persistence *)

(** *** Paths *)

Lemma append_cons (c : ascii) (a b : string) : String c a +:+ b = String c (a +:+ b).
Proof. reflexivity. Qed.

Lemma append_nil (b : string) : EmptyString +:+ b = b.
Proof. reflexivity. Qed.

Lemma length_append (a b : string) :
  String.length (a +:+ b) = (String.length a + String.length b)%nat.
Proof.
  induction a as [|c a IH]; [done|]. rewrite append_cons. cbn [String.length].
  by rewrite IH.
Qed.

(* ---- new ---- *)

Lemma append_assoc (a b c : string) : (a +:+ b) +:+ c = a +:+ (b +:+ c).
Proof. induction a as [|x a IH]; [done|]. rewrite !append_cons. by rewrite IH. Qed.

Lemma append_nil_r (a : string) : a +:+ EmptyString = a.
Proof. induction a as [|x a IH]; [done|]. rewrite append_cons. by rewrite IH. Qed.

Lemma append_inj_l (s a b : string) : s +:+ a = s +:+ b -> a = b.
Proof.
  induction s as [|c s IH]; [done|]. rewrite !append_cons. intros H.
  injection H as H. by apply IH.
Qed.

Lemma slashless_app (a b : string) :
  slashless (a +:+ b) = slashless a && slashless b.
Proof.
  induction a as [|c a IH]; [done|].
  rewrite append_cons. cbn [slashless]. rewrite IH. by destruct (Ascii.eqb c "/").
Qed.

Lemma split_path_cons (s : string) : exists seg segs, JS.split_path s = seg :: segs.
Proof.
  induction s as [|c s (seg & segs & IH)]; [by eexists _, _|].
  cbn [JS.split_path]. rewrite IH. destruct (Ascii.eqb c "/"); by eexists _, _.
Qed.

Lemma split_path_app (a b : string) :
  JS.split_path (a +:+ "/" +:+ b) = (JS.split_path a ++ JS.split_path b)%list.
Proof.
  induction a as [|c a IH]; [done|].
  rewrite append_cons. cbn [JS.split_path]. rewrite IH.
  destruct (Ascii.eqb c "/"); [done|].
  destruct (split_path_cons a) as (seg & segs & ->). done.
Qed.

Lemma split_path_slashless (f : string) : slashless f = true -> JS.split_path f = [f].
Proof.
  induction f as [|c f IH]; [done|]. cbn [slashless JS.split_path].
  intros [Hc Hf]%andb_prop. destruct (Ascii.eqb c "/"); [done|].
  by rewrite (IH Hf).
Qed.

Lemma concat_snoc (l : list string) (a f : string) :
  String.concat "/" ((l ++ [a]) ++ [f])%list
  = String.concat "/" (l ++ [a])%list +:+ "/" +:+ f.
Proof.
  induction l as [|x l IH]; [done|].
  cbn [app] in *. cbn [String.concat].
  destruct (l ++ [a])%list as [|y l'] eqn:E; [by destruct l|].
  cbn [app]. cbn [app] in IH. rewrite IH.
  change (String.append ?a ?b) with (a +:+ b). by rewrite !append_assoc.
Qed.

Lemma starts_with_slash_app (a b c : string) :
  JS.starts_with_slash (a +:+ "/" +:+ b) = JS.starts_with_slash (a +:+ "/" +:+ c).
Proof. by destruct a. Qed.

Lemma ends_with_slash_app (a b : string) :
  b <> EmptyString -> JS.ends_with_slash (a +:+ b) = JS.ends_with_slash b.
Proof.
  intros Hb. induction a as [|c a IH]; [done|].
  rewrite append_cons. cbn [JS.ends_with_slash]. rewrite IH.
  destruct (a +:+ b) eqn:E; [|done]. by destruct a, b.
Qed.

Lemma normalize_step_file (allow : bool) (res : list string) (f : string) :
  file_name f -> JS.normalize_step allow res f = f :: res.
Proof.
  intros (_ & H0 & H1 & H2). unfold JS.normalize_step.
  destruct (String.eqb_spec f EmptyString); [done|].
  destruct (String.eqb_spec f "."); [done|].
  destruct (String.eqb_spec f ".."); [done|]. done.
Qed.

Lemma slashless_no_slash_end (f : string) :
  slashless f = true -> JS.ends_with_slash f = false.
Proof.
  induction f as [|c f IH]; [done|]. cbn [slashless JS.ends_with_slash].
  intros [Hc Hf]%andb_prop. destruct f; [by destruct (Ascii.eqb c "/")|by apply IH].
Qed.

(** Joining a file name to a directory that ends in [/deployments]. *)
Lemma path_normalize_file (q f : string) :
  file_name f ->
  JS.path_normalize (q +:+ "/deployments/" +:+ f)
  = JS.path_normalize (q +:+ "/deployments") +:+ "/" +:+ f.
Proof.
  intros Hf. pose proof Hf as (Hs & Hne & _).
  unfold JS.path_normalize.
  destruct (q +:+ "/deployments/" +:+ f) eqn:E1; [by destruct q|]. rewrite <- E1. clear E1.
  destruct (q +:+ "/deployments") eqn:E2; [by destruct q|]. rewrite <- E2. clear E2.
  change (q +:+ "/deployments/" +:+ f)
    with (q +:+ "/" +:+ ("deployments" +:+ "/" +:+ f)).
  change (q +:+ "/deployments") with (q +:+ "/" +:+ "deployments").
  rewrite (starts_with_slash_app q _ "deployments").
  rewrite !split_path_app, (split_path_slashless f Hs).
  change (JS.split_path "deployments") with ["deployments"].
  rewrite !ends_with_slash_app by (by destruct f).
  rewrite (slashless_no_slash_end _ Hs).
  change (JS.ends_with_slash "deployments") with false.
  set (allow := negb _).
  rewrite !fold_left_app. cbn [fold_left].
  set (res := fold_left _ (JS.split_path q) []).
  change (JS.normalize_step allow res "deployments") with ("deployments" :: res).
  rewrite (normalize_step_file _ _ _ Hf). cbn [rev].
  destruct ((rev res ++ ["deployments"]) ++ [f])%list eqn:E1;
    [by destruct (rev res ++ ["deployments"])%list|]. rewrite <- E1. clear E1.
  destruct (rev res ++ ["deployments"])%list eqn:E2; [by destruct (rev res)|].
  rewrite <- E2. clear E2.
  rewrite concat_snoc.
  change (String.append ?a ?b) with (a +:+ b).
  rewrite !append_assoc, append_nil_r. done.
Qed.

Lemma path_join_file (dirname f : string) :
  file_name f ->
  JS.path_join dirname (DEPLOYMENTS_DIR +:+ "/" +:+ f)
  = deployments_directory dirname +:+ "/" +:+ f.
Proof.
  intros Hf. unfold deployments_directory, JS.path_join, DEPLOYMENTS_DIR.
  destruct dirname as [|c d].
  - change ("../deployments" +:+ "/" +:+ f) with (".." +:+ "/deployments/" +:+ f).
    by rewrite path_normalize_file.
  - change ("../deployments" +:+ "/" +:+ f) with ("../deployments/" +:+ f).
    destruct ("../deployments/" +:+ f) eqn:E; [done|]. rewrite <- E. clear E.
    change (String c d +:+ "/" +:+ "../deployments/" +:+ f)
      with (String c d +:+ ("/.." +:+ ("/deployments/" +:+ f))).
    change (String c d +:+ "/" +:+ "../deployments")
      with (String c d +:+ ("/.." +:+ "/deployments")).
    rewrite <- (append_assoc (String c d) "/.." ("/deployments/" +:+ f)).
    rewrite <- (append_assoc (String c d) "/.." "/deployments").
    by rewrite path_normalize_file.
Qed.

(** *** The directory of a path *)












(** *** The names of the records *)

Lemma Number_toString_small (z : Z) :
  0 <= z < 2 ^ 53 -> JS.Number_toString z = pretty z.
Proof.
  intros Hz. destruct (Z.eq_dec z 0) as [->|Hz0]; [done|].
  unfold JS.Number_toString.
  pose proof (BigInt_binary_normalize z false ltac:(lia)) as HB.
  change (binary_normalize 53 1024 z 0 false) with (JS.of_Z z) in HB.
  destruct (of_Z_pos z ltac:(lia)) as (p & j & E & _). rewrite E in HB |- *.
  rewrite HB. cbn [default from_option id]. rewrite Z.abs_eq by lia.
  unfold JS.magnitude_text. destruct (Z.ltb_spec z (2 ^ 53)); [done|lia].
Qed.


(** The digits of a natural number hold neither [-] nor [/]. *)
Lemma pretty_N_go_plain (x : N) (s : string) :
  dashless s = true -> slashless s = true ->
  dashless (pretty_N_go x s) = true /\ slashless (pretty_N_go x s) = true.
Proof.
  revert s. induction (N.lt_wf_0 x) as [x _ IH]; intros s Hd Hs.
  assert (x = 0 \/ 0 < x)%N as [->|Hx] by lia; [by rewrite pretty_N_go_0|].
  rewrite pretty_N_go_step by done. apply IH; [by apply N.div_lt| |].
  - cbn [dashless]. rewrite Hd. unfold pretty_N_char. by repeat case_match.
  - cbn [slashless]. rewrite Hs. unfold pretty_N_char. by repeat case_match.
Qed.

Lemma pretty_Z_plain (t : Z) :
  0 <= t -> dashless (pretty t) = true /\ slashless (pretty t) = true.
Proof.
  intros Ht. destruct t as [|p|p]; [done| |lia].
  unfold pretty, pretty_Z, pretty, pretty_positive, pretty, pretty_N.
  case_decide; [done|]. by apply pretty_N_go_plain.
Qed.




Lemma record_file_name (kind network : string) (now : Z) :
  slashless kind = true -> slashless network = true -> 0 <= now < 2 ^ 53 ->
  file_name (record_file kind network now).
Proof.
  intros Hk Hn Ht. unfold record_file. rewrite Number_toString_small by done.
  split.
  { rewrite !slashless_app, Hk, Hn, (proj2 (pretty_Z_plain now ltac:(lia))). done. }
  repeat split; intros H; apply (f_equal String.length) in H;
    rewrite !length_append in H; cbn in H; lia.
Qed.

(** For a network name without separator, the path of a record is its
    file name in the deployments directory. *)
Lemma record_path_plain (dirname kind network : string) (now : Z) :
  slashless kind = true -> slashless network = true -> 0 <= now < 2 ^ 53 ->
  record_path dirname kind network now
  = deployments_directory dirname +:+ "/" +:+ record_file kind network now.
Proof.
  intros Hk Hn Ht. unfold record_path, record_name.
  apply path_join_file. by apply record_file_name.
Qed.



(** *** Persisting a record *)







(** *** Loading key pairs *)

Lemma MintToken_loadKeypairs_partial (env : Env) (verbose : bool) (w : World) :
  readable (env_keyfile env "../keypairs/mint-authority.json") ->
  readable (env_keyfile env "../keypairs/freeze-authority.json") ->
  exists kps w',
    MintToken.loadKeypairs verbose env w = (Ret kps, w')
    /\ kps !! "mintAuthority"
       = loaded_key (env_keyfile env "../keypairs/mint-authority.json")
    /\ kps !! "freezeAuthority"
       = loaded_key (env_keyfile env "../keypairs/freeze-authority.json")
    /\ same_store w w'.
Proof.
  intros H1 H2. unfold_scripts.
  destruct (env_keyfile env "../keypairs/mint-authority.json");
    destruct (env_keyfile env "../keypairs/freeze-authority.json");
    try done; destruct verbose;
    repeat (unfold_scripts; lookups);
    (eexists _, _; split; [reflexivity|]); cbn [loaded_key]; lookups; done.
Qed.

Lemma DeployMetadata_loadKeypairs_partial (env : Env) (verbose : bool) (w : World) :
  readable (env_keyfile env "../keypairs/mint-authority.json") ->
  readable (env_keyfile env "../keypairs/metadata-authority.json") ->
  exists kps w',
    DeployMetadata.loadKeypairs verbose env w = (Ret kps, w')
    /\ kps !! "mintAuthority"
       = loaded_key (env_keyfile env "../keypairs/mint-authority.json")
    /\ kps !! "metadataAuthority"
       = loaded_key (env_keyfile env "../keypairs/metadata-authority.json")
    /\ same_store w w'.
Proof.
  intros H1 H2. unfold_scripts.
  destruct (env_keyfile env "../keypairs/mint-authority.json");
    destruct (env_keyfile env "../keypairs/metadata-authority.json");
    try done; destruct verbose;
    repeat (unfold_scripts; lookups);
    (eexists _, _; split; [reflexivity|]); cbn [loaded_key]; lookups; done.
Qed.

(** Without its mint authority or its freeze authority, minting stops
    before any call, on the TypeError of the first dereference. *)
Lemma executeMinting_without_authority (env : Env)
    (this : MintToken.TokenMinter) (amount : option Z) (dryRun : bool)
    (fs : gmap string record_data) (dir : string -> bool) (tk : nat) :
  MintToken.keypairs this !! "mintAuthority" = None
  \/ MintToken.keypairs this !! "freezeAuthority" = None ->
  let r := run_script (MintToken.executeMinting this amount dryRun) env
             (fresh_world fs dir tk) in
  r.1 = 1
  /\ calls_of (trace r.2) = []
  /\ files r.2 = fs
  /\ errors_of (trace r.2)
     = ([ [Str "❌ Failed to create token mint:"; Str " ";
           Str (JS.TypeError_undefined "publicKey")];
          [Str "❌ Token minting failed:"; Str " ";
           Str (JS.TypeError_undefined "publicKey")] ]
        ++ (if MintToken.verbose this
            then [ [Str "Full error details:"; Str " ";
                    Obj (JS.TypeError_undefined "publicKey")] ]
            else []))%list
  /\ existsb (mentions "Authority") (errors_of (trace r.2)) = false
  /\ existsb (mentions "authority") (errors_of (trace r.2)) = false.
Proof.
  intros Hk. destruct this as [n v c cn k m]. cbn [MintToken.keypairs] in Hk.
  unfold fresh_world. unfold_scripts.
  destruct (k !! "mintAuthority") as [kpM|] eqn:HM.
  - destruct Hk as [|Hk]; [done|]. unfold_scripts. rewrite Hk.
    destruct v; unfold_scripts; repeat split; reflexivity.
  - destruct v; unfold_scripts; repeat split; reflexivity.
Qed.

(** Without its mint authority, the metadata deployment stops before the
    instruction; without its metadata authority only, the instruction is
    submitted with an undefined payer before the first dereference.
    Either way the process ends with status 1 and writes nothing. *)
Lemma deployMetadata_without_authority (env : Env)
    (this : DeployMetadata.MetadataDeployer)
    (fs : gmap string record_data) (dir : string -> bool) (tk : nat) :
  DeployMetadata.keypairs this !! "mintAuthority" = None
  \/ DeployMetadata.keypairs this !! "metadataAuthority" = None ->
  let r := run_script (DeployMetadata.deployMetadata this false) env
             (fresh_world fs dir tk) in
  let instructions := filter network_mutation (calls_of (trace r.2)) in
  r.1 = 1
  /\ filter file_write (calls_of (trace r.2)) = []
  /\ files r.2 = fs
  /\ match DeployMetadata.keypairs this !! "mintAuthority" with
     | None => instructions = []
     | Some kp =>
         instructions = []
         \/ instructions
            = [ createMetadataAccountV3 None (publicKey kp)
                  (md_name (DeployMetadata.metadata this))
                  (md_symbol (DeployMetadata.metadata this))
                  (DeployMetadata.metadataUri this) ]
     end.
Proof.
  intros Hk. destruct this as [n v c md cn k]. cbn [DeployMetadata.keypairs] in Hk |- *.
  cbn [DeployMetadata.metadata].
  unfold fresh_world. unfold_scripts.
  destruct (k !! "mintAuthority") as [kpM|] eqn:HM,
           (k !! "metadataAuthority") as [kpU|] eqn:HU;
    (destruct Hk as [Hk|Hk]; try discriminate Hk);
    repeat (unfold_scripts; try next_answer);
    cbn [DeployMetadata.metadataUri DeployMetadata.metadata];
    repeat split; first [reflexivity | left; reflexivity | right; reflexivity].
Qed.

Lemma C7_counterexample :
  let mint := MintToken.script [] Sample.env_without_mint_authority initial_world in
  let metadata :=
    DeployMetadata.script [] Sample.env_without_metadata_authority initial_world in
  (mint.1 = 1
   /\ existsb (mentions "mintAuthority") (errors_of (trace mint.2)) = false
   /\ existsb (mentions "mint-authority") (errors_of (trace mint.2)) = false
   /\ existsb (mentions "publicKey") (errors_of (trace mint.2)) = true)
  /\ (metadata.1 = 1
      /\ filter network_mutation (calls_of (trace metadata.2))
         = [ createMetadataAccountV3 None "MintAuthority11111" "GlowMin" "GLOWMIN"
               "https://glowmin.alfanestlabs.xyz/metadata/token-metadata.json" ]
      /\ errors_of (trace metadata.2)
         = [ [Str "❌ Metadata deployment failed:"; Str " ";
              Str "Cannot read properties of undefined (reading 'publicKey')"] ]
      /\ map_to_list (files metadata.2) = []).
Proof. vm_compute. done. Qed.

(** *** Unrecognised arguments *)

Lemma MintToken_parse_loop_ignores (arg : string) (rest : list string)
    (options : MintToken.Options) :
  arg ∉ mint_token_flags ->
  MintToken.parse_loop options (arg :: rest) = MintToken.parse_loop options rest.
Proof.
  intros Hn. cbn [MintToken.parse_loop].
  repeat match goal with
    | |- context [String.eqb arg ?flag] =>
        destruct (String.eqb_spec arg flag) as [E|_];
        [exfalso; apply Hn; rewrite E; unfold mint_token_flags; set_solver|]
    end.
  reflexivity.
Qed.

Lemma CreateLiquidity_parse_loop_ignores (arg : string) (rest : list string)
    (options : CreateLiquidity.Options) :
  arg ∉ create_liquidity_flags ->
  CreateLiquidity.parse_loop options (arg :: rest)
  = CreateLiquidity.parse_loop options rest.
Proof.
  intros Hn. cbn [CreateLiquidity.parse_loop].
  repeat match goal with
    | |- context [String.eqb arg ?flag] =>
        destruct (String.eqb_spec arg flag) as [E|_];
        [exfalso; apply Hn; rewrite E; unfold create_liquidity_flags; set_solver|]
    end.
  reflexivity.
Qed.

Lemma DeployMetadata_parse_loop_ignores (arg : string) (rest : list string)
    (options : DeployMetadata.Options) :
  arg ∉ deploy_metadata_flags ->
  DeployMetadata.parse_loop options (arg :: rest)
  = DeployMetadata.parse_loop options rest.
Proof.
  intros Hn. cbn [DeployMetadata.parse_loop].
  repeat match goal with
    | |- context [String.eqb arg ?flag] =>
        destruct (String.eqb_spec arg flag) as [E|_];
        [exfalso; apply Hn; rewrite E; unfold deploy_metadata_flags; set_solver|]
    end.
  reflexivity.
Qed.

Lemma existsb_eqb_false (arg : string) (l : list string) :
  Forall (fun flag => arg <> flag) l -> existsb (String.eqb arg) l = false.
Proof.
  induction 1 as [|flag l Hn _ IH]; [done|]. cbn [existsb]. rewrite IH.
  by destruct (String.eqb_spec arg flag).
Qed.

(** Skipping over the arguments read before. *)
Lemma MintToken_parse_loop_skips (arg : string) (rest : list string) :
  arg ∉ mint_token_flags ->
  forall (n : nat) (read : list string) (options : MintToken.Options),
  (length read < n)%nat ->
  flag_position mint_token_value_flags false read = true ->
  MintToken.parse_loop options (read ++ arg :: rest)
  = MintToken.parse_loop options (read ++ rest).
Proof.
  intros Hn. induction n as [|n IH]; intros read options Hl Hp; [lia|].
  destruct read as [|a read]; [by apply MintToken_parse_loop_ignores|].
  cbn [app MintToken.parse_loop flag_position length] in *.
  destruct (String.eqb_spec a "--network") as [->|N1].
  { destruct read as [|v read]; [done|]. cbn [app flag_position length] in *.
    apply IH; [lia|done]. }
  destruct (String.eqb_spec a "--amount") as [->|N2].
  { destruct read as [|v read]; [done|]. cbn [app flag_position length] in *.
    unfold MintToken.BigInt_arg.
    destruct (JS.StringToBigInt v) as [z|]; [|reflexivity].
    match goal with |- mbind ?k1 _ = mbind ?k2 _ => change (k1 z = k2 z) end.
    apply IH; [lia|done]. }
  rewrite existsb_eqb_false in Hp by (repeat constructor; done).
  destruct (String.eqb a "--dry-run"); [apply IH; [lia|done]|].
  destruct (String.eqb a "--verbose"); [apply IH; [lia|done]|].
  destruct (String.eqb a "--help"); [done|]. apply IH; [lia|done].
Qed.

Lemma CreateLiquidity_parse_loop_skips (arg : string) (rest : list string) :
  arg ∉ create_liquidity_flags ->
  forall (n : nat) (read : list string) (options : CreateLiquidity.Options),
  (length read < n)%nat ->
  flag_position create_liquidity_value_flags false read = true ->
  CreateLiquidity.parse_loop options (read ++ arg :: rest)
  = CreateLiquidity.parse_loop options (read ++ rest).
Proof.
  intros Hn. induction n as [|n IH]; intros read options Hl Hp; [lia|].
  destruct read as [|a read]; [by apply CreateLiquidity_parse_loop_ignores|].
  cbn [app CreateLiquidity.parse_loop flag_position length] in *.
  destruct (String.eqb_spec a "--network") as [->|N1].
  { destruct read as [|v read]; [done|]. cbn [app flag_position length] in *.
    apply IH; [lia|done]. }
  destruct (String.eqb_spec a "--sol-amount") as [->|N2].
  { destruct read as [|v read]; [done|]. cbn [app flag_position length] in *.
    apply IH; [lia|done]. }
  rewrite existsb_eqb_false in Hp by (repeat constructor; done).
  destruct (String.eqb a "--dry-run"); [apply IH; [lia|done]|].
  destruct (String.eqb a "--verbose"); [apply IH; [lia|done]|].
  destruct (String.eqb a "--help"); [done|]. apply IH; [lia|done].
Qed.

Lemma DeployMetadata_parse_loop_skips (arg : string) (rest : list string) :
  arg ∉ deploy_metadata_flags ->
  forall (n : nat) (read : list string) (options : DeployMetadata.Options),
  (length read < n)%nat ->
  flag_position deploy_metadata_value_flags false read = true ->
  DeployMetadata.parse_loop options (read ++ arg :: rest)
  = DeployMetadata.parse_loop options (read ++ rest).
Proof.
  intros Hn. induction n as [|n IH]; intros read options Hl Hp; [lia|].
  destruct read as [|a read]; [by apply DeployMetadata_parse_loop_ignores|].
  cbn [app DeployMetadata.parse_loop flag_position length] in *.
  destruct (String.eqb_spec a "--network") as [->|N1].
  { destruct read as [|v read]; [done|]. cbn [app flag_position length] in *.
    apply IH; [lia|done]. }
  rewrite existsb_eqb_false in Hp by (repeat constructor; done).
  destruct (String.eqb a "--dry-run"); [apply IH; [lia|done]|].
  destruct (String.eqb a "--verbose"); [apply IH; [lia|done]|].
  destruct (String.eqb a "--help"); [done|]. apply IH; [lia|done].
Qed.

(** C10 (amended). An argument that none of the [case] labels of
    [parseArgs] matches, and that is read at a flag position (it does not
    follow a flag that takes a value), is skipped: parsing goes on as if it
    were absent, nothing is printed and the process does not end, in each
    of the three scripts; the whole run is the run without the argument,
    so that [--dryrun] gives the run without flags. *)
Theorem C10_unrecognised_arguments_are_ignored (arg : string)
    (read rest : list string) :
  (arg ∉ mint_token_flags ->
   flag_position mint_token_value_flags false read = true ->
   (forall options,
      MintToken.parse_loop options (read ++ arg :: rest)
      = MintToken.parse_loop options (read ++ rest))
   /\ MintToken.script (read ++ arg :: rest) = MintToken.script (read ++ rest))
  /\ (arg ∉ create_liquidity_flags ->
      flag_position create_liquidity_value_flags false read = true ->
      (forall options,
         CreateLiquidity.parse_loop options (read ++ arg :: rest)
         = CreateLiquidity.parse_loop options (read ++ rest))
      /\ CreateLiquidity.script (read ++ arg :: rest)
         = CreateLiquidity.script (read ++ rest))
  /\ (arg ∉ deploy_metadata_flags ->
      flag_position deploy_metadata_value_flags false read = true ->
      (forall options,
         DeployMetadata.parse_loop options (read ++ arg :: rest)
         = DeployMetadata.parse_loop options (read ++ rest))
      /\ DeployMetadata.script (read ++ arg :: rest)
         = DeployMetadata.script (read ++ rest)).
Proof.
  split; [|split]; intros Hn Hp.
  - assert (H : forall options,
               MintToken.parse_loop options (read ++ arg :: rest)
               = MintToken.parse_loop options (read ++ rest)).
    { intros options.
      by apply (MintToken_parse_loop_skips arg rest Hn (S (length read))); [lia|]. }
    split; [exact H|].
    unfold MintToken.script, MintToken.main, MintToken.parseArgs. by rewrite H.
  - assert (H : forall options,
               CreateLiquidity.parse_loop options (read ++ arg :: rest)
               = CreateLiquidity.parse_loop options (read ++ rest)).
    { intros options.
      by apply (CreateLiquidity_parse_loop_skips arg rest Hn (S (length read))); [lia|]. }
    split; [exact H|].
    unfold CreateLiquidity.script, CreateLiquidity.main, CreateLiquidity.parseArgs.
    by rewrite H.
  - assert (H : forall options,
               DeployMetadata.parse_loop options (read ++ arg :: rest)
               = DeployMetadata.parse_loop options (read ++ rest)).
    { intros options.
      by apply (DeployMetadata_parse_loop_skips arg rest Hn (S (length read))); [lia|]. }
    split; [exact H|].
    unfold DeployMetadata.script, DeployMetadata.main, DeployMetadata.parseArgs.
    by rewrite H.
Qed.

Lemma C10_witness :
  ("--dryrun" ∉ mint_token_flags)
  /\ flag_position mint_token_value_flags false ["--verbose"] = true
  /\ MintToken.script ["--verbose"; "--dryrun"] = MintToken.script ["--verbose"].
Proof.
  assert (H : "--dryrun" ∉ mint_token_flags).
  { unfold mint_token_flags. intros Hin.
    repeat (apply elem_of_cons in Hin as [Hin|Hin]; [discriminate|]).
    by apply elem_of_nil in Hin. }
  split; [exact H|]. split; [reflexivity|].
  exact (proj2 (proj1 (C10_unrecognised_arguments_are_ignored "--dryrun"
                         ["--verbose"] []) H eq_refl)).
Defined.

(** After [--network] or [--amount] the argument is the value of the
    flag: [--dryrun] is then the name of a network that is not configured,
    or a text that is no integer, and the run ends with status 1 where the
    run without it deploys the metadata. *)
Lemma C10_counterexample :
  let with_it := DeployMetadata.script ["--network"; "--dryrun"] Sample.env initial_world in
  let without := DeployMetadata.script ["--network"] Sample.env initial_world in
  let amount := MintToken.script ["--amount"; "--dryrun"] Sample.env initial_world in
  ("--dryrun" ∉ deploy_metadata_flags)
  /\ ("--dryrun" ∉ mint_token_flags)
  /\ with_it.1 = 1
  /\ calls_of (trace with_it.2) = []
  /\ errors_of (trace with_it.2)
     = [ [Str "❌ Network '"; Str "--dryrun"; Str "' not found in configuration"] ]
  /\ without.1 = 0
  /\ filter network_mutation (calls_of (trace without.2))
     = [ createMetadataAccountV3 (Some "MetadataAuthority11") "MintAuthority11111"
           "GlowMin" "GLOWMIN"
           "https://glowmin.alfanestlabs.xyz/metadata/token-metadata.json" ]
  /\ amount.1 = 1
  /\ calls_of (trace amount.2) = []
  /\ errors_of (trace amount.2)
     = [ [Str "❌ Script execution failed:"; Str " ";
          Str "Cannot convert --dryrun to a BigInt"] ].
Proof.
  split; [|split].
  - unfold deploy_metadata_flags. intros Hin.
    repeat (apply elem_of_cons in Hin as [Hin|Hin]; [discriminate|]).
    by apply elem_of_nil in Hin.
  - unfold mint_token_flags. intros Hin.
    repeat (apply elem_of_cons in Hin as [Hin|Hin]; [discriminate|]).
    by apply elem_of_nil in Hin.
  - vm_compute. done.
Qed.

(** *** Runs in the sample environment *)

(** C1. In the sample environment [node mint-token.js --dry-run] ends
    with status 0 and writes no file, yet it has submitted [createMint]:
    the mint is created on chain before the dry run is looked at. *)
Lemma C1_mint_dry_run_creates_mint :
  let r := MintToken.script ["--dry-run"] Sample.env initial_world in
  r.1 = 0
  /\ filter network_mutation (calls_of (trace r.2))
     = [ createMint "MintAuthority11111" "MintAuthority11111" "FreezeAuthority1111"
           (JS.of_Z 9) ]
  /\ minted (trace r.2) = []
  /\ filter file_write (calls_of (trace r.2)) = []
  /\ map_to_list (files r.2) = [].
Proof. vm_compute. done. Qed.

(** C5. In the sample environment [node mint-token.js --amount 0] does
    not mint a single amount of 0: [0n] is falsy, so the plan is computed
    and its five allocations are minted.  Saving the results then throws,
    as it does in every full distribution, and the process ends with
    status 1. *)
Lemma C5_amount_zero_runs_full_distribution :
  let r := MintToken.script ["--amount"; "0"] Sample.env initial_world in
  minted (trace r.2) = [40000000; 30000000; 15000000; 10000000; 5000000]
  /\ plan_amounts (minter_of_supply (token_total_supply Sample.config))
     = [40000000; 30000000; 15000000; 10000000; 5000000]
  /\ JS.StringToBigInt "0" = Some 0
  /\ MintToken.given (Some 0) = false
  /\ r.1 = 1.
Proof. vm_compute. done. Qed.

(** C6. The token balance is compared as text: with 20 tokens required,
    a balance of [9] passes the prerequisites and the three steps run,
    while a balance of [100] is refused as insufficient. *)
Lemma C6_token_balance_compared_as_text :
  let poor := Sample.env_with_rpc (Sample.rpc_token_balance "9") in
  let rich := Sample.env_with_rpc (Sample.rpc_token_balance "100") in
  let r1 := CreateLiquidity.script [] poor initial_world in
  let r2 := CreateLiquidity.script [] rich initial_world in
  raydium_glowmin_amount Sample.config = 20
  /\ r1.1 = 0
  /\ errors_of (trace r1.2) = []
  /\ omap pool_step_started (trace r1.2) = [CreatePool; AddLiquidity; LockLiquidity]
  /\ r2.1 = 1
  /\ errors_of (trace r2.2)
     = [ [Str "❌ Insufficient GLOWMIN balance. Required: "; Big 20;
          Str ", Available: "; Str "100"] ]
  /\ omap pool_step_started (trace r2.2) = [].
Proof. vm_compute. done. Qed.

(** ** The allocation plan, as far as binary64 products are exact *)




(** ** Continue-on-error in the distribution *)

(** C3. In a run of the mint script with a supply of 100000000 in which
    only the mint of the third step fails, the loop does go on: each of
    the five allocations gets its token account and its [mintTo], the
    third alone is answered by an error, which is printed for that step.
    But the run does not complete: serialising the results throws on the
    BigInt amounts, after the deployments directory was created, so that
    no record is written, the mint authority is not revoked and the
    process ends with status 1. *)
Lemma C3_distribution_record_is_never_written :
  let r := MintToken.script [] (Sample.env_with_rpc (Sample.rpc_failing_mint 15000000))
             initial_world in
  filter network_mutation (calls_of (trace r.2))
  = [ createMint "MintAuthority11111" "MintAuthority11111" "FreezeAuthority1111"
        (JS.of_Z 9);
      getOrCreateAssociatedTokenAccount (Some "MintAuthority11111")
        (Some "Mint1111111111111") "MintAuthority11111";
      mintTo (Some "MintAuthority11111") (Some "Mint1111111111111")
        "TokenAccount111111" (Some "MintAuthority11111") 40000000;
      getOrCreateAssociatedTokenAccount (Some "MintAuthority11111")
        (Some "Mint1111111111111") "MintAuthority11111";
      mintTo (Some "MintAuthority11111") (Some "Mint1111111111111")
        "TokenAccount111111" (Some "MintAuthority11111") 30000000;
      getOrCreateAssociatedTokenAccount (Some "MintAuthority11111")
        (Some "Mint1111111111111") "MintAuthority11111";
      mintTo (Some "MintAuthority11111") (Some "Mint1111111111111")
        "TokenAccount111111" (Some "MintAuthority11111") 15000000;
      getOrCreateAssociatedTokenAccount (Some "MintAuthority11111")
        (Some "Mint1111111111111") "MintAuthority11111";
      mintTo (Some "MintAuthority11111") (Some "Mint1111111111111")
        "TokenAccount111111" (Some "MintAuthority11111") 10000000;
      getOrCreateAssociatedTokenAccount (Some "MintAuthority11111")
        (Some "Mint1111111111111") "MintAuthority11111";
      mintTo (Some "MintAuthority11111") (Some "Mint1111111111111")
        "TokenAccount111111" (Some "MintAuthority11111") 5000000 ]
  /\ errors_of (trace r.2)
     = [ [Str "❌ Failed to mint tokens to "; Str "MintAuthority11111"; Str ":";
          Str " "; Str "Transaction simulation failed"];
         [Str "❌ Failed to distribute "; Str "Team"; Str ":"; Str " ";
          Str "Transaction simulation failed"];
         [Str "❌ Token minting failed:"; Str " ";
          Str "Do not know how to serialize a BigInt"] ]
  /\ filter file_write (calls_of (trace r.2)) = [mkdirSync "/opt/glowmin/deployments"]
  /\ map_to_list (files r.2) = []
  /\ r.1 = 1.
Proof. vm_compute. done. Qed.

(** ** Missing credentials *)

(** C7 (amended). When a key file is missing and the files present are
    well formed, [loadKeypairs] of mint-token.js and of deploy-metadata.js
    returns, without throwing or ending the process, a mapping that holds
    exactly the keys whose files exist.  A later phase that reads a missing
    key fails on the generic TypeError of reading [publicKey] of undefined
    and the process ends with status 1 without writing a file.  In
    mint-token.js, without the mint authority or the freeze authority,
    this happens before any call is submitted, and no error line names an
    authority.  In deploy-metadata.js, without the mint authority no
    instruction is submitted; without the metadata authority only, the one
    instruction is submitted with an undefined payer, unless the health
    check has failed before. *)
Theorem C7_missing_key_is_omitted_and_fails_late (env : Env) (verbose : bool)
    (w : World) (this : MintToken.TokenMinter)
    (deployer : DeployMetadata.MetadataDeployer) (amount : option Z)
    (dryRun : bool) (fs : gmap string record_data) (dir : string -> bool)
    (tk : nat) :
  readable (env_keyfile env "../keypairs/mint-authority.json") ->
  readable (env_keyfile env "../keypairs/freeze-authority.json") ->
  readable (env_keyfile env "../keypairs/metadata-authority.json") ->
  MintToken.keypairs this !! "mintAuthority" = None
  \/ MintToken.keypairs this !! "freezeAuthority" = None ->
  DeployMetadata.keypairs deployer !! "mintAuthority" = None
  \/ DeployMetadata.keypairs deployer !! "metadataAuthority" = None ->
  (exists kps w',
      MintToken.loadKeypairs verbose env w = (Ret kps, w')
      /\ kps !! "mintAuthority"
         = loaded_key (env_keyfile env "../keypairs/mint-authority.json")
      /\ kps !! "freezeAuthority"
         = loaded_key (env_keyfile env "../keypairs/freeze-authority.json")
      /\ same_store w w')
  /\ (exists kps w',
        DeployMetadata.loadKeypairs verbose env w = (Ret kps, w')
        /\ kps !! "mintAuthority"
           = loaded_key (env_keyfile env "../keypairs/mint-authority.json")
        /\ kps !! "metadataAuthority"
           = loaded_key (env_keyfile env "../keypairs/metadata-authority.json")
        /\ same_store w w')
  /\ (let r := run_script (MintToken.executeMinting this amount dryRun) env
                 (fresh_world fs dir tk) in
      r.1 = 1
      /\ calls_of (trace r.2) = []
      /\ files r.2 = fs
      /\ errors_of (trace r.2)
         = ([ [Str "❌ Failed to create token mint:"; Str " ";
               Str (JS.TypeError_undefined "publicKey")];
              [Str "❌ Token minting failed:"; Str " ";
               Str (JS.TypeError_undefined "publicKey")] ]
            ++ (if MintToken.verbose this
                then [ [Str "Full error details:"; Str " ";
                        Obj (JS.TypeError_undefined "publicKey")] ]
                else []))%list
      /\ existsb (mentions "Authority") (errors_of (trace r.2)) = false
      /\ existsb (mentions "authority") (errors_of (trace r.2)) = false)
  /\ (let r := run_script (DeployMetadata.deployMetadata deployer false) env
                 (fresh_world fs dir tk) in
      let instructions := filter network_mutation (calls_of (trace r.2)) in
      r.1 = 1
      /\ filter file_write (calls_of (trace r.2)) = []
      /\ files r.2 = fs
      /\ match DeployMetadata.keypairs deployer !! "mintAuthority" with
         | None => instructions = []
         | Some kp =>
             instructions = []
             \/ instructions
                = [ createMetadataAccountV3 None (publicKey kp)
                      (md_name (DeployMetadata.metadata deployer))
                      (md_symbol (DeployMetadata.metadata deployer))
                      (DeployMetadata.metadataUri deployer) ]
         end).
Proof.
  intros H1 H2 H3 Hk Hd. split; [by apply MintToken_loadKeypairs_partial|].
  split; [by apply DeployMetadata_loadKeypairs_partial|].
  split; [by apply executeMinting_without_authority|].
  by apply deployMetadata_without_authority.
Qed.

Lemma C7_witness :
  (exists kps w',
      MintToken.loadKeypairs false Sample.env_without_mint_authority initial_world
      = (Ret kps, w')
      /\ kps !! "mintAuthority" = None
      /\ kps !! "freezeAuthority" = Some {| publicKey := "FreezeAuthority1111" |}
      /\ same_store initial_world w')
  /\ (run_script (MintToken.executeMinting Sample.minter_without_mint_authority
                    None false)
        Sample.env_without_mint_authority (fresh_world ∅ (fun _ => false) 0)).1 = 1
  /\ (run_script (DeployMetadata.deployMetadata
                    Sample.deployer_without_metadata_authority false)
        Sample.env_without_mint_authority (fresh_world ∅ (fun _ => false) 0)).1 = 1.
Proof.
  pose proof (C7_missing_key_is_omitted_and_fails_late
                Sample.env_without_mint_authority false initial_world
                Sample.minter_without_mint_authority
                Sample.deployer_without_metadata_authority None false ∅
                (fun _ => false) 0%nat
                I I I ltac:(left; vm_compute; reflexivity)
                ltac:(right; vm_compute; reflexivity))
    as (Hload & _ & Hrun & Hdep).
  split; [exact Hload|]. split; [exact (proj1 Hrun)|exact (proj1 Hdep)].
Defined.

(** ** Deployment records *)



(** * What a run never does *)

(** ** Events a script is confined to *)

Lemma confined_silent {A} (P : event -> bool) (m : M A) :
  (forall env w, (m env w).2 = w) -> confined P m.
Proof.
  intros H env w. exists []. rewrite H, app_nil_r. done.
Qed.

Lemma confined_ret {A} P (a : A) : confined P (mret a).
Proof. by apply confined_silent. Qed.

Lemma confined_throw {A} P e : confined P (@throw A e).
Proof. by apply confined_silent. Qed.

Lemma confined_exit {A} P c : confined P (@exit A c).
Proof. by apply confined_silent. Qed.

Lemma confined_lift {A} P (r : result A) : confined P (lift r).
Proof. apply confined_silent. intros env w. by destruct r. Qed.

Lemma confined_publicKey_of P k : confined P (publicKey_of k).
Proof. apply confined_lift. Qed.

Lemma confined_readConfig P : confined P readConfig.
Proof. apply confined_silent. intros env w. unfold readConfig. by destruct (env_config env). Qed.

Lemma confined_readMetadata P : confined P readMetadata.
Proof. apply confined_silent. intros env w. unfold readMetadata. by destruct (env_metadata env). Qed.

Lemma confined_load_keyfile P p : confined P (load_keyfile p).
Proof. apply confined_silent. intros env w. unfold load_keyfile. by destruct (env_keyfile env p). Qed.

Lemma confined_existsSync P p : confined P (fs_existsSync p).
Proof. by apply confined_silent. Qed.

Lemma confined_dirname P : confined P __dirname.
Proof. by apply confined_silent. Qed.

Lemma confined_Date_now P : confined P Date_now.
Proof. intros env w. exists []. cbn. rewrite app_nil_r. done. Qed.

Lemma confined_emit P (e : event) :
  P e = true -> is_write e = false -> confined P (emit e).
Proof.
  intros HP Hw env w. exists [e]. cbn. rewrite HP, Hw. done.
Qed.

Lemma confined_log P l : P (Log l) = true -> confined P (log l).
Proof. intros. by apply confined_emit. Qed.

Lemma confined_log_error P l : P (LogError l) = true -> confined P (log_error l).
Proof. intros. by apply confined_emit. Qed.

Lemma confined_sleep P ms : P (Sleep ms) = true -> confined P (sleep ms).
Proof. intros. by apply confined_emit. Qed.

Lemma confined_do_call P (c : call) : P (Call c) = true -> confined P (do_call c).
Proof.
  intros HP env w. exists [Call c]. unfold do_call.
  destruct (env_rpc env (trace w) c); cbn; rewrite HP; repeat split; done.
Qed.

Lemma confined_bind {A B} P (m : M A) (k : A -> M B) :
  confined P m -> (forall a, confined P (k a)) -> confined P (m ≫= k).
Proof.
  intros Hm Hk env w. destruct (Hm env w) as (ev1 & Ht1 & HP1 & Hf1).
  unfold mbind, M_bind. destruct (m env w) as [[a|e|c] w1]; cbn [snd] in *.
  - destruct (Hk a env w1) as (ev2 & Ht2 & HP2 & Hf2).
    exists (ev1 ++ ev2)%list. rewrite Ht2, Ht1, app_assoc, forallb_app, HP1, HP2.
    split; [done|]. split; [done|]. intros H. rewrite existsb_app in H.
    apply orb_false_elim in H as [H1 H2].
    destruct (Hf1 H1) as [E1 E2], (Hf2 H2) as [E3 E4]. split; congruence.
  - exists ev1. done.
  - exists ev1. done.
Qed.

Lemma confined_try_catch {A} P (m : M A) (h : string -> M A) :
  confined P m -> (forall e, confined P (h e)) -> confined P (try_catch m h).
Proof.
  intros Hm Hh env w. destruct (Hm env w) as (ev1 & Ht1 & HP1 & Hf1).
  unfold try_catch. destruct (m env w) as [[a|e|c] w1]; cbn [snd] in *.
  - exists ev1. done.
  - destruct (Hh e env w1) as (ev2 & Ht2 & HP2 & Hf2).
    exists (ev1 ++ ev2)%list. rewrite Ht2, Ht1, app_assoc, forallb_app, HP1, HP2.
    split; [done|]. split; [done|]. intros H. rewrite existsb_app in H.
    apply orb_false_elim in H as [H1 H2].
    destruct (Hf1 H1) as [E1 E2], (Hf2 H2) as [E3 E4]. split; congruence.
  - exists ev1. done.
Qed.

Lemma confined_when P (b : bool) (m : M unit) : confined P m -> confined P (when b m).
Proof. intros. destruct b; [done|apply confined_ret]. Qed.

Lemma confined_modify_after_write P (c : call) (f : World -> World) :
  P (Call c) = true -> file_write c = true ->
  (forall w, trace (f w) = trace w) ->
  confined P (do_call c;; modify f).
Proof.
  intros HP Hw Hf env w. exists [Call c]. unfold mbind, M_bind, do_call, modify.
  destruct (env_rpc env (trace w) c); cbn; rewrite ?Hf, HP, Hw; cbn; repeat split; done.
Qed.

Lemma confined_fs_mkdirSync P d : P (Call (mkdirSync d)) = true -> confined P (fs_mkdirSync d).
Proof. intros. by apply confined_modify_after_write. Qed.

Lemma confined_fs_writeFileSync P p data :
  P (Call (writeFileSync p data)) = true -> confined P (fs_writeFileSync p data).
Proof. intros. by apply confined_modify_after_write. Qed.

Lemma confined_weaken {A} (P Q : event -> bool) (m : M A) :
  (forall e, P e = true -> Q e = true) -> confined P m -> confined Q m.
Proof.
  intros HPQ Hm env w. destruct (Hm env w) as (ev & Ht & HP & Hf).
  exists ev. repeat split; try done; try by apply Hf.
  apply forallb_forall. intros e He. apply HPQ.
  by eapply forallb_forall in HP.
Qed.

(** Walk through the text of a script. *)
Ltac confine_step :=
  lazymatch goal with
  | H : confined ?P ?m |- confined ?P ?m => exact H
  | |- confined _ (mbind _ _) => apply confined_bind; [|intros ?]
  | |- confined _ (try_catch _ _) => apply confined_try_catch; [|intros ?]
  | |- confined _ (when _ _) => apply confined_when
  | |- confined _ (mret _) => apply confined_ret
  | |- confined _ (throw _) => apply confined_throw
  | |- confined _ (exit _) => apply confined_exit
  | |- confined _ (lift _) => apply confined_lift
  | |- confined _ (publicKey_of _) => apply confined_publicKey_of
  | |- confined _ readConfig => apply confined_readConfig
  | |- confined _ readMetadata => apply confined_readMetadata
  | |- confined _ (load_keyfile _) => apply confined_load_keyfile
  | |- confined _ (fs_existsSync _) => apply confined_existsSync
  | |- confined _ __dirname => apply confined_dirname
  | |- confined _ Date_now => apply confined_Date_now
  | |- confined _ (log _) => apply confined_log; reflexivity
  | |- confined _ (log_error _) => apply confined_log_error; reflexivity
  | |- confined _ (sleep _) => apply confined_sleep; reflexivity
  | |- confined ?P (do_call ?c) => exact (confined_do_call P c eq_refl)
  | |- confined _ (fs_mkdirSync _) => apply confined_fs_mkdirSync; reflexivity
  | |- confined _ (fs_writeFileSync _ _) => apply confined_fs_writeFileSync; reflexivity
  | |- confined _ (match ?x with _ => _ end) => destruct x
  end.

Lemma returns_ret {A} (Q : A -> Prop) (a : A) : Q a -> returns Q (mret a).
Proof. intros H env w a' w' [= <- _]. done. Qed.

Lemma returns_bind {A B} (Q1 : A -> Prop) (Q : B -> Prop) (m : M A) (k : A -> M B) :
  returns Q1 m -> (forall a, Q1 a -> returns Q (k a)) -> returns Q (m ≫= k).
Proof.
  intros Hm Hk env w b w'. unfold mbind, M_bind.
  destruct (m env w) as [[a|e|c] w1] eqn:E; [|done..].
  intros H. eapply Hk; [|exact H]. eapply Hm, E.
Qed.

Lemma returns_exit {A} (Q : A -> Prop) c : returns Q (exit c).
Proof. intros env w a w'. done. Qed.

Lemma returns_throw {A} (Q : A -> Prop) e : returns Q (throw e).
Proof. intros env w a w'. done. Qed.

Lemma confined_bind_returns {A B} P (Q : A -> Prop) (m : M A) (k : A -> M B) :
  confined P m -> returns Q m -> (forall a, Q a -> confined P (k a)) ->
  confined P (m ≫= k).
Proof.
  intros Hm HQ Hk env w. destruct (Hm env w) as (ev1 & Ht1 & HP1 & Hf1).
  specialize (HQ env w).
  unfold mbind, M_bind. destruct (m env w) as [[a|e|c] w1]; cbn [snd] in *.
  - destruct (Hk a (HQ a w1 eq_refl) env w1) as (ev2 & Ht2 & HP2 & Hf2).
    exists (ev1 ++ ev2)%list. rewrite Ht2, Ht1, app_assoc, forallb_app, HP1, HP2.
    split; [done|]. split; [done|]. intros H. rewrite existsb_app in H.
    apply orb_false_elim in H as [H1 H2].
    destruct (Hf1 H1) as [E1 E2], (Hf2 H2) as [E3 E4]. split; congruence.
  - exists ev1. done.
  - exists ev1. done.
Qed.

Lemma confined_log_keypairs P keys kps :
  (forall l, P (Log l) = true) -> confined P (log_keypairs keys kps).
Proof.
  intros HP. induction keys as [|k keys IH]; cbn [log_keypairs]; [apply confined_ret|].
  apply confined_bind; [|intros _; exact IH].
  destruct (kps !! k); [apply confined_log, HP|apply confined_ret].
Qed.

Lemma confined_showDistributions P this index ds :
  (forall l, P (Log l) = true) -> confined P (MintToken.showDistributions this index ds).
Proof.
  intros HP. revert index.
  induction ds as [|d ds IH]; intros index; cbn [MintToken.showDistributions];
    [apply confined_ret|].
  repeat (apply confined_bind; [apply confined_log, HP|intros _]). apply IH.
Qed.

Ltac confine_call :=
  match goal with
  | |- confined ?P (do_call ?c) => apply (confined_do_call P c)
  end.

Ltac confine :=
  repeat first
    [ confine_step
    | lazymatch goal with
      | |- confined _ (log_keypairs _ _) => apply confined_log_keypairs; by intros
      | |- confined _ (MintToken.showDistributions _ _ _) =>
          apply confined_showDistributions; by intros
      end ].

(** A run that only produced read-only events wrote nothing. *)
Lemma read_only_no_write (events : list event) :
  forallb read_only events = true -> existsb is_write events = false.
Proof.
  induction events as [|e events IH]; [done|]. cbn. intros [H1 H2]%andb_prop.
  rewrite IH by done. destruct e as [c| | |]; try done. cbn in H1 |- *.
  destruct (file_write c); [|done]. by rewrite andb_false_r in H1.
Qed.

Lemma dry_mint_no_write (events : list event) :
  forallb dry_mint_event events = true -> existsb is_write events = false.
Proof.
  induction events as [|e events IH]; [done|]. cbn. intros [H1 H2]%andb_prop.
  rewrite IH by done. destruct e as [c| | |]; try done. cbn in H1 |- *.
  destruct (file_write c); [|done]. done.
Qed.

(** The events of a whole script, from those of its [main()]. *)
Lemma run_script_confined P (m : M unit) (env : Env) (w : World) :
  confined P m -> (forall l, P (LogError l) = true) ->
  exists events,
    trace (run_script m env w).2 = (trace w ++ events)%list
    /\ forallb P events = true
    /\ (existsb is_write events = false ->
        files (run_script m env w).2 = files w
        /\ deployments_dir (run_script m env w).2 = deployments_dir w).
Proof.
  intros Hm HP. unfold run_script.
  set (m' := try_catch m _).
  assert (confined P m') as Hm'.
  { apply confined_try_catch; [done|]. intros e.
    apply confined_bind; [apply confined_log_error, HP|intros _; apply confined_exit]. }
  destruct (Hm' env w) as (events & Ht & HPe & Hf). exists events.
  destruct (m' env w) as [[a|e|c] w1]; done.
Qed.

(** ** The three constructors read, connect and print, nothing else. *)

Lemma confined_createConnection P network verbose config :
  (forall l, P (Log l) = true) -> (forall l, P (LogError l) = true) ->
  (forall url, P (Call (Connection_new url)) = true) ->
  confined P (createConnection network verbose config).
Proof.
  intros HL HE HC. unfold createConnection. destruct (cfg_network config !! network).
  - apply confined_bind; [apply confined_do_call, HC|intros _].
    apply confined_bind; [|intros _; apply confined_ret].
    apply confined_when.
    apply confined_bind; [apply confined_log, HL|intros _]. apply confined_log, HL.
  - apply confined_bind; [apply confined_log_error, HE|intros _; apply confined_exit].
Qed.

Ltac confine_new :=
  repeat first
    [ progress confine
    | lazymatch goal with
      | |- confined _ (createConnection _ _ _) =>
          apply confined_createConnection; by intros
      end ].

Lemma confined_DeployMetadata_new network verbose :
  confined read_only (DeployMetadata.new network verbose).
Proof.
  unfold DeployMetadata.new, DeployMetadata.loadConfig, DeployMetadata.loadMetadata,
    DeployMetadata.loadKeypairs.
  confine_new.
Qed.

Lemma confined_CreateLiquidity_new network verbose :
  confined read_only (CreateLiquidity.new network verbose).
Proof.
  unfold CreateLiquidity.new, CreateLiquidity.loadConfig, CreateLiquidity.loadKeypairs.
  confine_new.
Qed.

Lemma confined_MintToken_new network verbose :
  confined read_only (MintToken.new network verbose).
Proof.
  unfold MintToken.new, MintToken.loadConfig, MintToken.loadKeypairs.
  confine_new.
Qed.

(** ** deploy-metadata.js *)

Lemma confined_checkNetworkHealth this :
  confined read_only (DeployMetadata.checkNetworkHealth this).
Proof. unfold DeployMetadata.checkNetworkHealth. confine. Qed.

Lemma confined_showDeploymentPlan this :
  confined read_only (DeployMetadata.showDeploymentPlan this).
Proof. unfold DeployMetadata.showDeploymentPlan. confine. Qed.

Lemma confined_deployMetadata_dry_run this :
  confined read_only (DeployMetadata.deployMetadata this true).
Proof.
  unfold DeployMetadata.deployMetadata.
  pose proof (confined_checkNetworkHealth this).
  pose proof (confined_showDeploymentPlan this).
  confine.
Qed.

Lemma DeployMetadata_parse_loop_dry_run (n : nat) :
  forall args options,
  (length args <= n)%nat -> DeployMetadata.opt_dryRun options = true ->
  returns (fun o => DeployMetadata.opt_dryRun o = true)
          (DeployMetadata.parse_loop options args)
  /\ confined read_only (DeployMetadata.parse_loop options args).
Proof.
  induction n as [|n IH]; intros [|arg rest] options Hlen Hdry; cbn in Hlen;
    try lia; try (split; [by apply returns_ret|apply confined_ret]).
  cbn [DeployMetadata.parse_loop].
  destruct (String.eqb arg "--network").
  { destruct rest as [|value rest]; cbn in Hlen.
    - split; [by apply returns_ret|apply confined_ret].
    - apply IH; [lia|done]. }
  destruct (String.eqb arg "--dry-run"); [apply IH; [lia|done]|].
  destruct (String.eqb arg "--verbose"); [apply IH; [lia|done]|].
  destruct (String.eqb arg "--help").
  { split; [|confine]. apply (returns_bind (fun _ => True)); [done|].
    intros; apply returns_exit. }
  apply IH; [lia|done].
Qed.

(** X1. Whatever the environment, the world it starts from and the arguments
    that follow, [node deploy-metadata.js --dry-run ...] only reads and
    prints: no call it makes is an instruction that changes the chain or a
    write to the file system, and the files and the deployments directory
    are left as they were. *)
Theorem DeployMetadata_dry_run_changes_nothing (args : list string) (env : Env)
    (w : World) :
  let r := DeployMetadata.script ("--dry-run" :: args) env w in
  exists events,
    trace r.2 = (trace w ++ events)%list
    /\ forallb read_only events = true
    /\ files r.2 = files w
    /\ deployments_dir r.2 = deployments_dir w.
Proof.
  cbv zeta. unfold DeployMetadata.script.
  destruct (run_script_confined read_only (DeployMetadata.main ("--dry-run" :: args)) env w)
    as (events & Ht & HP & Hf); [|done|].
  { unfold DeployMetadata.main, DeployMetadata.parseArgs.
    change (DeployMetadata.parse_loop _ ("--dry-run" :: args))
      with (DeployMetadata.parse_loop
              {| DeployMetadata.opt_network := Some "devnet";
                 DeployMetadata.opt_dryRun := true;
                 DeployMetadata.opt_verbose := false |} args).
    destruct (DeployMetadata_parse_loop_dry_run (length args) args
                {| DeployMetadata.opt_network := Some "devnet";
                   DeployMetadata.opt_dryRun := true;
                   DeployMetadata.opt_verbose := false |}) as [Hr Hc]; [done..|].
    eapply confined_bind_returns; [exact Hc|exact Hr|].
    intros o Ho. rewrite Ho.
    pose proof (confined_DeployMetadata_new (DeployMetadata.opt_network o)
                  (DeployMetadata.opt_verbose o)).
    confine. apply confined_deployMetadata_dry_run. }
  exists events. destruct (Hf (read_only_no_write _ HP)). done.
Qed.

(** ** create-liquidity.js *)

Lemma confined_checkPrerequisites this :
  confined read_only (CreateLiquidity.checkPrerequisites this).
Proof.
  unfold CreateLiquidity.checkPrerequisites, CreateLiquidity.checkMint,
    CreateLiquidity.checkSolBalance, CreateLiquidity.checkTokenBalance.
  confine.
Qed.

Lemma confined_showCreationPlan this solAmount :
  confined read_only (CreateLiquidity.showCreationPlan this solAmount).
Proof. unfold CreateLiquidity.showCreationPlan. confine. Qed.

Lemma confined_executePoolCreation_dry_run this solAmount :
  confined read_only (CreateLiquidity.executePoolCreation this solAmount true).
Proof.
  unfold CreateLiquidity.executePoolCreation.
  pose proof (confined_checkPrerequisites this).
  pose proof (confined_showCreationPlan this solAmount).
  confine.
Qed.

Lemma CreateLiquidity_parse_loop_dry_run (n : nat) :
  forall args options,
  (length args <= n)%nat -> CreateLiquidity.opt_dryRun options = true ->
  returns (fun o => CreateLiquidity.opt_dryRun o = true)
          (CreateLiquidity.parse_loop options args)
  /\ confined read_only (CreateLiquidity.parse_loop options args).
Proof.
  induction n as [|n IH]; intros [|arg rest] options Hlen Hdry; cbn in Hlen;
    try lia; try (split; [by apply returns_ret|apply confined_ret]).
  cbn [CreateLiquidity.parse_loop].
  destruct (String.eqb arg "--network").
  { destruct rest as [|value rest]; cbn in Hlen.
    - split; [by apply returns_ret|apply confined_ret].
    - apply IH; [lia|done]. }
  destruct (String.eqb arg "--sol-amount").
  { destruct rest as [|value rest]; cbn in Hlen.
    - split; [by apply returns_ret|apply confined_ret].
    - apply IH; [lia|done]. }
  destruct (String.eqb arg "--dry-run"); [apply IH; [lia|done]|].
  destruct (String.eqb arg "--verbose"); [apply IH; [lia|done]|].
  destruct (String.eqb arg "--help").
  { split; [|confine]. apply (returns_bind (fun _ => True)); [done|].
    intros; apply returns_exit. }
  apply IH; [lia|done].
Qed.

(** X2. Whatever the environment, the world it starts from and the arguments
    that follow, [node create-liquidity.js --dry-run ...] only reads and
    prints: no call it makes is an instruction that changes the chain or a
    write to the file system, and the files and the deployments directory
    are left as they were. *)
Theorem CreateLiquidity_dry_run_changes_nothing (args : list string) (env : Env)
    (w : World) :
  let r := CreateLiquidity.script ("--dry-run" :: args) env w in
  exists events,
    trace r.2 = (trace w ++ events)%list
    /\ forallb read_only events = true
    /\ files r.2 = files w
    /\ deployments_dir r.2 = deployments_dir w.
Proof.
  cbv zeta. unfold CreateLiquidity.script.
  destruct (run_script_confined read_only (CreateLiquidity.main ("--dry-run" :: args)) env w)
    as (events & Ht & HP & Hf); [|done|].
  { unfold CreateLiquidity.main, CreateLiquidity.parseArgs.
    change (CreateLiquidity.parse_loop _ ("--dry-run" :: args))
      with (CreateLiquidity.parse_loop
              {| CreateLiquidity.opt_network := Some "devnet";
                 CreateLiquidity.opt_solAmount := None;
                 CreateLiquidity.opt_dryRun := true;
                 CreateLiquidity.opt_verbose := false |} args).
    destruct (CreateLiquidity_parse_loop_dry_run (length args) args
                {| CreateLiquidity.opt_network := Some "devnet";
                   CreateLiquidity.opt_solAmount := None;
                   CreateLiquidity.opt_dryRun := true;
                   CreateLiquidity.opt_verbose := false |}) as [Hr Hc]; [done..|].
    eapply confined_bind_returns; [exact Hc|exact Hr|].
    intros o Ho. rewrite Ho.
    pose proof (confined_CreateLiquidity_new (CreateLiquidity.opt_network o)
                  (CreateLiquidity.opt_verbose o)).
    confine. apply confined_executePoolCreation_dry_run. }
  exists events. destruct (Hf (read_only_no_write _ HP)). done.
Qed.

(** ** mint-token.js *)

Lemma read_only_dry_mint (e : event) : read_only e = true -> dry_mint_event e = true.
Proof.
  destruct e as [c| | |]; try done. cbn. intros [H1 H2]%andb_prop.
  rewrite H1, H2. done.
Qed.

Lemma confined_createTokenMint this :
  confined dry_mint_event (MintToken.createTokenMint this).
Proof. unfold MintToken.createTokenMint. confine. Qed.

Lemma confined_distributeTokens_dry_run this :
  confined dry_mint_event (MintToken.distributeTokens this true).
Proof.
  unfold MintToken.distributeTokens, MintToken.showDistributionPlan. confine.
Qed.

Lemma confined_executeMinting_dry_run this amount :
  MintToken.given amount = false ->
  confined dry_mint_event (MintToken.executeMinting this amount true).
Proof.
  intros Hg. unfold MintToken.executeMinting. rewrite Hg. cbn [negb andb when].
  pose proof (confined_createTokenMint this).
  confine; apply confined_distributeTokens_dry_run.
Qed.

Lemma MintToken_parse_loop_dry_run (n : nat) :
  forall args options,
  (length args <= n)%nat -> ("--amount" ∉ args) ->
  MintToken.opt_dryRun options = true -> MintToken.opt_amount options = None ->
  returns (fun o => MintToken.opt_dryRun o = true /\ MintToken.opt_amount o = None)
          (MintToken.parse_loop options args)
  /\ confined read_only (MintToken.parse_loop options args).
Proof.
  induction n as [|n IH]; intros [|arg rest] options Hlen Hno Hdry Ham; cbn in Hlen;
    try lia; try (split; [by apply returns_ret|apply confined_ret]).
  apply not_elem_of_cons in Hno as [Hne Hno].
  cbn [MintToken.parse_loop].
  destruct (String.eqb arg "--network").
  { destruct rest as [|value rest]; cbn in Hlen.
    - split; [by apply returns_ret|apply confined_ret].
    - apply not_elem_of_cons in Hno as [_ Hno]. apply IH; [lia|done..]. }
  destruct (String.eqb_spec arg "--amount"); [done|].
  destruct (String.eqb arg "--dry-run"); [apply IH; [lia|done..]|].
  destruct (String.eqb arg "--verbose"); [apply IH; [lia|done..]|].
  destruct (String.eqb arg "--help").
  { split; [|confine]. apply (returns_bind (fun _ => True)); [done|].
    intros; apply returns_exit. }
  apply IH; [lia|done..].
Qed.

(** X3. When [--amount] is not among the arguments that follow,
    [node mint-token.js --dry-run ...] writes no file and submits no
    instruction other than [createMint]: it never creates a token account,
    never mints and never revokes the mint authority, in every
    environment. *)
Theorem MintToken_dry_run_only_creates_the_mint (args : list string) (env : Env)
    (w : World) :
  ("--amount" ∉ args) ->
  let r := MintToken.script ("--dry-run" :: args) env w in
  exists events,
    trace r.2 = (trace w ++ events)%list
    /\ forallb dry_mint_event events = true
    /\ files r.2 = files w
    /\ deployments_dir r.2 = deployments_dir w.
Proof.
  intros Hno. cbv zeta. unfold MintToken.script.
  destruct (run_script_confined dry_mint_event (MintToken.main ("--dry-run" :: args)) env w)
    as (events & Ht & HP & Hf); [|done|].
  { unfold MintToken.main, MintToken.parseArgs.
    change (MintToken.parse_loop _ ("--dry-run" :: args))
      with (MintToken.parse_loop
              {| MintToken.opt_network := Some "devnet";
                 MintToken.opt_amount := None;
                 MintToken.opt_dryRun := true;
                 MintToken.opt_verbose := false |} args).
    destruct (MintToken_parse_loop_dry_run (length args) args
                {| MintToken.opt_network := Some "devnet";
                   MintToken.opt_amount := None;
                   MintToken.opt_dryRun := true;
                   MintToken.opt_verbose := false |}) as [Hr Hc]; [done..|].
    eapply confined_bind_returns;
      [exact (confined_weaken _ _ _ read_only_dry_mint Hc)|exact Hr|].
    intros o [Ho1 Ho2]. rewrite Ho1, Ho2.
    pose proof (confined_weaken _ _ _ read_only_dry_mint
                  (confined_MintToken_new (MintToken.opt_network o)
                     (MintToken.opt_verbose o))).
    confine. by apply confined_executeMinting_dry_run. }
  exists events. destruct (Hf (dry_mint_no_write _ HP)). done.
Qed.

Lemma MintToken_dry_run_witness :
  ("--amount" ∉ ["--verbose"])
  /\ exists events,
       trace (MintToken.script ["--dry-run"; "--verbose"] Sample.env initial_world).2
       = (trace initial_world ++ events)%list
       /\ forallb dry_mint_event events = true.
Proof.
  assert ("--amount" ∉ ["--verbose"]) as H.
  { intros H. inversion H; subst. inversion H2. }
  split; [exact H|].
  destruct (MintToken_dry_run_only_creates_the_mint ["--verbose"] Sample.env
              initial_world H) as (events & Ht & HP & _).
  exists events. split; [exact Ht|exact HP].
Defined.

(** * What is minted *)

Lemma minted_app (a b : list event) : minted (a ++ b) = (minted a ++ minted b)%list.
Proof. unfold minted, calls_of. by rewrite !omap_app. Qed.

Lemma minted_no_mint (events : list event) :
  forallb no_mint events = true -> minted events = [].
Proof.
  induction events as [|e events IH]; [done|]. cbn. intros [H1 H2]%andb_prop.
  specialize (IH H2). unfold minted, calls_of in *. 
  destruct e as [c| | |]; cbn; try done. destruct c; cbn; try done.
Qed.

Lemma mints_confined {A} (m : M A) : confined no_mint m -> mints [] m.
Proof.
  intros H env w. destruct (H env w) as (events & Ht & HP & _).
  exists events. split; [done|]. by rewrite minted_no_mint.
Qed.

Lemma mints_weaken {A} (l l' : list Z) (m : M A) :
  l `sublist_of` l' -> mints l m -> mints l' m.
Proof.
  intros Hl H env w. destruct (H env w) as (events & Ht & Hs).
  exists events. split; [done|]. by etrans.
Qed.

Lemma mints_bind_returns {A B} (l1 l2 : list Z) (Q : A -> Prop) (m : M A)
    (k : A -> M B) :
  mints l1 m -> returns Q m -> (forall a, Q a -> mints l2 (k a)) ->
  mints (l1 ++ l2) (m ≫= k).
Proof.
  intros Hm HQ Hk env w. destruct (Hm env w) as (ev1 & Ht1 & Hs1).
  specialize (HQ env w).
  unfold mbind, M_bind. destruct (m env w) as [[a|e|c] w1]; cbn [snd] in *.
  - destruct (Hk a (HQ a w1 eq_refl) env w1) as (ev2 & Ht2 & Hs2).
    exists (ev1 ++ ev2)%list. rewrite Ht2, Ht1, app_assoc, minted_app.
    split; [done|]. by apply sublist_app.
  - exists ev1. split; [done|]. by apply sublist_inserts_r.
  - exists ev1. split; [done|]. by apply sublist_inserts_r.
Qed.

Lemma returns_True {A} (m : M A) : returns (fun _ => True) m.
Proof. done. Qed.

Lemma mints_bind {A B} (l1 l2 : list Z) (m : M A) (k : A -> M B) :
  mints l1 m -> (forall a, mints l2 (k a)) -> mints (l1 ++ l2) (m ≫= k).
Proof.
  intros Hm Hk. apply (mints_bind_returns l1 l2 (fun _ => True)); auto using returns_True.
Qed.

Lemma mints_try_catch {A} (l1 l2 : list Z) (m : M A) (h : string -> M A) :
  mints l1 m -> (forall e, mints l2 (h e)) -> mints (l1 ++ l2) (try_catch m h).
Proof.
  intros Hm Hh env w. destruct (Hm env w) as (ev1 & Ht1 & Hs1).
  unfold try_catch. destruct (m env w) as [[a|e|c] w1]; cbn [snd] in *.
  - exists ev1. split; [done|]. by apply sublist_inserts_r.
  - destruct (Hh e env w1) as (ev2 & Ht2 & Hs2).
    exists (ev1 ++ ev2)%list. rewrite Ht2, Ht1, app_assoc, minted_app.
    split; [done|]. by apply sublist_app.
  - exists ev1. split; [done|]. by apply sublist_inserts_r.
Qed.

Lemma mints_mintTo a b c d amount : mints [amount] (do_call (mintTo a b c d amount)).
Proof.
  intros env w. exists [Call (mintTo a b c d amount)]. unfold do_call.
  destruct (env_rpc env (trace w) _); done.
Qed.

Lemma confined_createTokenAccount P this owner :
  (forall l, P (Log l) = true) -> (forall l, P (LogError l) = true) ->
  (forall a b c, P (Call (getOrCreateAssociatedTokenAccount a b c)) = true) ->
  confined P (MintToken.createTokenAccount this owner).
Proof.
  intros HL HE HC. unfold MintToken.createTokenAccount.
  apply confined_try_catch.
  - apply confined_bind; [confine_call; apply HC|intros ?].
    apply confined_bind; [|intros _; apply confined_ret].
    apply confined_when.
    apply confined_bind; [apply confined_log, HL|intros _]. apply confined_log, HL.
  - intros e. apply confined_bind; [apply confined_log_error, HE|intros _].
    apply confined_throw.
Qed.

Lemma mints_mintTokens this to amount :
  mints [amount] (MintToken.mintTokens this to amount).
Proof.
  unfold MintToken.mintTokens.
  apply (mints_try_catch [amount] []).
  - apply (mints_bind [] [amount]).
    { apply mints_confined, confined_createTokenAccount; by intros. }
    intros tokenAccount. apply (mints_bind [amount] []); [apply mints_mintTo|].
    intros signature. apply mints_confined. confine.
  - intros e. apply mints_confined. confine.
Qed.

Lemma mints_distribute_loop this ds :
  forall acc, mints (map d_amount ds) (MintToken.distribute_loop this ds acc).
Proof.
  induction ds as [|d ds IH]; intros acc; cbn [MintToken.distribute_loop map].
  { apply mints_confined, confined_ret. }
  apply (mints_bind [d_amount d] (map d_amount ds)); [|intros results; apply IH].
  apply (mints_try_catch [d_amount d] []).
  - apply (mints_bind [] [d_amount d]); [apply mints_confined; confine|intros _].
    apply (mints_bind [] [d_amount d]); [apply mints_confined; confine|intros _].
    apply (mints_bind [] [d_amount d]); [apply mints_confined; confine|intros _].
    apply (mints_bind [d_amount d] []); [apply mints_mintTokens|intros result].
    apply mints_confined. confine.
  - intros e. apply mints_confined. confine.
Qed.

Lemma confined_write_record P what path data :
  (forall l, P (Log l) = true) -> (forall c, file_write c = true -> P (Call c) = true) ->
  confined P (write_record what path data).
Proof.
  intros HL HW. unfold write_record.
  apply confined_bind; [apply confined_existsSync|intros present].
  apply confined_bind; [apply confined_when, confined_fs_mkdirSync; by apply HW|intros _].
  apply confined_bind; [apply confined_lift|intros text].
  apply confined_bind; [apply confined_fs_writeFileSync; by apply HW|intros _].
  apply confined_log, HL.
Qed.

Lemma confined_saveDistributionResults P this results :
  (forall l, P (Log l) = true) -> (forall c, file_write c = true -> P (Call c) = true) ->
  confined P (MintToken.saveDistributionResults this results).
Proof.
  intros HL HW. unfold MintToken.saveDistributionResults.
  apply confined_bind; [apply confined_Date_now|intros timestamp].
  apply confined_bind; [destruct (MintToken.mintAddress this); confine|intros mint].
  apply confined_bind; [apply confined_Date_now|intros now].
  apply confined_bind; [apply confined_dirname|intros dirname].
  by apply confined_write_record.
Qed.

Lemma returns_lift {A} (r : result A) : returns (fun a => r = Ok a) (lift r).
Proof. intros env w a w'. unfold lift. destruct r; [|done]. by intros [= <- _]. Qed.

Lemma mints_distributeTokens this dryRun :
  mints (plan_amounts this) (MintToken.distributeTokens this dryRun).
Proof.
  unfold MintToken.distributeTokens.
  apply (mints_bind [] (plan_amounts this)); [apply mints_confined; confine|intros _].
  apply (mints_bind_returns [] (plan_amounts this)
           (fun ds => MintToken.calculateDistributions this = Ok ds)).
  { apply mints_confined; confine. }
  { apply returns_lift. }
  intros ds Hds. unfold plan_amounts. rewrite Hds. destruct dryRun.
  - eapply mints_weaken; [apply sublist_nil_l|]. apply mints_confined.
    unfold MintToken.showDistributionPlan. confine.
  - rewrite <- (app_nil_r (map d_amount ds)).
    apply (mints_bind (map d_amount ds) []); [apply mints_distribute_loop|].
    intros results. apply mints_confined.
    apply confined_bind; [|intros _; apply confined_ret].
    apply confined_saveDistributionResults; [done|]. by intros [].
Qed.

Lemma returns_try_catch {A} (Q : A -> Prop) (m : M A) (h : string -> M A) :
  returns Q m -> (forall e, returns Q (h e)) -> returns Q (try_catch m h).
Proof.
  intros Hm Hh env w a w'. unfold try_catch.
  destruct (m env w) as [[a1|e|c] w1] eqn:E; [| |done].
  - intros [= <- <-]. eapply Hm, E.
  - apply Hh.
Qed.

(** [createTokenMint] changes nothing of the object but its mint
    address. *)
Lemma returns_createTokenMint this :
  returns (fun r => MintToken.config r.1 = MintToken.config this
                    /\ MintToken.keypairs r.1 = MintToken.keypairs this)
          (MintToken.createTokenMint this).
Proof.
  unfold MintToken.createTokenMint. apply returns_try_catch.
  - repeat (eapply (returns_bind (fun _ => True)); [apply returns_True|intros ? _]).
    by apply returns_ret.
  - intros e. eapply (returns_bind (fun _ => True)); [apply returns_True|intros ? _].
    apply returns_throw.
Qed.

Lemma plan_amounts_ext this this' :
  MintToken.config this' = MintToken.config this ->
  MintToken.keypairs this' = MintToken.keypairs this ->
  plan_amounts this' = plan_amounts this.
Proof.
  intros H1 H2. unfold plan_amounts, MintToken.calculateDistributions.
  by rewrite H1, H2.
Qed.

Lemma dry_mint_event_no_mint (e : event) : dry_mint_event e = true -> no_mint e = true.
Proof. destruct e as [c| | |]; try done. by destruct c. Qed.

Lemma mints_executeMinting_plan this amount dryRun :
  MintToken.given amount = false ->
  mints (plan_amounts this) (MintToken.executeMinting this amount dryRun).
Proof.
  intros Hg. unfold MintToken.executeMinting. rewrite Hg.
  apply (mints_bind [] (plan_amounts this)); [apply mints_confined; confine|intros _].
  rewrite <- (app_nil_r (plan_amounts this)).
  apply (mints_try_catch (plan_amounts this) []).
  - apply (mints_bind_returns [] (plan_amounts this) _ _ _
             (mints_confined _ (confined_weaken dry_mint_event no_mint _
                                  dry_mint_event_no_mint
                                  (confined_createTokenMint this)))
             (returns_createTokenMint this)).
    intros [this' mint] [Hc Hk]. cbn [fst] in Hc, Hk.
    rewrite <- (plan_amounts_ext this this' Hc Hk).
    rewrite <- (app_nil_r (plan_amounts this')).
    apply (mints_bind (plan_amounts this') []).
    { rewrite <- (app_nil_r (plan_amounts this')).
      apply (mints_bind (plan_amounts this') []); [apply mints_distributeTokens|].
      intros _. apply mints_confined, confined_ret. }
    intros _. apply mints_confined. unfold MintToken.revokeMintAuthority. confine.
  - intros e. apply mints_confined. confine.
Qed.

Lemma sum_sublist (l1 l2 : list Z) :
  l1 `sublist_of` l2 -> Forall (fun x => 0 <= x) l2 -> 0 <= sum l1 <= sum l2.
Proof.
  induction 1 as [|x l1 l2 _ IH|x l1 l2 _ IH]; intros Hpos; [done|..];
    apply Forall_cons in Hpos as [Hx Hpos]; specialize (IH Hpos);
    unfold sum in *; cbn; lia.
Qed.

Lemma exact_share_nonneg (T p : Z) : 0 <= T -> 0 <= p -> 0 <= exact_share T p.
Proof. intros. unfold exact_share. apply Z.div_pos; lia. Qed.

Lemma mints_run_script (l : list Z) (m : M unit) (env : Env) (w : World) :
  mints l m ->
  exists events,
    trace (run_script m env w).2 = (trace w ++ events)%list
    /\ minted events `sublist_of` l.
Proof.
  intros Hm. unfold run_script. set (m' := try_catch m _).
  assert (mints l m') as Hm'.
  { rewrite <- (app_nil_r l). apply (mints_try_catch l []); [done|].
    intros e. apply mints_confined. confine. }
  destruct (Hm' env w) as (events & Ht & Hs). exists events.
  destruct (m' env w) as [[a|e|c] w1]; done.
Qed.

(** X5. For a total supply [T] with [0 <= T < 2 ^ 51] and no amount given,
    whatever the environment answers and whichever steps fail, the amounts
    that [executeMinting] mints are, in order, some of the five exact
    shares of [T], and they add up to at most [T]. *)
Theorem minting_never_exceeds_the_supply (this : MintToken.TokenMinter)
    (amount : option Z) (dryRun : bool) (T : Z) (env : Env) (w : World) :
  0 <= T < 2 ^ 51 ->
  token_total_supply (MintToken.config this) = JS.of_Z T ->
  MintToken.given amount = false ->
  let r := run_script (MintToken.executeMinting this amount dryRun) env w in
  exists events,
    trace r.2 = (trace w ++ events)%list
    /\ minted events `sublist_of` map (exact_share T) [40; 30; 15; 10; 5]
    /\ 0 <= sum (minted events) <= T.
Proof.
  intros HT Hsup Hg. cbv zeta.
  destruct (mints_run_script (plan_amounts this) _ env w
              (mints_executeMinting_plan this amount dryRun Hg))
    as (events & Ht & Hs).
  exists events. split; [done|].
  assert (plan_amounts this `sublist_of` map (exact_share T) [40; 30; 15; 10; 5]) as Hp.
  { unfold plan_amounts.
    destruct (MintToken.keypairs this !! "mintAuthority") as [kp|] eqn:Hk.
    - by rewrite (calculateDistributions_exact this kp T HT Hsup Hk).
    - unfold MintToken.calculateDistributions. rewrite Hk.
      cbv beta iota zeta delta [mbind result_bind get_publicKey].
      destruct (MintToken.allocation _ _); apply sublist_nil_l. }
  split; [by etrans|].
  assert (Forall (fun x => 0 <= x) (map (exact_share T) [40; 30; 15; 10; 5])) as Hpos.
  { repeat constructor; apply exact_share_nonneg; lia. }
  pose proof (sum_sublist _ _ (transitivity Hs Hp) Hpos) as Hsum.
  pose proof (exact_share_sum T) as Hex.
  unfold sum in *. cbn [map foldr] in Hsum. lia.
Qed.

Lemma minting_never_exceeds_the_supply_witness :
  0 <= 100000000 < 2 ^ 51
  /\ exists events,
       trace (run_script (MintToken.executeMinting (Sample.minter 100000000) None false)
                Sample.env initial_world).2
       = (trace initial_world ++ events)%list
       /\ 0 <= sum (minted events) <= 100000000.
Proof.
  assert (0 <= 100000000 < 2 ^ 51) as HT by lia.
  split; [exact HT|].
  destruct (minting_never_exceeds_the_supply (Sample.minter 100000000) None false
              100000000 Sample.env initial_world HT eq_refl eq_refl)
    as (events & Ht & _ & Hsum).
  exists events. split; [exact Ht|exact Hsum].
Defined.

(** ** A single amount *)

Lemma confined_mintTokens_keeps_authority this to amount :
  confined keeps_authority (MintToken.mintTokens this to amount).
Proof.
  unfold MintToken.mintTokens.
  pose proof (confined_createTokenAccount keeps_authority this to) as H.
  confine. by apply H.
Qed.

Lemma dry_mint_event_keeps_authority (e : event) :
  dry_mint_event e = true -> keeps_authority e = true.
Proof. destruct e as [c| | |]; try done. by destruct c. Qed.

Lemma keeps_authority_no_write (events : list event) :
  forallb keeps_authority events = true -> existsb is_write events = false.
Proof.
  induction events as [|e events IH]; [done|]. cbn. intros [H1 H2]%andb_prop.
  rewrite IH by done. destruct e as [c| | |]; try done. by destruct c.
Qed.

Lemma confined_executeMinting_amount this amount dryRun :
  MintToken.given amount = true ->
  confined keeps_authority (MintToken.executeMinting this amount dryRun).
Proof.
  intros Hg. unfold MintToken.executeMinting. rewrite Hg.
  rewrite andb_false_r. cbn [when].
  pose proof (confined_weaken _ _ _ dry_mint_event_keeps_authority
                (confined_createTokenMint this)).
  confine; apply confined_mintTokens_keeps_authority.
Qed.

Lemma mints_executeMinting_amount this n dryRun :
  n <> 0 ->
  mints [n] (MintToken.executeMinting this (Some n) dryRun).
Proof.
  intros Hn. unfold MintToken.executeMinting.
  assert (MintToken.given (Some n) = true) as ->.
  { cbn. by destruct (Z.eqb_spec n 0). }
  rewrite andb_false_r. cbn [when default from_option].
  apply (mints_bind [] [n]); [apply mints_confined; confine|intros _].
  apply (mints_try_catch [n] []).
  - apply (mints_bind [] [n]).
    { apply mints_confined, (confined_weaken dry_mint_event no_mint _
                               dry_mint_event_no_mint), confined_createTokenMint. }
    intros [this' mint].
    apply (mints_bind [n] []); [|intros _; apply mints_confined; confine].
    apply (mints_bind [] [n]); [apply mints_confined; confine|intros _].
    apply (mints_bind [] [n]); [apply mints_confined; confine|intros to].
    apply (mints_bind [n] []); [apply mints_mintTokens|intros result].
    apply mints_confined; confine.
  - intros e. apply mints_confined. confine.
Qed.

(** X4. With an amount other than zero, [executeMinting] submits at most one
    [mintTo], of exactly that amount; it never revokes the mint authority
    and never writes a record, whether or not a dry run was asked for. *)
Theorem amount_mints_once_and_keeps_the_authority (this : MintToken.TokenMinter)
    (n : Z) (dryRun : bool) (env : Env) (w : World) :
  n <> 0 ->
  let r := run_script (MintToken.executeMinting this (Some n) dryRun) env w in
  exists events,
    trace r.2 = (trace w ++ events)%list
    /\ (minted events = [] \/ minted events = [n])
    /\ forallb keeps_authority events = true
    /\ files r.2 = files w
    /\ deployments_dir r.2 = deployments_dir w.
Proof.
  intros Hn. cbv zeta.
  destruct (mints_run_script [n] _ env w (mints_executeMinting_amount this n dryRun Hn))
    as (events & Ht & Hs).
  destruct (run_script_confined keeps_authority
              (MintToken.executeMinting this (Some n) dryRun) env w)
    as (events' & Ht' & HP & Hf); [|done|].
  { apply confined_executeMinting_amount. cbn. by destruct (Z.eqb_spec n 0). }
  rewrite Ht in Ht'. apply app_inv_head in Ht' as <-.
  exists events. split; [done|].
  destruct (Hf (keeps_authority_no_write _ HP)) as [-> ->].
  repeat split; try done.
  apply sublist_cons_r in Hs as [Hs|(l & -> & Hs)].
  - left. by apply sublist_nil_r.
  - right. by apply sublist_nil_r in Hs as ->.
Qed.

Lemma amount_mints_once_witness :
  7 <> 0
  /\ exists events,
       trace (run_script (MintToken.executeMinting (Sample.minter 100000000) (Some 7) true)
                Sample.env initial_world).2
       = (trace initial_world ++ events)%list
       /\ (minted events = [] \/ minted events = [7]).
Proof.
  assert (7 <> 0) as Hn by discriminate.
  split; [exact Hn|].
  destruct (amount_mints_once_and_keeps_the_authority (Sample.minter 100000000) 7 true
              Sample.env initial_world Hn) as (events & Ht & Hm & _).
  exists events. split; [exact Ht|exact Hm].
Defined.

(** * Records and exit status *)

(** Run a script once, whatever the number of places its result is
    looked at. *)
Ltac run_once :=
  match goal with
  | |- context [run_script ?m ?e ?w] =>
      let r := fresh "r" in
      let E := fresh "E" in
      remember (run_script m e w) as r eqn:E; revert E
  end;
  run_all; intros ->.

(** X8. A run of [executePoolCreation] that is not a dry run ends in one of
    two ways.  Either the status is 0, no error line was printed and the
    files are those of the start plus one pool record, which holds the
    SOL and GLOWMIN amounts of the configuration whatever [--sol-amount]
    was; or the status is 1, an error line was printed and the files are
    unchanged. *)
Theorem pool_record_is_written_exactly_on_success (env : Env)
    (this : CreateLiquidity.LiquidityCreator) (solAmount : option JS.number)
    (fs : gmap string record_data) (dir : string -> bool) (tk : nat) :
  let r := run_script (CreateLiquidity.executePoolCreation this solAmount false) env
             (fresh_world fs dir tk) in
  (r.1 = 0
   /\ errors_of (trace r.2) = []
   /\ exists t0 t1 pool lockEnd,
        files r.2
        = <[record_path (env_dirname env) "pool" (CreateLiquidity.network this) t1 :=
              PoolRecord t0 (CreateLiquidity.network this) pool
                (raydium_sol_amount (CreateLiquidity.config this))
                (raydium_glowmin_amount (CreateLiquidity.config this))
                "TRANSACTION_SIGNATURE_PLACEHOLDER"
                "LOCK_TRANSACTION_SIGNATURE_PLACEHOLDER" lockEnd
                (raydium_program_id (CreateLiquidity.config this))]> fs)
  \/ (r.1 = 1 /\ errors_of (trace r.2) <> [] /\ files r.2 = fs).
Proof.
  destruct this. unfold fresh_world. cbv zeta.
  run_once.
  all: first
    [ right; split; [reflexivity|split; [discriminate|reflexivity]]
    | left; split; [reflexivity|split; [reflexivity|eauto 10]] ].
Qed.

(** X9. A run of [deployMetadata] that is not a dry run ends in one of two
    ways.  Either the status is 0, no error line was printed, both key
    pairs were loaded, [createMetadataAccountV3] is the one instruction
    submitted and the files are those of the start plus one metadata
    record naming the two public keys; or the status is 1, an error line
    was printed and the files are unchanged. *)
Theorem metadata_record_is_written_exactly_on_success (env : Env)
    (this : DeployMetadata.MetadataDeployer)
    (fs : gmap string record_data) (dir : string -> bool) (tk : nat) :
  let r := run_script (DeployMetadata.deployMetadata this false) env
             (fresh_world fs dir tk) in
  (r.1 = 0
   /\ errors_of (trace r.2) = []
   /\ exists t0 t1 account kpM kpU,
        DeployMetadata.keypairs this !! "mintAuthority" = Some kpM
        /\ DeployMetadata.keypairs this !! "metadataAuthority" = Some kpU
        /\ filter network_mutation (calls_of (trace r.2))
           = [ createMetadataAccountV3 (Some (publicKey kpU)) (publicKey kpM)
                 (md_name (DeployMetadata.metadata this))
                 (md_symbol (DeployMetadata.metadata this))
                 (DeployMetadata.metadataUri this) ]
        /\ files r.2
           = <[record_path (env_dirname env) "metadata" (DeployMetadata.network this) t1 :=
                 MetadataRecord t0 (DeployMetadata.network this) account
                   (publicKey kpM) (publicKey kpU)
                   (DeployMetadata.metadataUri this)]> fs)
  \/ (r.1 = 1 /\ errors_of (trace r.2) <> [] /\ files r.2 = fs).
Proof.
  destruct this. unfold fresh_world. cbv zeta.
  run_once.
  all: first
    [ right; split; [reflexivity|split; [discriminate|reflexivity]]
    | left; split; [reflexivity|split; [reflexivity|]];
      do 5 eexists; split; [reflexivity|split; [reflexivity|split; reflexivity]] ].
Qed.

(** ** Revoking the mint authority *)

Lemma keeps_authority_no_revocation (events : list event) :
  forallb keeps_authority events = true -> forallb no_revocation events = true.
Proof.
  induction events as [|e events IH]; [done|]. cbn. intros [H1 H2]%andb_prop.
  rewrite IH by done. destruct e as [c| | |]; try done. by destruct c.
Qed.

Lemma revocations_app (a b : list event) :
  revocations (a ++ b) = (revocations a ++ revocations b)%list.
Proof. unfold revocations, calls_of. by rewrite omap_app, filter_app. Qed.

Lemma revocations_keeps_authority (events : list event) :
  forallb keeps_authority events = true -> revocations events = [].
Proof.
  induction events as [|e events IH]; [done|]. cbn. intros [H1 H2]%andb_prop.
  specialize (IH H2). unfold revocations, calls_of in *.
  destruct e as [c| | |]; cbn; try done.
  destruct c; cbn in *; try done; rewrite filter_cons; cbn; done.
Qed.

Lemma confined_distribute_loop this ds :
  forall acc, confined keeps_authority (MintToken.distribute_loop this ds acc).
Proof.
  induction ds as [|d ds IH]; intros acc; cbn [MintToken.distribute_loop].
  { apply confined_ret. }
  apply confined_bind; [|intros results; apply IH].
  pose proof (confined_mintTokens_keeps_authority this (d_recipient d) (d_amount d)).
  confine.
Qed.

(** The loop as one step: it returns one entry per plan entry, appends
    events that neither revoke nor write, and leaves the store alone. *)
Lemma distribute_loop_run this ds acc env w :
  exists results events,
    MintToken.distribute_loop this ds acc env w
    = (Ret (acc ++ results)%list,
       {| trace := (trace w ++ events)%list; files := files w;
          deployments_dir := deployments_dir w; ticks := ticks w |})
    /\ map distribution results = ds
    /\ forallb keeps_authority events = true.
Proof.
  destruct (distribute_loop_total this ds acc env w)
    as (results & w' & E & Hmap & _ & Hf & Hd & Ht).
  destruct (confined_distribute_loop this ds acc env w) as (events & Htr & HP & _).
  rewrite E in Htr. cbn [snd] in Htr.
  exists results, events. rewrite E. destruct w' as [tr' fs' d' tk']. cbn in *.
  by subst.
Qed.

(** A plan that is computed has entries. *)
Lemma calculateDistributions_cons this ds :
  MintToken.calculateDistributions this = Ok ds -> exists d ds', ds = d :: ds'.
Proof.
  unfold MintToken.calculateDistributions.
  cbv beta iota zeta delta [mbind result_bind mret result_ret].
  repeat match goal with
    | |- context [match ?x with Ok _ => _ | Err _ => _ end] => destruct x; [|done]
    end.
  intros [= <-]. by eexists _, _.
Qed.

(** A distribution that is not a dry run throws: at the latest when its
    results are serialised.  It has not revoked the mint authority and it
    leaves the files as they are. *)
Lemma distributeTokens_run this env w :
  exists events w' e,
    MintToken.distributeTokens this false env w = (Throw e, w')
    /\ trace w' = (trace w ++ events)%list
    /\ forallb no_revocation events = true
    /\ files w' = files w.
Proof.
  unfold MintToken.distributeTokens.
  cbv beta iota zeta delta [mbind M_bind log emit lift].
  destruct (MintToken.calculateDistributions this) as [ds|e] eqn:Hds.
  2:{ eexists _, _, _. split; [reflexivity|]. split; [|split]; cycle 2.
      - reflexivity.
      - instantiate (1 := [_]). reflexivity.
      - reflexivity. }
  match goal with
  | |- context [MintToken.distribute_loop ?t ?l ?a ?e ?w] =>
      destruct (distribute_loop_run t l a e w) as (results & events & -> & Hmap & HP)
  end.
  apply keeps_authority_no_revocation in HP.
  destruct (calculateDistributions_cons this ds Hds) as (d & ds' & ->).
  destruct results as [|result results]; [done|].
  cbn [app trace files deployments_dir ticks].
  destruct this as [? ? ? ? ? [mint|]], w as [tr fs dir tk].
  all: unfold MintToken.saveDistributionResults; run_all.
  all: eexists _, _, _; (split; [reflexivity|]); (split; [|split]); cycle 2;
    [ reflexivity
    | cbn [trace]; rewrite <- ?app_assoc; reflexivity
    | rewrite ?forallb_app, HP; reflexivity ].
Qed.

Lemma revocations_no_revocation (events : list event) :
  forallb no_revocation events = true -> revocations events = [].
Proof.
  induction events as [|e events IH]; [done|]. cbn. intros [H1 H2]%andb_prop.
  specialize (IH H2). unfold revocations, calls_of in *.
  destruct e as [c| | |]; cbn; try done.
  destruct c; cbn in *; try done; rewrite filter_cons; cbn; done.
Qed.

Lemma revocations_log l : revocations [Log l] = [].
Proof. reflexivity. Qed.

Lemma revocations_log_error l : revocations [LogError l] = [].
Proof. reflexivity. Qed.

Lemma revocations_call c : revocations [Call c] = if is_revocation c then [c] else [].
Proof. by destruct c. Qed.

(** [calculateDistributions] does not read the mint address. *)
Lemma calculateDistributions_mintAddress n v c u k m m' :
  MintToken.calculateDistributions
    {| MintToken.network := n; MintToken.verbose := v; MintToken.config := c;
       MintToken.connection := u; MintToken.keypairs := k; MintToken.mintAddress := m |}
  = MintToken.calculateDistributions
      {| MintToken.network := n; MintToken.verbose := v; MintToken.config := c;
         MintToken.connection := u; MintToken.keypairs := k;
         MintToken.mintAddress := m' |}.
Proof. reflexivity. Qed.

Lemma errors_of_elem (l : line) (events : list event) :
  In (LogError l) events -> errors_of events <> [].
Proof.
  induction events as [|e events IH]; [done|]. intros [->|H]; [done|].
  unfold errors_of in *. cbn. destruct e; try done; by apply IH.
Qed.

(** X6. A full run of [executeMinting] (no amount, no dry run) never
    completes, whatever the environment answers: the process ends with
    status 1 after an error line, [setAuthority] is never submitted, so
    that the mint authority is never revoked, and the files are left as
    they are, so that no minting record is ever written. *)
Theorem full_distribution_never_completes (env : Env)
    (this : MintToken.TokenMinter) (amount : option Z)
    (fs : gmap string record_data) (dir : string -> bool) (tk : nat) :
  MintToken.given amount = false ->
  let r := run_script (MintToken.executeMinting this amount false) env
             (fresh_world fs dir tk) in
  r.1 = 1
  /\ errors_of (trace r.2) <> []
  /\ revocations (trace r.2) = []
  /\ files r.2 = fs.
Proof.
  intros Hg. destruct this. unfold fresh_world. cbv zeta.
  match goal with
  | |- context [run_script ?m ?e ?w] => remember (run_script m e w) as r eqn:E
  end.
  unfold MintToken.executeMinting in E. rewrite Hg in E. cbn [negb andb when] in E.
  remember MintToken.distributeTokens as D eqn:HD.
  revert E. run_all.
  all: subst D.
  all: try match goal with
    | |- context [MintToken.distributeTokens ?t false ?e ?w] =>
        destruct (distributeTokens_run t e w)
          as (events & [tr' fs' d' tk'] & err & -> & Htr & HP & Hfiles);
        cbn [trace files] in Htr, Hfiles; subst tr' fs';
        apply revocations_no_revocation in HP
    end.
  all: run_all.
  all: intros ->.
  all: cbn [fst snd trace files].
  all: rewrite ?revocations_app, ?HP, ?revocations_log, ?revocations_log_error,
         ?revocations_call; cbn [is_revocation app length].
  all: split; [reflexivity|].
  all: split; [|split; reflexivity].
  all: eapply errors_of_elem;
    repeat first [left; reflexivity | apply in_or_app; right | right].
Qed.

Lemma full_distribution_witness :
  MintToken.given None = false
  /\ (run_script (MintToken.executeMinting (Sample.minter 100000000) None false)
        Sample.env (fresh_world ∅ (fun _ => false) 0)).1 = 1.
Proof.
  split; [reflexivity|].
  exact (proj1 (full_distribution_never_completes Sample.env (Sample.minter 100000000)
                  None ∅ (fun _ => false) 0%nat eq_refl)).
Defined.

(** * Arguments *)

(** A closed text is none of the texts of a closed list. *)
Ltac not_listed :=
  let Hin := fresh "Hin" in
  cbv delta [value_flags]; intros Hin;
  repeat (apply elem_of_cons in Hin as [Hin|Hin]; [discriminate|]);
  by apply elem_of_nil in Hin.

Lemma MintToken_parse_loop_help (rest : list string) (env : Env) (w : World) :
  forall pre options,
  Forall (fun a => a ∉ value_flags) pre ->
  MintToken.parse_loop options (pre ++ "--help" :: rest) env w
  = (Exit 0, after w (Log [Str MintToken.usage])).
Proof.
  induction pre as [|a pre IH]; intros options Hpre; [reflexivity|].
  apply Forall_cons in Hpre as [Ha Hpre]. unfold value_flags in Ha.
  cbn [app MintToken.parse_loop].
  destruct (String.eqb_spec a "--network"); [set_solver|].
  destruct (String.eqb_spec a "--amount"); [set_solver|].
  repeat (destruct (String.eqb a _); [by apply IH|]). 
  destruct (String.eqb a "--help"); [reflexivity|]. by apply IH.
Qed.

Lemma CreateLiquidity_parse_loop_help (rest : list string) (env : Env) (w : World) :
  forall pre options,
  Forall (fun a => a ∉ value_flags) pre ->
  CreateLiquidity.parse_loop options (pre ++ "--help" :: rest) env w
  = (Exit 0, after w (Log [Str CreateLiquidity.usage])).
Proof.
  induction pre as [|a pre IH]; intros options Hpre; [reflexivity|].
  apply Forall_cons in Hpre as [Ha Hpre]. unfold value_flags in Ha.
  cbn [app CreateLiquidity.parse_loop].
  destruct (String.eqb_spec a "--network"); [set_solver|].
  destruct (String.eqb_spec a "--sol-amount"); [set_solver|].
  repeat (destruct (String.eqb a _); [by apply IH|]). 
  destruct (String.eqb a "--help"); [reflexivity|]. by apply IH.
Qed.

Lemma DeployMetadata_parse_loop_help (rest : list string) (env : Env) (w : World) :
  forall pre options,
  Forall (fun a => a ∉ value_flags) pre ->
  DeployMetadata.parse_loop options (pre ++ "--help" :: rest) env w
  = (Exit 0, after w (Log [Str DeployMetadata.usage])).
Proof.
  induction pre as [|a pre IH]; intros options Hpre; [reflexivity|].
  apply Forall_cons in Hpre as [Ha Hpre]. unfold value_flags in Ha.
  cbn [app DeployMetadata.parse_loop].
  destruct (String.eqb_spec a "--network"); [set_solver|].
  repeat (destruct (String.eqb a _); [by apply IH|]). 
  destruct (String.eqb a "--help"); [reflexivity|]. by apply IH.
Qed.

(** X11. In each of the three scripts, [--help] after arguments none of which
    is a flag that takes a value prints the usage text and ends the
    process with status 0: nothing is loaded, nothing is called, and what
    follows [--help] is not read. *)
Theorem help_prints_the_usage_and_exits (pre rest : list string) (env : Env)
    (w : World) :
  Forall (fun a => a ∉ value_flags) pre ->
  MintToken.script (pre ++ "--help" :: rest) env w
  = (0, after w (Log [Str MintToken.usage]))
  /\ CreateLiquidity.script (pre ++ "--help" :: rest) env w
     = (0, after w (Log [Str CreateLiquidity.usage]))
  /\ DeployMetadata.script (pre ++ "--help" :: rest) env w
     = (0, after w (Log [Str DeployMetadata.usage])).
Proof.
  intros Hpre. repeat split.
  - unfold MintToken.script, run_script, try_catch, MintToken.main,
      MintToken.parseArgs, mbind, M_bind.
    by rewrite MintToken_parse_loop_help.
  - unfold CreateLiquidity.script, run_script, try_catch, CreateLiquidity.main,
      CreateLiquidity.parseArgs, mbind, M_bind.
    by rewrite CreateLiquidity_parse_loop_help.
  - unfold DeployMetadata.script, run_script, try_catch, DeployMetadata.main,
      DeployMetadata.parseArgs, mbind, M_bind.
    by rewrite DeployMetadata_parse_loop_help.
Qed.

Lemma help_witness :
  Forall (fun a => a ∉ value_flags) ["--verbose"; "--fast"]
  /\ DeployMetadata.script ["--verbose"; "--fast"; "--help"; "--network"] Sample.env
       initial_world
     = (0, after initial_world (Log [Str DeployMetadata.usage])).
Proof.
  assert (Forall (fun a => a ∉ value_flags) ["--verbose"; "--fast"]) as H.
  { repeat constructor; not_listed. }
  split; [exact H|].
  exact (proj2 (proj2 (help_prints_the_usage_and_exits ["--verbose"; "--fast"]
                         ["--network"] Sample.env initial_world H))).
Defined.

(** *** A malformed amount *)




(** White space outside ASCII is stripped like a blank: U+00A0 before and
    U+2028 after a numeral; U+200B is no white space. *)
Example white_space_outside_ascii_is_stripped :
  let nbsp := String "194" (String "160" EmptyString) in
  let line_separator := String "226" (String "128" (String "168" EmptyString)) in
  let zero_width_space := String "226" (String "128" (String "139" EmptyString)) in
  JS.StringToBigInt (nbsp +:+ "12" +:+ line_separator) = Some 12
  /\ JS.parseInt (nbsp +:+ "12abc") = JS.of_Z 12
  /\ JS.StringToBigInt (zero_width_space +:+ "12") = None.
Proof. vm_compute. done. Qed.

(** *** A falsy SOL amount *)

Lemma actualSolAmount_effective this s s' :
  effective s = effective s' ->
  CreateLiquidity.actualSolAmount this s = CreateLiquidity.actualSolAmount this s'.
Proof.
  unfold effective, CreateLiquidity.actualSolAmount.
  destruct s as [x|], s' as [x'|]; try destruct (JS.truthy x);
    try destruct (JS.truthy x'); congruence.
Qed.







(** *** A supply that is not finite *)

Lemma allocation_not_finite (supply : JS.number) (s : bool) (m : positive) (e : Z) :
  finite supply = false ->
  MintToken.allocation supply (S754_finite s m e)
  = Err (JS.RangeError_BigInt
           (match supply with
            | S754_infinity sx => S754_infinity (xorb sx s)
            | x => x
            end)).
Proof. by destruct supply. Qed.

(** X7. When the configured total supply is NaN or an infinity, the plan
    cannot be computed: [calculateDistributions] throws the RangeError of
    [BigInt], and a run of [executeMinting] without an amount mints
    nothing. *)
Theorem supply_that_is_not_finite_mints_nothing (this : MintToken.TokenMinter)
    (amount : option Z) (dryRun : bool) (env : Env) (w : World) :
  finite (token_total_supply (MintToken.config this)) = false ->
  MintToken.given amount = false ->
  MintToken.calculateDistributions this
  = Err (JS.RangeError_BigInt (token_total_supply (MintToken.config this)))
  /\ exists events,
       trace (run_script (MintToken.executeMinting this amount dryRun) env w).2
       = (trace w ++ events)%list
       /\ minted events = [].
Proof.
  intros Hf Hg.
  assert (MintToken.calculateDistributions this
          = Err (JS.RangeError_BigInt (token_total_supply (MintToken.config this))))
    as Hcalc.
  { unfold MintToken.calculateDistributions. cbv zeta. unfold JS.lit_0_4.
    rewrite allocation_not_finite by done.
    by destruct (token_total_supply (MintToken.config this)) as [| [] | |]. }
  split; [exact Hcalc|].
  destruct (mints_run_script (plan_amounts this) _ env w
              (mints_executeMinting_plan this amount dryRun Hg))
    as (events & Ht & Hs).
  exists events. split; [done|].
  unfold plan_amounts in Hs. rewrite Hcalc in Hs. by apply sublist_nil_r.
Qed.

(** ** Decimal numerals *)

Lemma is_digit_cases (c : ascii) :
  is_digit c = true ->
  c ∈ ["0"; "1"; "2"; "3"; "4"; "5"; "6"; "7"; "8"; "9"]%char.
Proof.
  intros H. destruct c as [[] [] [] [] [] [] [] []]; vm_compute in H;
    try discriminate H;
    repeat (apply elem_of_cons; first [by left|right]).
Qed.

Lemma is_digit_pretty_N_char (d : N) : is_digit (pretty_N_char d) = true.
Proof. unfold pretty_N_char. by repeat case_match. Qed.

Lemma digit_value_pretty_N_char (d : N) :
  (d < 10)%N -> JS.digit_value 10 (pretty_N_char d) = Some (Z.of_N d).
Proof.
  intros Hd.
  assert (d = 0 \/ d = 1 \/ d = 2 \/ d = 3 \/ d = 4 \/ d = 5 \/ d = 6 \/ d = 7
          \/ d = 8 \/ d = 9)%N as H by lia.
  repeat (destruct H as [->|H]; [reflexivity|]). by subst.
Qed.

Lemma digits_only_pretty_N_go (x : N) (s : string) :
  digits_only s = true -> digits_only (pretty_N_go x s) = true.
Proof.
  revert s. induction (N.lt_wf_0 x) as [x _ IH]; intros s Hs.
  assert (x = 0 \/ 0 < x)%N as [->|Hx] by lia; [done|].
  rewrite pretty_N_go_step by done. apply IH; [by apply N.div_lt|].
  cbn. by rewrite is_digit_pretty_N_char, Hs.
Qed.

(** Reading the digits that [pretty] wrote gives the number back: the
    digits of [x] shift what was read so far by a power of ten. *)
Lemma digits_value_pretty_N_go (x : N) :
  exists p, forall acc s,
    JS.digits_value 10 acc (pretty_N_go x s)
    = JS.digits_value 10 (acc * p + Z.of_N x) s
    /\ forall read,
       JS.digits_prefix 10 acc read (pretty_N_go x s)
       = JS.digits_prefix 10 (acc * p + Z.of_N x) (read || (0 <? x)%N) s.
Proof.
  induction (N.lt_wf_0 x) as [x _ IH].
  assert (x = 0 \/ 0 < x)%N as [->|Hx] by lia.
  { exists 1. intros acc s. rewrite pretty_N_go_0.
    replace (acc * 1 + Z.of_N 0) with acc by lia.
    split; [done|]. intros read. by rewrite orb_false_r. }
  destruct (IH (x `div` 10)%N) as [p Hp]; [by apply N.div_lt|].
  exists (p * 10). intros acc s. rewrite pretty_N_go_step by done.
  destruct (Hp acc (String (pretty_N_char (x `mod` 10)) s)) as [H1 H2].
  assert ((acc * p + Z.of_N (x `div` 10)) * 10 + Z.of_N (x `mod` 10)
          = acc * (p * 10) + Z.of_N x) as E.
  { pose proof (N.div_mod x 10 ltac:(done)). lia. }
  split.
  - rewrite H1. cbn [JS.digits_value].
    rewrite digit_value_pretty_N_char by (apply N.mod_lt; lia). by rewrite E.
  - intros read. rewrite H2. cbn [JS.digits_prefix].
    rewrite digit_value_pretty_N_char by (apply N.mod_lt; lia). rewrite E.
    f_equal. apply N.ltb_lt in Hx. by rewrite Hx, orb_true_r.
Qed.

Lemma ascii_not_whitespace (a c1 c2 : ascii) :
  (N_of_ascii a <? 128)%N = true ->
  JS.is_whitespace2 a c1 = false /\ JS.is_whitespace3 a c1 c2 = false.
Proof.
  intros Ha%N.ltb_lt. unfold JS.is_whitespace2, JS.is_whitespace3.
  destruct (N.eqb_spec (N_of_ascii a) 194); [lia|].
  destruct (N.eqb_spec (N_of_ascii a) 225); [lia|].
  destruct (N.eqb_spec (N_of_ascii a) 226); [lia|].
  destruct (N.eqb_spec (N_of_ascii a) 227); [lia|].
  destruct (N.eqb_spec (N_of_ascii a) 239); [lia|]. done.
Qed.

Lemma trim_start_spaceless (s : string) : spaceless s = true -> JS.trim_start s = s.
Proof.
  destruct s as [|a s]; [done|]. cbn [spaceless JS.trim_start].
  intros [[Hw Ha]%andb_prop _]%andb_prop.
  destruct (JS.is_whitespace a); [done|].
  destruct s as [|c1 s]; [done|].
  rewrite (proj1 (ascii_not_whitespace a c1 c1 Ha)).
  destruct s as [|c2 s]; [done|].
  by rewrite (proj2 (ascii_not_whitespace a c1 c2 Ha)).
Qed.

Lemma trim_end_spaceless (s : string) : spaceless s = true -> JS.trim_end s = s.
Proof.
  induction s as [|a s IH]; [done|]. intros H. cbn [JS.trim_end].
  unfold JS.blank. rewrite (trim_start_spaceless _ H).
  cbn [spaceless] in H. apply andb_prop in H as [_ H]. by rewrite IH.
Qed.

Lemma trim_spaceless (s : string) : spaceless s = true -> JS.trim s = s.
Proof.
  intros H. unfold JS.trim. rewrite (trim_start_spaceless s H).
  by apply trim_end_spaceless.
Qed.

Lemma digits_only_spaceless (s : string) : digits_only s = true -> spaceless s = true.
Proof.
  induction s as [|a s IH]; [done|]. cbn. intros [Ha Hs]%andb_prop.
  rewrite IH by done. apply is_digit_cases in Ha.
  repeat (apply elem_of_cons in Ha as [->|Ha]; [done|]). by apply elem_of_nil in Ha.
Qed.

(** A text of digits is read in radix ten. *)
Lemma StringToBigInt_digits (s : string) :
  digits_only s = true -> s <> EmptyString ->
  (exists c r, s = String c r /\ (c = "0"%char -> r = EmptyString)) ->
  JS.StringToBigInt s = JS.digits_value 10 0 s.
Proof.
  intros Hd Hne (c & r & -> & Hz). unfold JS.StringToBigInt.
  rewrite trim_spaceless by by apply digits_only_spaceless.
  cbn in Hd. apply andb_prop in Hd as [Hc Hr]. apply is_digit_cases in Hc.
  repeat (apply elem_of_cons in Hc as [->|Hc]; [try (rewrite Hz by done); done|]).
  by apply elem_of_nil in Hc.
Qed.

(** The text of a positive number starts with a digit that is not 0. *)
Lemma pretty_N_go_head (x : N) (s : string) :
  (0 < x)%N ->
  exists c r, pretty_N_go x s = String c r /\ c <> "0"%char.
Proof.
  revert s. induction (N.lt_wf_0 x) as [x _ IH]; intros s Hx.
  rewrite pretty_N_go_step by done.
  destruct (N.eq_dec (x `div` 10)%N 0%N) as [E|Hd%N.neq_0_lt_0].
  - rewrite E, pretty_N_go_0. eexists _, _. split; [done|].
    assert (x < 10)%N by (by apply N.div_small_iff in E).
    rewrite N.mod_small by done.
    assert (x = 1 \/ x = 2 \/ x = 3 \/ x = 4 \/ x = 5 \/ x = 6 \/ x = 7
            \/ x = 8 \/ x = 9)%N as H' by lia.
    repeat (destruct H' as [->|H']; [done|]). by subst.
  - apply IH; [by apply N.div_lt|done].
Qed.

Lemma pretty_positive_spec (x : positive) :
  exists c r, pretty x = String c r /\ c <> "0"%char
    /\ digits_only (pretty x) = true
    /\ JS.digits_value 10 0 (pretty x) = Some (Zpos x)
    /\ JS.digits_prefix 10 0 false (pretty x) = (Zpos x, true).
Proof.
  unfold pretty, pretty_positive, pretty, pretty_N.
  rewrite decide_False by done.
  destruct (pretty_N_go_head (Npos x) EmptyString) as (c & r & E & Hc); [done|].
  exists c, r. split; [done|]. split; [done|].
  split; [by apply digits_only_pretty_N_go|].
  destruct (digits_value_pretty_N_go (Npos x)) as [p Hp].
  destruct (Hp 0 EmptyString) as [H1 H2]. rewrite H1, H2. done.
Qed.

Lemma StringToBigInt_pretty (n : Z) : JS.StringToBigInt (pretty n) = Some n.
Proof.
  destruct n as [|x|x]; [done|..]; unfold pretty, pretty_Z;
    destruct (pretty_positive_spec x) as (c & r & E & Hc & Hd & Hv & _).
  - rewrite StringToBigInt_digits; [done|done|by rewrite E|].
    exists c, r. split; [done|]. by intros ->.
  - unfold JS.StringToBigInt. rewrite trim_spaceless.
    2:{ rewrite append_cons, append_nil. cbn. by apply digits_only_spaceless. }
    rewrite append_cons, append_nil. cbn.
    unfold JS.nonempty_digits. rewrite E, <- E, Hv. done.
Qed.

Lemma parseInt_pretty (n : Z) : JS.parseInt (pretty n) = JS.of_Z n.
Proof.
  destruct n as [|x|x]; [done|..]; unfold pretty, pretty_Z;
    destruct (pretty_positive_spec x) as (c & r & E & Hc & Hd & _ & Hv).
  - unfold JS.parseInt. rewrite trim_start_spaceless by by apply digits_only_spaceless.
    rewrite E in Hd |- *. cbn in Hd. apply andb_prop in Hd as [Hd _].
    apply is_digit_cases in Hd.
    repeat (apply elem_of_cons in Hd as [->|Hd];
            [try done; rewrite <- E, Hv; done|]).
    by apply elem_of_nil in Hd.
  - unfold JS.parseInt. rewrite append_cons, append_nil.
    rewrite trim_start_spaceless by (cbn; by apply digits_only_spaceless).
    cbn match. rewrite E in Hd |- *. cbn in Hd. apply andb_prop in Hd as [Hd _].
    apply is_digit_cases in Hd.
    repeat (apply elem_of_cons in Hd as [->|Hd];
            [try done; rewrite <- E, Hv; done|]).
    by apply elem_of_nil in Hd.
Qed.

(** X13. The decimal text of an integer [n] is read back as [n]: [BigInt] of
    the text is [n] and [parseInt] of the text is the Number of [n], so
    that [--amount] and [--sol-amount] followed by the text set the option
    to [n]. *)
Theorem amounts_written_in_decimal_are_read_back (n : Z) (env : Env) (w : World) :
  JS.StringToBigInt (pretty n) = Some n
  /\ JS.parseInt (pretty n) = JS.of_Z n
  /\ MintToken.parseArgs ["--amount"; pretty n] env w
     = (Ret {| MintToken.opt_network := Some "devnet";
               MintToken.opt_amount := Some n;
               MintToken.opt_dryRun := false;
               MintToken.opt_verbose := false |}, w)
  /\ CreateLiquidity.parseArgs ["--sol-amount"; pretty n] env w
     = (Ret {| CreateLiquidity.opt_network := Some "devnet";
               CreateLiquidity.opt_solAmount := Some (JS.of_Z n);
               CreateLiquidity.opt_dryRun := false;
               CreateLiquidity.opt_verbose := false |}, w).
Proof.
  split; [apply StringToBigInt_pretty|]. split; [apply parseInt_pretty|]. split.
  - unfold MintToken.parseArgs. cbn [MintToken.parse_loop String.eqb Ascii.eqb Bool.eqb].
    unfold MintToken.BigInt_arg. by rewrite StringToBigInt_pretty.
  - unfold CreateLiquidity.parseArgs.
    cbn [CreateLiquidity.parse_loop String.eqb Ascii.eqb Bool.eqb].
    change (CreateLiquidity.parseInt_arg (Some (pretty n))) with (JS.parseInt (pretty n)).
    by rewrite parseInt_pretty.
Qed.

(** * deploy-all.sh and the node scripts *)

Lemma parsers_agree (n : nat) (env : Env) (w : World) :
  forall args s0 o0 s,
  (length args <= n)%nat -> agree s0 o0 ->
  DeployAll.parse_arguments s0 args = DeployAll.Go s ->
  exists o, CreateLiquidity.parse_loop o0 args env w = (Ret o, w) /\ agree s o.
Proof.
  induction n as [|n IH]; intros [|arg rest] s0 o0 s Hlen Hag; cbn in Hlen; try lia;
    try (intros [= <-]; by exists o0).
  destruct Hag as (H1 & H2 & H3 & H4).
  cbn [DeployAll.parse_arguments CreateLiquidity.parse_loop].
  destruct (String.eqb arg "--network").
  { destruct rest as [|value rest]; [done|]. cbn in Hlen.
    apply IH; [lia|]. by repeat split. }
  destruct (String.eqb arg "--sol-amount").
  { destruct rest as [|value rest]; [done|]. cbn in Hlen.
    apply IH; [lia|]. by repeat split. }
  destruct (String.eqb arg "--dry-run"); [apply IH; [lia|by repeat split]|].
  destruct (String.eqb arg "--verbose"); [apply IH; [lia|by repeat split]|].
  by destruct (String.eqb arg "--help").
Qed.

(** X16. Whenever the argument loop of deploy-all.sh accepts a command line,
    [parseArgs] of create-liquidity.js reads the same command line without
    printing or exiting, and to the same effect: the same network, the
    same dry-run and verbose flags, and the SOL amount that [parseInt]
    reads in [SOL_AMOUNT]. *)
Theorem what_deploy_all_accepts_create_liquidity_reads_alike (args : list string)
    (s : DeployAll.Settings) (env : Env) (w : World) :
  DeployAll.parse_arguments DeployAll.defaults args = DeployAll.Go s ->
  exists o,
    CreateLiquidity.parseArgs args env w = (Ret o, w)
    /\ CreateLiquidity.opt_network o = Some (DeployAll.NETWORK s)
    /\ effective (CreateLiquidity.opt_solAmount o)
       = effective (Some (JS.parseInt (DeployAll.SOL_AMOUNT s)))
    /\ CreateLiquidity.opt_dryRun o = DeployAll.DRY_RUN s
    /\ CreateLiquidity.opt_verbose o = DeployAll.VERBOSE s.
Proof.
  intros H. unfold CreateLiquidity.parseArgs.
  eapply (parsers_agree (length args)); [done| |exact H]. by repeat split.
Qed.

Lemma parsers_agree_witness :
  DeployAll.parse_arguments DeployAll.defaults
    ["--network"; "testnet"; "--sol-amount"; "2000000000"; "--dry-run"]
  = DeployAll.Go {| DeployAll.NETWORK := "testnet"; DeployAll.VERBOSE := false;
                    DeployAll.DRY_RUN := true; DeployAll.SOL_AMOUNT := "2000000000" |}
  /\ exists o,
       CreateLiquidity.parseArgs
         ["--network"; "testnet"; "--sol-amount"; "2000000000"; "--dry-run"]
         Sample.env initial_world = (Ret o, initial_world)
       /\ CreateLiquidity.opt_network o = Some "testnet"
       /\ CreateLiquidity.opt_dryRun o = true.
Proof.
  split; [reflexivity|].
  destruct (what_deploy_all_accepts_create_liquidity_reads_alike
              ["--network"; "testnet"; "--sol-amount"; "2000000000"; "--dry-run"]
              _ Sample.env initial_world eq_refl) as (o & Ho & Hn & _ & Hd & _).
  exists o. split; [exact Ho|]. split; [exact Hn|exact Hd].
Defined.

(** *** A dry run of deploy-all.sh *)

Lemma parse_arguments_dry_run (n : nat) :
  forall args s0 s,
  (length args <= n)%nat -> DeployAll.DRY_RUN s0 = true ->
  DeployAll.parse_arguments s0 args = DeployAll.Go s -> DeployAll.DRY_RUN s = true.
Proof.
  induction n as [|n IH]; intros [|arg rest] s0 s Hlen Hd; cbn in Hlen; try lia;
    try (by intros [= <-]).
  cbn [DeployAll.parse_arguments].
  destruct (String.eqb arg "--network").
  { destruct rest as [|value rest]; [done|]. cbn in Hlen. apply IH; [lia|done]. }
  destruct (String.eqb arg "--sol-amount").
  { destruct rest as [|value rest]; [done|]. cbn in Hlen. apply IH; [lia|done]. }
  destruct (String.eqb arg "--dry-run"); [apply IH; [lia|done]|].
  destruct (String.eqb arg "--verbose"); [apply IH; [lia|done]|].
  by destruct (String.eqb arg "--help").
Qed.

Lemma DeployMetadata_main_dry_run (args : list string) :
  returns (fun o => DeployMetadata.opt_dryRun o = true) (DeployMetadata.parseArgs args) ->
  confined read_only (DeployMetadata.parseArgs args) ->
  confined read_only (DeployMetadata.main args).
Proof.
  intros Hr Hc. unfold DeployMetadata.main.
  eapply confined_bind_returns; [exact Hc|exact Hr|].
  intros o Ho. rewrite Ho.
  pose proof (confined_DeployMetadata_new (DeployMetadata.opt_network o)
                (DeployMetadata.opt_verbose o)).
  confine. apply confined_deployMetadata_dry_run.
Qed.

Lemma MintToken_main_dry_run (args : list string) :
  returns (fun o => MintToken.opt_dryRun o = true /\ MintToken.opt_amount o = None)
          (MintToken.parseArgs args) ->
  confined read_only (MintToken.parseArgs args) ->
  confined dry_mint_event (MintToken.main args).
Proof.
  intros Hr Hc. unfold MintToken.main.
  eapply confined_bind_returns;
    [exact (confined_weaken _ _ _ read_only_dry_mint Hc)|exact Hr|].
  intros o [Ho1 Ho2]. rewrite Ho1, Ho2.
  pose proof (confined_weaken _ _ _ read_only_dry_mint
                (confined_MintToken_new (MintToken.opt_network o)
                   (MintToken.opt_verbose o))).
  confine. by apply confined_executeMinting_dry_run.
Qed.

(** X17. When deploy-all.sh is started with [--dry-run] and accepts its
    command line, the arguments it hands to deploy-metadata.js and to
    mint-token.js make both runs dry: the metadata run only reads and
    prints, and the mint run writes no file and submits no instruction
    other than [createMint]. *)
Theorem deploy_all_dry_run_reaches_the_node_scripts (rest : list string)
    (s : DeployAll.Settings) (env : Env) (w : World) :
  DeployAll.parse_arguments DeployAll.defaults ("--dry-run" :: rest) = DeployAll.Go s ->
  let metadata := DeployMetadata.script (DeployAll.node_arguments s) env w in
  let mint := MintToken.script (DeployAll.node_arguments s) env w in
  (exists events,
     trace metadata.2 = (trace w ++ events)%list
     /\ forallb read_only events = true
     /\ files metadata.2 = files w
     /\ deployments_dir metadata.2 = deployments_dir w)
  /\ (exists events,
        trace mint.2 = (trace w ++ events)%list
        /\ forallb dry_mint_event events = true
        /\ files mint.2 = files w
        /\ deployments_dir mint.2 = deployments_dir w).
Proof.
  intros H. cbv zeta.
  assert (DeployAll.DRY_RUN s = true) as Hd.
  { eapply (parse_arguments_dry_run (length rest) rest); [done| |exact H]. done. }
  unfold DeployAll.node_arguments. rewrite Hd. split.
  - unfold DeployMetadata.script.
    edestruct (run_script_confined read_only) as (events & Ht & HP & Hf);
      [|done|exists events; destruct (Hf (read_only_no_write _ HP));
                split; [exact Ht|done]].
    apply DeployMetadata_main_dry_run; destruct (DeployAll.VERBOSE s).
    + by apply returns_ret.
    + by apply returns_ret.
    + apply confined_ret.
    + apply confined_ret.
  - unfold MintToken.script.
    edestruct (run_script_confined dry_mint_event) as (events & Ht & HP & Hf);
      [|done|exists events; destruct (Hf (dry_mint_no_write _ HP));
                split; [exact Ht|done]].
    apply MintToken_main_dry_run; destruct (DeployAll.VERBOSE s).
    + by apply returns_ret.
    + by apply returns_ret.
    + apply confined_ret.
    + apply confined_ret.
Qed.

Lemma deploy_all_dry_run_witness :
  DeployAll.parse_arguments DeployAll.defaults ["--dry-run"; "--network"; "testnet"]
  = DeployAll.Go {| DeployAll.NETWORK := "testnet"; DeployAll.VERBOSE := false;
                    DeployAll.DRY_RUN := true; DeployAll.SOL_AMOUNT := EmptyString |}
  /\ exists events,
       trace (DeployMetadata.script ["--network"; "testnet"; "--dry-run"] Sample.env
                initial_world).2
       = (trace initial_world ++ events)%list
       /\ forallb read_only events = true.
Proof.
  split; [reflexivity|].
  destruct (proj1 (deploy_all_dry_run_reaches_the_node_scripts ["--network"; "testnet"]
                     _ Sample.env initial_world eq_refl))
    as (events & Ht & HP & _).
  exists events. split; [exact Ht|exact HP].
Defined.

(** *** Comparing numerals as text *)

Lemma digit_value_is_digit (c : ascii) :
  is_digit c = true ->
  JS.digit_value 10 c = Some (Z.of_N (N_of_ascii c) - 48)
  /\ 48 <= Z.of_N (N_of_ascii c) <= 57.
Proof.
  intros H%is_digit_cases.
  repeat (apply elem_of_cons in H as [->|H]; [by vm_compute|]).
  by apply elem_of_nil in H.
Qed.

(** Two texts of as many digits compare like the numbers they write. *)
Lemma compare_digits (s : string) :
  forall t acc1 acc2,
  digits_only s = true -> digits_only t = true ->
  String.length s = String.length t ->
  exists v1 v2 p,
    JS.digits_value 10 acc1 s = Some (acc1 * p + v1)
    /\ JS.digits_value 10 acc2 t = Some (acc2 * p + v2)
    /\ 0 <= v1 < p /\ 0 <= v2 < p
    /\ String.compare s t = (v1 ?= v2).
Proof.
  induction s as [|c1 s IH]; intros [|c2 t] acc1 acc2 Hs Ht Hlen; try done.
  { exists 0, 0, 1. cbn. repeat split; try lia; f_equal; lia. }
  cbn in Hs, Ht, Hlen. apply andb_prop in Hs as [Hc1 Hs], Ht as [Hc2 Ht].
  destruct (digit_value_is_digit c1 Hc1) as [E1 B1],
    (digit_value_is_digit c2 Hc2) as [E2 B2].
  set (d1 := Z.of_N (N_of_ascii c1) - 48) in *.
  set (d2 := Z.of_N (N_of_ascii c2) - 48) in *.
  destruct (IH t (acc1 * 10 + d1) (acc2 * 10 + d2) Hs Ht ltac:(lia))
    as (v1 & v2 & p & Hv1 & Hv2 & Hb1 & Hb2 & Hcmp).
  exists (d1 * p + v1), (d2 * p + v2), (10 * p).
  cbn [JS.digits_value String.compare]. rewrite E1, E2, Hv1, Hv2.
  split; [f_equal; lia|]. split; [f_equal; lia|].
  split; [nia|]. split; [nia|].
  unfold Ascii.compare. rewrite N2Z.inj_compare || rewrite <- N2Z.inj_compare.
  destruct (Z.compare_spec (Z.of_N (N_of_ascii c1)) (Z.of_N (N_of_ascii c2)))
    as [E|L|G].
  - rewrite Hcmp. assert (d1 = d2) as -> by (unfold d1, d2; lia).
    destruct (Z.compare_spec v1 v2), (Z.compare_spec (d2 * p + v1) (d2 * p + v2));
      try done; lia.
  - symmetry. apply Z.compare_lt_iff. unfold d1, d2 in *. nia.
  - symmetry. apply Z.compare_gt_iff. unfold d1, d2 in *. nia.
Qed.

Lemma pretty_nonneg_spec (n : Z) :
  0 <= n ->
  digits_only (pretty n) = true /\ JS.digits_value 10 0 (pretty n) = Some n.
Proof.
  intros Hn. destruct n as [|x|x]; [done| |lia].
  destruct (pretty_positive_spec x) as (c & r & E & Hc & Hd & Hv & _). done.
Qed.

Lemma string_lt_pretty (a b : Z) :
  0 <= a -> 0 <= b ->
  String.length (pretty a) = String.length (pretty b) ->
  JS.string_lt (pretty a) (pretty b) = (a <? b).
Proof.
  intros Ha Hb Hlen.
  destruct (pretty_nonneg_spec a Ha) as [Hda Hva], (pretty_nonneg_spec b Hb) as [Hdb Hvb].
  destruct (compare_digits (pretty a) (pretty b) 0 0 Hda Hdb Hlen)
    as (v1 & v2 & p & Hv1 & Hv2 & _ & _ & Hcmp).
  rewrite Hva in Hv1. rewrite Hvb in Hv2.
  assert (v1 = a) as -> by (injection Hv1; lia).
  assert (v2 = b) as -> by (injection Hv2; lia).
  unfold JS.string_lt, String.ltb. rewrite Hcmp. unfold Z.ltb.
  by destruct (a ?= b).
Qed.

(** X14. When the required amount is below [2 ^ 53], so that its text is
    its decimal numeral, and the token balance the network reports is
    written with as many digits, the comparison of texts in
    [checkPrerequisites] decides like the comparison of numbers: the
    check ends the process with status 1 exactly when the balance is
    below the required amount. *)
Theorem token_check_is_right_for_as_many_digits (env : Env)
    (this : CreateLiquidity.LiquidityCreator) (kp : Keypair) (balance : Z)
    (w : World) :
  let required := raydium_glowmin_amount (CreateLiquidity.config this) in
  CreateLiquidity.keypairs this !! "main" = Some kp ->
  (forall h text, exists key, env_rpc env h (PublicKey_new text) = Ok key) ->
  (forall h mint owner,
     exists account, env_rpc env h (getAssociatedTokenAddress mint owner) = Ok account) ->
  (forall h account,
     env_rpc env h (getTokenAccountBalance account) = Ok (pretty balance)) ->
  0 <= balance -> 0 <= required < 2 ^ 53 ->
  String.length (pretty balance) = String.length (pretty required) ->
  (CreateLiquidity.checkTokenBalance this env w).1
  = if balance <? required then Exit 1 else Ret tt.
Proof.
  intros required Hk Hpk Hata Hbal Hb Hr Hlen.
  pose proof (string_lt_pretty balance required Hb (proj1 Hr) Hlen) as Hlt.
  rewrite <- (Number_toString_small required Hr) in Hlt.
  unfold CreateLiquidity.checkTokenBalance, try_catch, mbind, M_bind, do_call,
    publicKey_of, lift, get_publicKey.
  rewrite Hk.
  destruct (Hpk (trace w) (token_mint_authority_public_key (CreateLiquidity.config this)))
    as [key ->].
  cbn [trace].
  match goal with
  | |- context [env_rpc env ?h (getAssociatedTokenAddress ?m ?o)] =>
      destruct (Hata h m o) as [account ->]
  end.
  cbn [trace]. rewrite Hbal. fold required. rewrite Hlt.
  by destruct (balance <? required).
Qed.

Lemma token_check_witness :
  (CreateLiquidity.checkTokenBalance creator Sample.env initial_world).1 = Ret tt.
Proof.
  refine (token_check_is_right_for_as_many_digits Sample.env creator
            {| publicKey := "MainKeypair11111111" |} 50 initial_world
            _ _ _ _ _ _ _).
  - reflexivity.
  - intros h text. exists text. reflexivity.
  - intros h mint owner. exists "AssociatedAccount11". reflexivity.
  - intros h account. reflexivity.
  - lia.
  - cbn. lia.
  - reflexivity.
Defined.

(** Above [2 ^ 53] the text of the required amount is no longer its
    numeral: [2 ^ 56] is written with a last digit 0. *)
Example Number_toString_2_56 :
  JS.Number_toString (2 ^ 56) = "72057594037927940"
  /\ pretty (2 ^ 56) = "72057594037927936"
  /\ JS.Number_toString (10 ^ 21) = "1e+21".
Proof. vm_compute. done. Qed.

(** *** Witnesses *)

Lemma supply_not_finite_witness :
  finite JS.NaN = false
  /\ MintToken.calculateDistributions (minter_of_supply JS.NaN)
     = Err (JS.RangeError_BigInt JS.NaN).
Proof.
  split; [reflexivity|].
  exact (proj1 (supply_that_is_not_finite_mints_nothing (minter_of_supply JS.NaN)
                  None false Sample.env initial_world eq_refl eq_refl)).
Defined.

(** ** Integers below [2 ^ 53] as Numbers *)

Lemma pow2_pos (n : Z) : 0 <= n -> 0 < 2 ^ n.
Proof. intros. apply Z.pow_pos_nonneg; lia. Qed.

Lemma pow2_split (a b : Z) : 0 <= b <= a -> 2 ^ a = 2 ^ (a - b) * 2 ^ b.
Proof. intros. rewrite <- Z.pow_add_r by lia. f_equal. lia. Qed.

Lemma digits_53_bounds (p : positive) :
  Zpos (digits2_pos p) = 53 -> 2 ^ 52 <= Zpos p < 2 ^ 53.
Proof. intros H. pose proof (digits2_pos_bounds p) as B. rewrite H in B. exact B. Qed.

(** A mantissa of 53 digits shifted left by [k] rounds back to itself. *)
Lemma binary_round_aux_exact (s : bool) (m p' : positive) (e j k : Z) :
  Zpos (digits2_pos p') = 53 -> 0 <= j <= 52 -> 0 <= k ->
  Zpos m = Zpos p' * 2 ^ k -> e = - j - k ->
  binary_round_aux 53 1024 s (Zpos m) e loc_Exact = S754_finite s p' (- j).
Proof.
  intros Hd Hj Hk Hm He. pose proof (digits_53_bounds p' Hd) as Hp'.
  destruct (Z.eq_dec k 0) as [->|Hk0].
  { rewrite Z.mul_1_r in Hm. injection Hm as ->. subst e.
    rewrite Z.sub_0_r. apply binary_round_aux_keep; [done|lia]. }
  pose proof (pow2_pos k Hk) as H2k.
  assert (Zpos (digits2_pos m) = 53 + k) as Hdm.
  { apply digits2_pos_unique. rewrite Hm.
    rewrite (pow2_split (53 + k - 1) k), (pow2_split (53 + k) k) by lia.
    replace (53 + k - 1 - k) with 52 by lia. replace (53 + k - k) with 53 by lia. nia. }
  destruct (binary_round_aux_shift s m e) as (m1 & m2 & e2 & -> & Hcase & Hnear).
  { rewrite Hdm. lia. }
  { rewrite Hdm. lia. }
  rewrite Hdm in Hcase, Hnear. replace (53 + k - 53) with k in * by lia.
  rewrite Hm in Hnear.
  assert (Zpos m1 = Zpos p') as E by nia.
  destruct Hcase as [(-> & -> & _)|(Hbig & _)]; [|lia].
  injection E as ->. f_equal. lia.
Qed.

(** Rounding [T * 2 ^ J] with exponent [- J] is rounding [T]. *)
Lemma binary_round_value (s : bool) (M T : positive) (J : Z) :
  Zpos T < 2 ^ 53 -> 0 <= J <= 1000 -> Zpos M = Zpos T * 2 ^ J ->
  binary_round 53 1024 s M (- J) = binary_round 53 1024 s T 0.
Proof.
  intros HT HJ HM.
  destruct (binary_round_exact s T HT) as (p' & j & -> & Hj & Hp' & Hd).
  pose proof (digits_53_bounds p' Hd) as Bp'.
  pose proof (pow2_pos J ltac:(lia)) as H2J. pose proof (pow2_pos j ltac:(lia)) as H2j.
  assert (Zpos (digits2_pos M) = 53 - j + J) as HdM.
  { apply digits2_pos_unique. rewrite HM.
    destruct (Z.le_ge_cases j J) as [L|G].
    - rewrite (pow2_split J j) by lia.
      rewrite (pow2_split (53 - j + J - 1) (J - j)), (pow2_split (53 - j + J) (J - j))
        by lia.
      replace (53 - j + J - 1 - (J - j)) with 52 by lia.
      replace (53 - j + J - (J - j)) with 53 by lia.
      pose proof (pow2_pos (J - j) ltac:(lia)). nia.
    - rewrite (pow2_split j J) in Hp' by lia.
      rewrite (pow2_split 52 (j - J)), (pow2_split 53 (j - J)) in Bp' by lia.
      replace (52 - (j - J)) with (53 - j + J - 1) in Bp' by lia.
      replace (53 - (j - J)) with (53 - j + J) in Bp' by lia.
      pose proof (pow2_pos (j - J) ltac:(lia)). nia. }
  unfold binary_round. rewrite HdM, fexp_normal by lia.
  unfold shl_align.
  destruct (53 - j + J + - J - 53 - - J) as [|dd|dd] eqn:Ed.
  - apply (binary_round_aux_exact s M p' (- J) j 0); try done; try lia.
    rewrite HM, Hp'. assert (J = j) as -> by lia. lia.
  - apply (binary_round_aux_exact s M p' (- J) j (J - j)); try done; try lia.
    rewrite HM, Hp'. rewrite (pow2_split J j) by lia. lia.
  - assert (Zpos (shift_pos dd M) = Zpos p') as E.
    { unfold shift_pos. rewrite Pos_iter_xO, HM, Hp', <- Z.mul_assoc. f_equal.
      rewrite <- Z.pow_add_r by lia. f_equal. lia. }
    unfold shift_pos in E. injection E as ->.
    replace (53 - j + J + - J - 53) with (- j) by lia.
    apply binary_round_aux_keep; [done|lia].
Qed.

Lemma of_Z_0 : JS.of_Z 0 = S754_zero false.
Proof. reflexivity. Qed.

Lemma of_Z_Zpos (T : positive) : JS.of_Z (Zpos T) = binary_round 53 1024 false T 0.
Proof. reflexivity. Qed.

Lemma shl_align_value (p : positive) (e e' : Z) :
  e' <= e ->
  Zpos (shl_align p e e').1 = Zpos p * 2 ^ (e - e').
Proof.
  intros H. unfold shl_align. destruct (e' - e) as [|d|d] eqn:E; try lia.
  - replace (e - e') with 0 by lia. cbn [fst]. lia.
  - cbn [fst]. unfold shift_pos. rewrite Pos_iter_xO. f_equal. f_equal. lia.
Qed.

Lemma add_of_Z (a b : Z) :
  0 <= a -> 0 <= b -> a + b < 2 ^ 53 ->
  JS.add (JS.of_Z a) (JS.of_Z b) = JS.of_Z (a + b).
Proof.
  intros Ha Hb Hab.
  destruct (Z.eq_dec a 0) as [->|Ha0].
  { rewrite of_Z_0, Z.add_0_l. destruct (Z.eq_dec b 0) as [->|Hb0]; [done|].
    destruct (of_Z_pos b ltac:(lia)) as (p & j & -> & _). done. }
  destruct (Z.eq_dec b 0) as [->|Hb0].
  { rewrite of_Z_0, Z.add_0_r.
    destruct (of_Z_pos a ltac:(lia)) as (p & j & -> & _). done. }
  destruct (of_Z_pos a ltac:(lia)) as (pa & ja & -> & Hja & Hpa & Hda).
  destruct (of_Z_pos b ltac:(lia)) as (pb & jb & -> & Hjb & Hpb & Hdb).
  unfold JS.add, SFadd. cbv zeta. cbn [cond_Zopp].
  set (ez := IntDef.Z.min (- ja) (- jb)).
  assert (ez = - Z.max ja jb) as Hez by (unfold ez; change IntDef.Z.min with Z.min; lia).
  set (J := Z.max ja jb) in *.
  assert (0 <= J <= 52 /\ ja <= J /\ jb <= J) as (HJ & HJa & HJb) by (unfold J; lia).
  clearbody J.
  pose proof (shl_align_value pa (- ja) ez ltac:(lia)) as Ea.
  pose proof (shl_align_value pb (- jb) ez ltac:(lia)) as Eb.
  replace (- ja - ez) with (J - ja) in Ea by lia.
  replace (- jb - ez) with (J - jb) in Eb by lia.
  change (shl_align pa (- ja) ez).1 with (fst (shl_align pa (- ja) ez)) in Ea.
  change (shl_align pb (- jb) ez).1 with (fst (shl_align pb (- jb) ez)) in Eb.
  rewrite Ea, Eb, Hpa, Hpb, <- !Z.mul_assoc, <- !Z.pow_add_r by lia.
  replace (ja + (J - ja)) with J by lia. replace (jb + (J - jb)) with J by lia.
  rewrite <- Z.mul_add_distr_r, Hez.
  pose proof (pow2_pos J ltac:(lia)) as H2J.
  destruct ((a + b) * 2 ^ J) as [|M|M] eqn:EM; try nia.
  destruct (a + b) as [|T|T] eqn:ET; try lia.
  unfold binary_normalize. rewrite of_Z_Zpos.
  apply (binary_round_value false M T J); [exact Hab|lia|by rewrite <- EM].
Qed.

Lemma mul_of_Z (a b : Z) :
  0 <= a < 2 ^ 53 -> 0 <= b < 2 ^ 53 -> a * b < 2 ^ 53 ->
  JS.mul (JS.of_Z a) (JS.of_Z b) = JS.of_Z (a * b).
Proof.
  intros Ha Hb Hab.
  destruct (Z.eq_dec a 0) as [->|Ha0].
  { rewrite of_Z_0, Z.mul_0_l. destruct (Z.eq_dec b 0) as [->|Hb0]; [done|].
    destruct (of_Z_pos b ltac:(lia)) as (p & j & -> & _). done. }
  destruct (Z.eq_dec b 0) as [->|Hb0].
  { rewrite of_Z_0, Z.mul_0_r.
    destruct (of_Z_pos a ltac:(lia)) as (p & j & -> & _). done. }
  destruct (of_Z_pos a ltac:(lia)) as (pa & ja & -> & Hja & Hpa & Hda).
  destruct (of_Z_pos b ltac:(lia)) as (pb & jb & -> & Hjb & Hpb & Hdb).
  destruct (of_Z_pos (a * b) ltac:(nia)) as (p' & j & -> & Hj & Hp' & Hd).
  pose proof (digits_53_bounds pa Hda). pose proof (digits_53_bounds pb Hdb).
  pose proof (digits_53_bounds p' Hd).
  pose proof (pow2_pos ja ltac:(lia)). pose proof (pow2_pos jb ltac:(lia)).
  pose proof (pow2_pos j ltac:(lia)).
  assert (j <= ja + jb) as Hk.
  { destruct (Z.le_gt_cases j (ja + jb)) as [|G]; [done|exfalso].
    assert (Zpos p' = Zpos pa * Zpos pb * 2 ^ (j - (ja + jb))) as E.
    { rewrite Hp', Hpa, Hpb. rewrite (pow2_split j (ja + jb)) by lia.
      rewrite (Z.pow_add_r 2 ja jb) by lia. ring. }
    pose proof (pow2_pos (j - (ja + jb)) ltac:(lia)).
    assert (2 ^ 52 * 2 ^ 52 <= Zpos pa * Zpos pb) by nia.
    assert (Zpos pa * Zpos pb <= Zpos p') by nia.
    assert (2 ^ 53 < 2 ^ 52 * 2 ^ 52) by (vm_compute; reflexivity). lia. }
  unfold JS.mul, SFmul. cbn [xorb].
  apply (binary_round_aux_exact false (pa * pb) p' (- ja + - jb) j (ja + jb - j));
    try done; try lia.
  rewrite Pos2Z.inj_mul, Hp', Hpa, Hpb.
  assert (2 ^ ja * 2 ^ jb = 2 ^ j * 2 ^ (ja + jb - j)) as E.
  { rewrite <- !Z.pow_add_r by lia. f_equal. lia. }
  transitivity (a * b * (2 ^ ja * 2 ^ jb)); [ring|]. rewrite E. ring.
Qed.

Lemma ltb_of_Z (a b : Z) :
  0 <= a < 2 ^ 53 -> 0 <= b < 2 ^ 53 ->
  JS.ltb (JS.of_Z a) (JS.of_Z b) = (a <? b).
Proof.
  intros Ha Hb.
  destruct (Z.eq_dec a 0) as [->|Ha0].
  { rewrite of_Z_0. destruct (Z.eq_dec b 0) as [->|Hb0]; [done|].
    destruct (of_Z_pos b ltac:(lia)) as (p & j & -> & _). cbn.
    symmetry. apply Z.ltb_lt. lia. }
  destruct (Z.eq_dec b 0) as [->|Hb0].
  { rewrite of_Z_0. destruct (of_Z_pos a ltac:(lia)) as (p & j & -> & _). cbn.
    symmetry. apply Z.ltb_ge. lia. }
  destruct (of_Z_pos a ltac:(lia)) as (pa & ja & -> & Hja & Hpa & Hda).
  destruct (of_Z_pos b ltac:(lia)) as (pb & jb & -> & Hjb & Hpb & Hdb).
  pose proof (digits_53_bounds pa Hda). pose proof (digits_53_bounds pb Hdb).
  pose proof (pow2_pos ja ltac:(lia)). pose proof (pow2_pos jb ltac:(lia)).
  unfold JS.ltb, SFltb, SFcompare.
  destruct (Z.compare_spec (- ja) (- jb)) as [E|L|G].
  - assert (ja = jb) as -> by lia.
    change (PosDef.Pos.compare_cont Eq pa pb) with (Pos.compare pa pb).
    rewrite Pos2Z.inj_compare.
    destruct (Z.compare_spec (Zpos pa) (Zpos pb)), (Z.ltb_spec a b); try done; nia.
  - symmetry. apply Z.ltb_lt.
    rewrite (pow2_split ja jb) in Hpa by lia.
    pose proof (pow2_pos (ja - jb) ltac:(lia)).
    assert (2 <= 2 ^ (ja - jb)).
    { change 2 with (2 ^ 1) at 1. apply Z.pow_le_mono_r; lia. }
    assert (0 < a) by lia.
    assert (2 * (a * 2 ^ jb) <= Zpos pa).
    { rewrite Hpa.
      replace (a * (2 ^ (ja - jb) * 2 ^ jb)) with (2 ^ (ja - jb) * (a * 2 ^ jb)) by ring.
      apply Z.mul_le_mono_nonneg_r; [apply Z.mul_nonneg_nonneg; lia|lia]. }
    apply (Z.mul_lt_mono_pos_r (2 ^ jb)); lia.
  - symmetry. apply Z.ltb_ge.
    rewrite (pow2_split jb ja) in Hpb by lia.
    pose proof (pow2_pos (jb - ja) ltac:(lia)).
    assert (2 <= 2 ^ (jb - ja)).
    { change 2 with (2 ^ 1) at 1. apply Z.pow_le_mono_r; lia. }
    assert (0 < b) by lia.
    assert (2 * (b * 2 ^ ja) <= Zpos pb).
    { rewrite Hpb.
      replace (b * (2 ^ (jb - ja) * 2 ^ ja)) with (2 ^ (jb - ja) * (b * 2 ^ ja)) by ring.
      apply Z.mul_le_mono_nonneg_r; [apply Z.mul_nonneg_nonneg; lia|lia]. }
    apply (Z.mul_le_mono_pos_r _ _ (2 ^ ja)); lia.
Qed.

(** X15. For a balance, a SOL amount and a fee that are natural numbers with
    [sol + 10 * fee < 2 ^ 53], the required balance computed in binary64
    is exactly [sol + 10 * fee], and the SOL check of
    [checkPrerequisites] ends the process with status 1 exactly when the
    balance is below it. *)
Theorem sol_check_is_numerically_exact (env : Env)
    (this : CreateLiquidity.LiquidityCreator) (kp : Keypair) (balance sol fee : Z)
    (w : World) :
  CreateLiquidity.keypairs this !! "main" = Some kp ->
  raydium_sol_amount (CreateLiquidity.config this) = JS.of_Z sol ->
  fees_transaction_fee (CreateLiquidity.config this) = JS.of_Z fee ->
  (forall h key, env_rpc env h (getBalance key) = Ok (JS.of_Z balance)) ->
  0 <= balance < 2 ^ 53 -> 0 <= sol -> 0 <= fee -> sol + fee * 10 < 2 ^ 53 ->
  CreateLiquidity.requiredBalance (CreateLiquidity.config this)
  = JS.of_Z (sol + fee * 10)
  /\ (CreateLiquidity.checkSolBalance this env w).1
     = if balance <? sol + fee * 10 then Exit 1 else Ret tt.
Proof.
  intros Hk Hsol Hfee Hbal Hb Hs Hf Hsum.
  assert (CreateLiquidity.requiredBalance (CreateLiquidity.config this)
          = JS.of_Z (sol + fee * 10)) as Hreq.
  { unfold CreateLiquidity.requiredBalance. rewrite Hsol, Hfee.
    rewrite mul_of_Z by lia. apply add_of_Z; lia. }
  split; [exact Hreq|].
  unfold CreateLiquidity.checkSolBalance, try_catch, mbind, M_bind, do_call,
    publicKey_of, lift, get_publicKey.
  rewrite Hk, Hbal, Hreq, ltb_of_Z by lia.
  by destruct (balance <? sol + fee * 10).
Qed.

Lemma sol_check_witness :
  (CreateLiquidity.checkSolBalance creator Sample.env initial_world).1 = Ret tt.
Proof.
  refine (proj2 (sol_check_is_numerically_exact Sample.env creator
                   {| publicKey := "MainKeypair11111111" |} 5000000000 1000000000 5000
                   initial_world _ _ _ _ _ _ _ _)).
  - reflexivity.
  - reflexivity.
  - reflexivity.
  - intros h key. reflexivity.
  - lia.
  - lia.
  - lia.
  - lia.
Defined.

(** * More edges *)

(** ** A flag without its value *)

Lemma MintToken_parse_loop_flags (env : Env) (w : World) (tail : list string) :
  forall pre options,
  Forall (fun a => a ∉ "--help" :: value_flags) pre ->
  exists o,
    MintToken.parse_loop options pre env w = (Ret o, w)
    /\ MintToken.opt_network o = MintToken.opt_network options
    /\ MintToken.opt_amount o = MintToken.opt_amount options
    /\ MintToken.parse_loop options (pre ++ tail) env w
       = MintToken.parse_loop o tail env w.
Proof.
  induction pre as [|a pre IH]; intros options Hpre; [by exists options|].
  apply Forall_cons in Hpre as [Ha Hpre]. unfold value_flags in Ha.
  cbn [app MintToken.parse_loop].
  destruct (String.eqb_spec a "--network"); [set_solver|].
  destruct (String.eqb_spec a "--amount"); [set_solver|].
  repeat (destruct (String.eqb a _); [(cbv iota;
     match goal with
     | |- context [MintToken.parse_loop ?o pre env w] =>
         destruct (IH o Hpre) as (o' & E1 & E2 & E3 & E4); exists o';
         rewrite E1, E4; done
     end)|]).
  destruct (String.eqb_spec a "--help"); [set_solver|].
  (cbv iota;
     match goal with
     | |- context [MintToken.parse_loop ?o pre env w] =>
         destruct (IH o Hpre) as (o' & E1 & E2 & E3 & E4); exists o';
         rewrite E1, E4; done
     end).
Qed.

Lemma CreateLiquidity_parse_loop_flags (env : Env) (w : World) (tail : list string) :
  forall pre options,
  Forall (fun a => a ∉ "--help" :: value_flags) pre ->
  exists o,
    CreateLiquidity.parse_loop options pre env w = (Ret o, w)
    /\ CreateLiquidity.opt_network o = CreateLiquidity.opt_network options
    /\ CreateLiquidity.opt_solAmount o = CreateLiquidity.opt_solAmount options
    /\ CreateLiquidity.parse_loop options (pre ++ tail) env w
       = CreateLiquidity.parse_loop o tail env w.
Proof.
  induction pre as [|a pre IH]; intros options Hpre; [by exists options|].
  apply Forall_cons in Hpre as [Ha Hpre]. unfold value_flags in Ha.
  cbn [app CreateLiquidity.parse_loop].
  destruct (String.eqb_spec a "--network"); [set_solver|].
  destruct (String.eqb_spec a "--sol-amount"); [set_solver|].
  repeat (destruct (String.eqb a _); [(cbv iota;
     match goal with
     | |- context [CreateLiquidity.parse_loop ?o pre env w] =>
         destruct (IH o Hpre) as (o' & E1 & E2 & E3 & E4); exists o';
         rewrite E1, E4; done
     end)|]).
  destruct (String.eqb_spec a "--help"); [set_solver|].
  (cbv iota;
     match goal with
     | |- context [CreateLiquidity.parse_loop ?o pre env w] =>
         destruct (IH o Hpre) as (o' & E1 & E2 & E3 & E4); exists o';
         rewrite E1, E4; done
     end).
Qed.

Lemma DeployMetadata_parse_loop_flags (env : Env) (w : World) (tail : list string) :
  forall pre options,
  Forall (fun a => a ∉ "--help" :: value_flags) pre ->
  exists o,
    DeployMetadata.parse_loop options pre env w = (Ret o, w)
    /\ DeployMetadata.opt_network o = DeployMetadata.opt_network options
    /\ DeployMetadata.parse_loop options (pre ++ tail) env w
       = DeployMetadata.parse_loop o tail env w.
Proof.
  induction pre as [|a pre IH]; intros options Hpre; [by exists options|].
  apply Forall_cons in Hpre as [Ha Hpre]. unfold value_flags in Ha.
  cbn [app DeployMetadata.parse_loop].
  destruct (String.eqb_spec a "--network"); [set_solver|].
  repeat (destruct (String.eqb a _); [(cbv iota;
     match goal with
     | |- context [DeployMetadata.parse_loop ?o pre env w] =>
         destruct (IH o Hpre) as (o' & E1 & E2 & E4); exists o';
         rewrite E1, E4; done
     end)|]).
  destruct (String.eqb_spec a "--help"); [set_solver|].
  (cbv iota;
     match goal with
     | |- context [DeployMetadata.parse_loop ?o pre env w] =>
         destruct (IH o Hpre) as (o' & E1 & E2 & E4); exists o';
         rewrite E1, E4; done
     end).
Qed.

(** X18. In each of the three scripts, [--network] as the last argument, after
    arguments none of which is [--help] or a flag that takes a value,
    leaves the network undefined and the constructor falls back to
    devnet: the run is the run without that last argument. *)
Theorem network_without_a_value_means_devnet (pre : list string) (env : Env)
    (w : World) :
  Forall (fun a => a ∉ "--help" :: value_flags) pre ->
  MintToken.script (pre ++ ["--network"]) env w = MintToken.script pre env w
  /\ CreateLiquidity.script (pre ++ ["--network"]) env w
     = CreateLiquidity.script pre env w
  /\ DeployMetadata.script (pre ++ ["--network"]) env w
     = DeployMetadata.script pre env w.
Proof.
  intros Hpre. repeat split.
  - unfold MintToken.script, run_script, try_catch, MintToken.main,
      MintToken.parseArgs, mbind, M_bind.
    edestruct (MintToken_parse_loop_flags env w ["--network"] pre)
      as (o & E1 & Hn & _ & E2); [exact Hpre|].
    rewrite E2, E1. destruct o as [[n|] a d v]; cbn in Hn; try done.
    injection Hn as ->. reflexivity.
  - unfold CreateLiquidity.script, run_script, try_catch, CreateLiquidity.main,
      CreateLiquidity.parseArgs, mbind, M_bind.
    edestruct (CreateLiquidity_parse_loop_flags env w ["--network"] pre)
      as (o & E1 & Hn & _ & E2); [exact Hpre|].
    rewrite E2, E1. destruct o as [[n|] a d v]; cbn in Hn; try done.
    injection Hn as ->. reflexivity.
  - unfold DeployMetadata.script, run_script, try_catch, DeployMetadata.main,
      DeployMetadata.parseArgs, mbind, M_bind.
    edestruct (DeployMetadata_parse_loop_flags env w ["--network"] pre)
      as (o & E1 & Hn & E2); [exact Hpre|].
    rewrite E2, E1. destruct o as [[n|] d v]; cbn in Hn; try done.
    injection Hn as ->. reflexivity.
Qed.

Lemma network_without_a_value_witness :
  Forall (fun a => a ∉ "--help" :: value_flags) ["--dry-run"]
  /\ DeployMetadata.script ["--dry-run"; "--network"] Sample.env initial_world
     = DeployMetadata.script ["--dry-run"] Sample.env initial_world.
Proof.
  assert (Forall (fun a => a ∉ "--help" :: value_flags) ["--dry-run"]) as H.
  { repeat constructor; not_listed. }
  split; [exact H|].
  exact (proj2 (proj2 (network_without_a_value_means_devnet ["--dry-run"] Sample.env
                         initial_world H))).
Defined.

(** ** A lock period that is not a number *)





(** ** Records of different kinds *)

(** X20. For network names without a separator, the records of the three
    scripts never share a path: for two different kinds among minting,
    metadata and pool, the paths differ whatever the networks and the
    times.  A network name with a separator can lead from one kind to the
    path of another. *)
Theorem records_of_different_kinds_never_collide (dirname k1 k2 n1 n2 : string)
    (t1 t2 : Z) :
  k1 ∈ record_kinds -> k2 ∈ record_kinds -> k1 <> k2 ->
  slashless n1 = true -> slashless n2 = true ->
  0 <= t1 < 2 ^ 53 -> 0 <= t2 < 2 ^ 53 ->
  record_path dirname k1 n1 t1 <> record_path dirname k2 n2 t2.
Proof.
  unfold record_kinds. intros H1 H2 Hne Hn1 Hn2 Ht1 Ht2 Hp.
  repeat (apply elem_of_cons in H1 as [->|H1]);
    try (by apply elem_of_nil in H1);
    repeat (apply elem_of_cons in H2 as [->|H2]);
    try (by apply elem_of_nil in H2); try done;
    rewrite !record_path_plain in Hp by done;
    do 2 apply append_inj_l in Hp; unfold record_file in Hp;
    cbv beta iota delta [String.append] in Hp; discriminate Hp.
Qed.

Lemma records_of_different_kinds_witness :
  ("minting" ∈ record_kinds) /\ ("pool" ∈ record_kinds) /\ "minting" <> "pool"
  /\ record_path Sample.dirname "minting" "devnet" 1700000000000
     <> record_path Sample.dirname "pool" "devnet" 1700000000000.
Proof.
  assert ("minting" ∈ record_kinds) as H1 by (apply elem_of_cons; by left).
  assert ("pool" ∈ record_kinds) as H2
    by (do 2 (apply elem_of_cons; right); apply elem_of_cons; by left).
  assert ("minting" <> "pool") as H3 by discriminate.
  split; [exact H1|]. split; [exact H2|]. split; [exact H3|].
  exact (records_of_different_kinds_never_collide Sample.dirname "minting" "pool"
           "devnet" "devnet" 1700000000000 1700000000000 H1 H2 H3 eq_refl eq_refl
           ltac:(lia) ltac:(lia)).
Defined.

Example record_paths_meet_across_a_separator :
  slashless "x/../pool-devnet" = false
  /\ record_path Sample.dirname "minting" "x/../pool-devnet" 1700000000000
     = record_path Sample.dirname "pool" "devnet" 1700000000000
  /\ JS.path_dirname (record_path Sample.dirname "pool" "a/b" 1700000000000)
     = "/opt/glowmin/deployments/pool-a".
Proof. vm_compute. done. Qed.

